(** * Reading-progress / reading-session persistence schema

    A shallow embedding of
    [supabase/migrations/20240320000000_create_reading_tables.sql]:
    the two tables with their column defaults, NOT NULL, PRIMARY KEY,
    UNIQUE and FOREIGN KEY ... ON DELETE CASCADE constraints, the
    [update_updated_at_column] trigger function and the six row-level
    security policies.  SQL statements are functions from a database
    state to either a new state or an SQLSTATE condition. *)

From Stdlib Require Import ZArith List Bool Lia.
From stdpp Require Import base decidable option list numbers gmap sets.

Open Scope Z_scope.

(** ** SQL values *)

(** A UUID is an opaque 128-bit identifier; only equality is ever used. *)
Definition uuid := N.

(** TIMESTAMP WITH TIME ZONE: microseconds since the epoch. *)
Definition timestamptz := Z.

(** Every column value may be NULL: a column of SQL type [A] holds an
    [option A], [None] being NULL. *)

(** SQL's three-valued [=]: unknown as soon as one side is NULL. *)
Definition sql_eq {A} `{EqDecision A} (x y : option A) : option bool :=
  match x, y with
  | Some a, Some b => Some (bool_decide (a = b))
  | _, _ => None
  end.

(** A USING / WITH CHECK / WHERE condition admits a row only when it
    evaluates to TRUE; both FALSE and unknown reject. *)
Definition sql_is_true (c : option bool) : bool :=
  match c with
  | Some true => true
  | _ => false
  end.

(** INTEGER is a signed 32-bit integer; a value outside the range raises
    "integer out of range" rather than wrapping. *)
Definition int4_min : Z := - 2 ^ 31.
Definition int4_max : Z := 2 ^ 31 - 1.

Definition is_int4 (v : Z) : bool := (int4_min <=? v) && (v <=? int4_max).

(** A value of SQL type [numeric]: not-a-number, an infinity, or the
    decimal number [m * 10^(-e)]. *)
Inductive numeric : Set :=
  | NaN
  | Infinity (negative : bool)
  | Decimal (m : Z) (e : nat).

(** DECIMAL(5,2): two fractional digits and at most five digits in all.
    A value assigned to such a column is first rounded to two fractional
    digits, a tie going away from zero, and then checked to have no more
    than three digits before the point; NaN passes both steps and is
    stored as it is, an infinity fails the second.  A [decimal_5_2] is a
    value after the first step: NaN, an infinity, or a number of
    hundredths, so [hundredths 2500] is 25.00 and the largest magnitude
    the column holds is 999.99. *)
Inductive decimal_5_2 : Set :=
  | not_a_number
  | infinite (negative : bool)
  | hundredths (h : Z).

Global Instance decimal_5_2_eq_dec : EqDecision decimal_5_2.
Proof. solve_decision. Defined.

(** [m / d] rounded to the nearest integer, a tie away from zero. *)
Definition round_half_away (m d : Z) : Z :=
  Z.sgn m * ((2 * Z.abs m + d) / (2 * d)).

(** The first step: rounding to the scale of the column. *)
Definition to_scale_2 (v : numeric) : decimal_5_2 :=
  match v with
  | NaN => not_a_number
  | Infinity negative => infinite negative
  | Decimal m 0 => hundredths (m * 100)
  | Decimal m 1 => hundredths (m * 10)
  | Decimal m 2 => hundredths m
  | Decimal m (S (S (S k))) =>
      hundredths (round_half_away m (10 ^ Z.of_nat (S k)))
  end.

(** The second step: the precision of the column. *)
Definition is_decimal_5_2 (v : decimal_5_2) : bool :=
  match v with
  | not_a_number => true
  | infinite _ => false
  | hundredths h => (-99999 <=? h) && (h <=? 99999)
  end.

(** A nullable column passes its type check when it is NULL or in range. *)
Definition null_or {A} (p : A -> bool) (v : option A) : bool :=
  match v with
  | None => true
  | Some a => p a
  end.

Definition is_not_null {A} (v : option A) : bool :=
  match v with
  | None => false
  | Some _ => true
  end.

(** ** Outcomes of a statement *)

(** The conditions the schema can raise, by their PostgreSQL names. *)
Inductive sqlstate : Set :=
  | numeric_value_out_of_range   (* 22003 *)
  | not_null_violation           (* 23502 *)
  | foreign_key_violation        (* 23503 *)
  | unique_violation             (* 23505 *)
  | insufficient_privilege.      (* 42501: row-level security *)

Global Instance sqlstate_eq_dec : EqDecision sqlstate.
Proof. solve_decision. Defined.

Inductive result (E A : Type) : Type :=
  | Ok (a : A)
  | Err (e : E).
Arguments Ok {E A} a.
Arguments Err {E A} e.

Global Instance result_ret {E} : MRet (result E) := fun A a => Ok a.
Global Instance result_bind {E} : MBind (result E) := fun A B f m =>
  match m with
  | Ok a => f a
  | Err e => Err e
  end.

Definition is_ok {E A} (m : result E A) : bool :=
  match m with
  | Ok _ => true
  | Err _ => false
  end.

(** [guard_or e b] continues when [b] holds and raises [e] otherwise. *)
Definition guard_or {E} (e : E) (b : bool) : result E unit :=
  if b then Ok tt else Err e.

(** ** Sessions and row-level security *)

(** Row-level security is enabled but not forced on both tables, so the
    table owner (the role that runs the migration) and roles with
    BYPASSRLS are not subject to the policies.  Every other role is, and
    [auth.uid()] is the identity of its session, NULL when the request is
    not authenticated. *)
Inductive role : Set :=
  | table_owner
  | app_user (auth_uid : option uuid).

(** ** Tables *)

(** What the migration declares for a table, in the shape both tables
    share: the key columns, the column types, the NOT NULL columns, whether
    UNIQUE(user_id, book_id) is declared, and how a row's [updated_at] is
    assigned. *)
Record table (row : Type) : Type := Table {
  col_id : row -> option uuid;
  col_user_id : row -> option uuid;
  col_book_id : row -> option uuid;
  with_updated_at : option timestamptz -> row -> row;
  well_typed : row -> bool;
  not_null : row -> bool;
  unique_user_book : bool
}.
Arguments Table {row}.
Arguments col_id {row} _ _.
Arguments col_user_id {row} _ _.
Arguments col_book_id {row} _ _.
Arguments with_updated_at {row} _ _ _.
Arguments well_typed {row} _ _.
Arguments not_null {row} _ _.
Arguments unique_user_book {row} _.

(** The trigger function:
<<
  NEW.updated_at = NOW();
  RETURN NEW;
>> *)
Definition update_updated_at_column {row} (T : table row)
    (now : timestamptz) (NEW : row) : row :=
  with_updated_at T (Some now) NEW.

Section Table.
Context {row : Type} (T : table row).

(** The one condition all six policies use: [auth.uid() = user_id].
    FOR SELECT and FOR UPDATE give it as USING, applied to the existing
    row; FOR INSERT gives it as WITH CHECK, applied to the new row; and an
    UPDATE policy declared with USING alone applies the same expression to
    the new row as well. *)
Definition policy (r : role) (x : row) : bool :=
  match r with
  | table_owner => true
  | app_user uid => sql_is_true (sql_eq uid (col_user_id T x))
  end.

(** PRIMARY KEY (id): no other row has the same id. *)
Definition same_id (x y : row) : bool :=
  sql_is_true (sql_eq (col_id T x) (col_id T y)).

Definition pk_conflict (x : row) (rows : list row) : bool :=
  existsb (same_id x) rows.

(** UNIQUE(user_id, book_id): two rows conflict when both columns are
    equal, and NULL is equal to nothing. *)
Definition same_user_book (x y : row) : bool :=
  sql_is_true (sql_eq (col_user_id T x) (col_user_id T y))
  && sql_is_true (sql_eq (col_book_id T x) (col_book_id T y)).

Definition user_book_conflict (x : row) (rows : list row) : bool :=
  unique_user_book T && existsb (same_user_book x) rows.

(** REFERENCES t(id): a non-NULL reference must name an existing row. *)
Definition references (keys : gset uuid) (v : option uuid) : bool :=
  match v with
  | None => true
  | Some k => bool_decide (k ∈ keys)
  end.

Definition fk_ok (users books : gset uuid) (x : row) : bool :=
  references users (col_user_id T x) && references books (col_book_id T x).

(** The checks on a row about to be stored beside [others], in the
    order the executor makes them: the row-level security check on the
    new row, NOT NULL, then the unique indexes. *)
Definition check_new_row (r : role) (x : row) (others : list row)
    : result sqlstate unit :=
  _ ← guard_or insufficient_privilege (policy r x);
  _ ← guard_or not_null_violation (not_null T x);
  _ ← guard_or unique_violation (negb (pk_conflict x others));
  guard_or unique_violation (negb (user_book_conflict x others)).

(** INSERT of one row whose column values (defaults included) are [x].
    Values are converted to the column types first; foreign keys are
    checked once the row is in place. *)
Definition insert_row (r : role) (users books : gset uuid) (x : row)
    (rows : list row) : result sqlstate (list row) :=
  _ ← guard_or numeric_value_out_of_range (well_typed T x);
  _ ← check_new_row r x rows;
  _ ← guard_or foreign_key_violation (fk_ok users books x);
  Ok (rows ++ [x]).

(** The rows an UPDATE or SELECT acts on: those the policy's USING
    expression admits and the WHERE clause selects.  The others are
    passed over silently. *)
Definition targeted (r : role) (cond : row -> bool) (x : row) : bool :=
  policy r x && cond x.

(** The row an UPDATE stores for [OLD]: the SET clause, then the
    BEFORE UPDATE trigger. *)
Definition new_version (assign : row -> row) (now : timestamptz)
    (OLD : row) : row :=
  update_updated_at_column T now (assign OLD).

(** UPDATE ... SET ... WHERE ..., row by row: [done] holds the rows
    already visited (updated or passed over), [todo] those still to
    visit.  A unique index is checked as each new version is stored,
    against the table as it then stands. *)
Fixpoint update_loop (r : role) (assign : row -> row) (cond : row -> bool)
    (now : timestamptz) (done todo : list row)
    : result sqlstate (list row) :=
  match todo with
  | [] => Ok done
  | OLD :: rest =>
      if targeted r cond OLD then
        let NEW := new_version assign now OLD in
        _ ← guard_or numeric_value_out_of_range (well_typed T NEW);
        _ ← check_new_row r NEW (done ++ rest);
        update_loop r assign cond now (done ++ [NEW]) rest
      else update_loop r assign cond now (done ++ [OLD]) rest
  end.

(** The foreign keys of an updated row are re-checked, at the end of
    the statement, when the referencing column changed. *)
Definition fk_ok_after_update (users books : gset uuid)
    (assign : row -> row) (now : timestamptz) (OLD : row) : bool :=
  let NEW := new_version assign now OLD in
  (bool_decide (col_user_id T NEW = col_user_id T OLD)
   || references users (col_user_id T NEW))
  && (bool_decide (col_book_id T NEW = col_book_id T OLD)
      || references books (col_book_id T NEW)).

Definition update_rows (r : role) (users books : gset uuid)
    (assign : row -> row) (cond : row -> bool) (now : timestamptz)
    (rows : list row) : result sqlstate (list row) :=
  rows' ← update_loop r assign cond now [] rows;
  _ ← guard_or foreign_key_violation
        (forallb (fk_ok_after_update users books assign now)
                 (filter (fun x => targeted r cond x = true) rows));
  Ok rows'.

(** SELECT ... WHERE ...: the visible rows that satisfy the condition,
    in table order.  Rows the SELECT policy rejects are left out; no
    condition is raised for them. *)
Definition select_rows (r : role) (cond : row -> bool) (rows : list row)
    : list row :=
  filter (fun x => targeted r cond x = true) rows.

(** DELETE ... WHERE ...: the migration creates no policy FOR DELETE,
    and with row-level security enabled a command without a policy sees
    no rows. *)
Definition delete_policy (r : role) (x : row) : bool :=
  match r with
  | table_owner => true
  | app_user _ => false
  end.

Definition delete_rows (r : role) (cond : row -> bool) (rows : list row)
    : list row :=
  filter (fun x => negb (delete_policy r x && cond x) = true) rows.

(** ON DELETE CASCADE, for each of the two references.  Referential
    actions are not subject to row-level security. *)
Definition cascade_user (u : uuid) (rows : list row) : list row :=
  filter (fun x => col_user_id T x ≠ Some u) rows.

Definition cascade_book (b : uuid) (rows : list row) : list row :=
  filter (fun x => col_book_id T x ≠ Some b) rows.

End Table.

(** ** Column lists of INSERT *)

(** A column of an INSERT is either left out, and takes its DEFAULT, or
    given a value, which may be NULL. *)
Inductive col_input (A : Type) : Type :=
  | DEFAULT
  | VALUE (v : option A).
Arguments DEFAULT {A}.
Arguments VALUE {A} v.

Definition or_default {A} (d : option A) (c : col_input A) : option A :=
  match c with
  | DEFAULT => d
  | VALUE v => v
  end.

(** ** Table [reading_progress] *)

Module ReadingProgress.

Record row : Type := Row {
  id : option uuid;
  user_id : option uuid;
  book_id : option uuid;
  current_page : option Z;
  total_pages : option Z;
  progress : option decimal_5_2;
  last_read_at : option timestamptz;
  created_at : option timestamptz;
  updated_at : option timestamptz
}.

Global Instance progress_row_eq_dec : EqDecision row.
Proof. solve_decision. Defined.

Record insert_columns : Type := Columns {
  in_id : col_input uuid;
  in_user_id : col_input uuid;
  in_book_id : col_input uuid;
  in_current_page : col_input Z;
  in_total_pages : col_input Z;
  in_progress : col_input numeric;
  in_last_read_at : col_input timestamptz;
  in_created_at : col_input timestamptz;
  in_updated_at : col_input timestamptz
}.

(** The DEFAULT clauses: a column without one defaults to NULL. *)
Definition with_defaults (gen_random_uuid : uuid) (NOW : timestamptz)
    (c : insert_columns) : row :=
  {| id := or_default (Some gen_random_uuid) (in_id c);
     user_id := or_default None (in_user_id c);
     book_id := or_default None (in_book_id c);
     current_page := or_default (Some 0) (in_current_page c);
     total_pages := or_default None (in_total_pages c);
     progress :=
       option_map to_scale_2 (or_default (Some (Decimal 0 0)) (in_progress c));
     last_read_at := or_default (Some NOW) (in_last_read_at c);
     created_at := or_default (Some NOW) (in_created_at c);
     updated_at := or_default (Some NOW) (in_updated_at c) |}.

Definition set_updated_at (t : option timestamptz) (x : row) : row :=
  {| id := id x; user_id := user_id x; book_id := book_id x;
     current_page := current_page x; total_pages := total_pages x;
     progress := progress x; last_read_at := last_read_at x;
     created_at := created_at x; updated_at := t |}.

(** INTEGER and DECIMAL(5,2) columns. *)
Definition types_ok (x : row) : bool :=
  null_or is_int4 (current_page x)
  && null_or is_int4 (total_pages x)
  && null_or is_decimal_5_2 (progress x).

(** PRIMARY KEY and the three NOT NULL columns. *)
Definition not_null_ok (x : row) : bool :=
  is_not_null (id x)
  && is_not_null (current_page x)
  && is_not_null (total_pages x)
  && is_not_null (progress x).

Definition schema : table row :=
  {| col_id := id; col_user_id := user_id; col_book_id := book_id;
     with_updated_at := set_updated_at;
     well_typed := types_ok; not_null := not_null_ok;
     unique_user_book := true |}.

End ReadingProgress.

(** ** Table [reading_sessions] *)

Module ReadingSession.

Record row : Type := Row {
  id : option uuid;
  user_id : option uuid;
  book_id : option uuid;
  start_time : option timestamptz;
  end_time : option timestamptz;
  pages_read : option Z;
  duration : option Z;
  created_at : option timestamptz;
  updated_at : option timestamptz
}.

Global Instance session_row_eq_dec : EqDecision row.
Proof. solve_decision. Defined.

Record insert_columns : Type := Columns {
  in_id : col_input uuid;
  in_user_id : col_input uuid;
  in_book_id : col_input uuid;
  in_start_time : col_input timestamptz;
  in_end_time : col_input timestamptz;
  in_pages_read : col_input Z;
  in_duration : col_input Z;
  in_created_at : col_input timestamptz;
  in_updated_at : col_input timestamptz
}.

Definition with_defaults (gen_random_uuid : uuid) (NOW : timestamptz)
    (c : insert_columns) : row :=
  {| id := or_default (Some gen_random_uuid) (in_id c);
     user_id := or_default None (in_user_id c);
     book_id := or_default None (in_book_id c);
     start_time := or_default None (in_start_time c);
     end_time := or_default None (in_end_time c);
     pages_read := or_default (Some 0) (in_pages_read c);
     duration := or_default (Some 0) (in_duration c);
     created_at := or_default (Some NOW) (in_created_at c);
     updated_at := or_default (Some NOW) (in_updated_at c) |}.

Definition set_updated_at (t : option timestamptz) (x : row) : row :=
  {| id := id x; user_id := user_id x; book_id := book_id x;
     start_time := start_time x; end_time := end_time x;
     pages_read := pages_read x; duration := duration x;
     created_at := created_at x; updated_at := t |}.

Definition types_ok (x : row) : bool :=
  null_or is_int4 (pages_read x) && null_or is_int4 (duration x).

Definition not_null_ok (x : row) : bool :=
  is_not_null (id x)
  && is_not_null (start_time x)
  && is_not_null (pages_read x)
  && is_not_null (duration x).

(** No UNIQUE constraint besides the primary key. *)
Definition schema : table row :=
  {| col_id := id; col_user_id := user_id; col_book_id := book_id;
     with_updated_at := set_updated_at;
     well_typed := types_ok; not_null := not_null_ok;
     unique_user_book := false |}.

End ReadingSession.

(** ** The database *)

(** [auth.users] and [books] are created elsewhere; the migration only
    refers to their primary keys, so each is the set of its ids. *)
Record database : Type := Database {
  auth_users : gset uuid;
  books : gset uuid;
  reading_progress : list ReadingProgress.row;
  reading_sessions : list ReadingSession.row
}.

Definition empty_database : database :=
  {| auth_users := ∅; books := ∅;
     reading_progress := []; reading_sessions := [] |}.

Definition with_reading_progress (rows : list ReadingProgress.row)
    (db : database) : database :=
  {| auth_users := auth_users db; books := books db;
     reading_progress := rows; reading_sessions := reading_sessions db |}.

Definition with_reading_sessions (rows : list ReadingSession.row)
    (db : database) : database :=
  {| auth_users := auth_users db; books := books db;
     reading_progress := reading_progress db; reading_sessions := rows |}.

(** ** Statements *)

Definition insert_reading_progress (r : role)
    (c : ReadingProgress.insert_columns)
    (gen_random_uuid : uuid) (NOW : timestamptz) (db : database)
    : result sqlstate database :=
  rows ← insert_row ReadingProgress.schema r (auth_users db) (books db)
           (ReadingProgress.with_defaults gen_random_uuid NOW c)
           (reading_progress db);
  Ok (with_reading_progress rows db).

Definition update_reading_progress (r : role)
    (assign : ReadingProgress.row -> ReadingProgress.row)
    (cond : ReadingProgress.row -> bool) (NOW : timestamptz) (db : database)
    : result sqlstate database :=
  rows ← update_rows ReadingProgress.schema r (auth_users db) (books db)
           assign cond NOW (reading_progress db);
  Ok (with_reading_progress rows db).

Definition select_reading_progress (r : role)
    (cond : ReadingProgress.row -> bool) (db : database)
    : result sqlstate (list ReadingProgress.row) :=
  Ok (select_rows ReadingProgress.schema r cond (reading_progress db)).

Definition delete_reading_progress (r : role)
    (cond : ReadingProgress.row -> bool) (db : database) : database :=
  with_reading_progress
    (delete_rows r cond (reading_progress db)) db.

Definition insert_reading_sessions (r : role)
    (c : ReadingSession.insert_columns)
    (gen_random_uuid : uuid) (NOW : timestamptz) (db : database)
    : result sqlstate database :=
  rows ← insert_row ReadingSession.schema r (auth_users db) (books db)
           (ReadingSession.with_defaults gen_random_uuid NOW c)
           (reading_sessions db);
  Ok (with_reading_sessions rows db).

Definition update_reading_sessions (r : role)
    (assign : ReadingSession.row -> ReadingSession.row)
    (cond : ReadingSession.row -> bool) (NOW : timestamptz) (db : database)
    : result sqlstate database :=
  rows ← update_rows ReadingSession.schema r (auth_users db) (books db)
           assign cond NOW (reading_sessions db);
  Ok (with_reading_sessions rows db).

Definition select_reading_sessions (r : role)
    (cond : ReadingSession.row -> bool) (db : database)
    : result sqlstate (list ReadingSession.row) :=
  Ok (select_rows ReadingSession.schema r cond (reading_sessions db)).

Definition delete_reading_sessions (r : role)
    (cond : ReadingSession.row -> bool) (db : database) : database :=
  with_reading_sessions
    (delete_rows r cond (reading_sessions db)) db.

(** Rows of the referenced tables come and go; removing one removes,
    by ON DELETE CASCADE, the rows of both tables that refer to it. *)
Definition insert_user (u : uuid) (db : database) : result sqlstate database :=
  _ ← guard_or unique_violation (negb (bool_decide (u ∈ auth_users db)));
  Ok {| auth_users := {[u]} ∪ auth_users db; books := books db;
        reading_progress := reading_progress db;
        reading_sessions := reading_sessions db |}.

Definition insert_book (b : uuid) (db : database) : result sqlstate database :=
  _ ← guard_or unique_violation (negb (bool_decide (b ∈ books db)));
  Ok {| auth_users := auth_users db; books := {[b]} ∪ books db;
        reading_progress := reading_progress db;
        reading_sessions := reading_sessions db |}.

Definition delete_user (u : uuid) (db : database) : database :=
  {| auth_users := auth_users db ∖ {[u]}; books := books db;
     reading_progress :=
       cascade_user ReadingProgress.schema u (reading_progress db);
     reading_sessions :=
       cascade_user ReadingSession.schema u (reading_sessions db) |}.

Definition delete_book (b : uuid) (db : database) : database :=
  {| auth_users := auth_users db; books := books db ∖ {[b]};
     reading_progress :=
       cascade_book ReadingProgress.schema b (reading_progress db);
     reading_sessions :=
       cascade_book ReadingSession.schema b (reading_sessions db) |}.

(** ** Data-access entry points *)

(** Modelled from the spec: the four error kinds of the error taxonomy.
    The repository's sources raise no errors of their own; the kinds are
    related to the conditions of the schema by [classify]: a uniqueness or
    not-null violation is a [ConstraintViolation], a missing user or book a
    [ReferenceError], a rejected row-level security check an
    [AuthorizationError], malformed input a [ValidationError]. *)
Inductive error_kind : Set :=
  | ValidationError
  | ReferenceError
  | ConstraintViolation
  | AuthorizationError.

Global Instance error_kind_eq_dec : EqDecision error_kind.
Proof. solve_decision. Defined.

Definition classify (e : sqlstate) : error_kind :=
  match e with
  | numeric_value_out_of_range => ValidationError
  | not_null_violation => ConstraintViolation
  | unique_violation => ConstraintViolation
  | foreign_key_violation => ReferenceError
  | insufficient_privilege => AuthorizationError
  end.

Definition classified {A} (m : result sqlstate A) : result error_kind A :=
  match m with
  | Ok a => Ok a
  | Err e => Err (classify e)
  end.

Definition clamp (lo hi x : Z) : Z := Z.max lo (Z.min x hi).

(** Modelled from the spec: [round(current_page / total_pages * 100, 2)]
    as a number of hundredths, that is the integer nearest to
    [page * 10000 / total], a tie going upward. *)
Definition percent (page total : Z) : Z :=
  (2 * (page * 10000) + total) / (2 * total).

(** Modelled from the spec: step 1 of the reconciliation algorithm with its
    defensive clamping: the page is clamped to [[0, total_pages]] before the
    percentage is computed, the percentage is clamped to [[0, 100]], and it
    is 0 when [total_pages] is 0. *)
Definition reported_page (current_page total_pages : Z) : Z :=
  clamp 0 total_pages current_page.

Definition reported_progress (current_page total_pages : Z) : Z :=
  if total_pages =? 0 then 0
  else clamp 0 10000 (percent (reported_page current_page total_pages)
                              total_pages).

(** Modelled from the spec: [reportProgress(user_id, book_id, current_page,
    total_pages)], which the repository's sources do not contain.  It is the
    upsert keyed on (user_id, book_id) of the reconciliation algorithm,
    executed against the tables of the migration:
<<
  INSERT INTO reading_progress
    (user_id, book_id, current_page, total_pages, progress,
     last_read_at, created_at)
  VALUES (u, b, page, total_pages, progress, NOW(), NOW())
  ON CONFLICT (user_id, book_id) DO UPDATE
    SET current_page = EXCLUDED.current_page,
        total_pages = EXCLUDED.total_pages,
        progress = EXCLUDED.progress,
        last_read_at = EXCLUDED.last_read_at;
>>
    In strict mode a zero [total_pages] is a [ValidationError].  The row
    proposed for insertion is checked against the INSERT policy whichever
    path is taken. *)
Definition reported_columns (u b : uuid) (current_page total_pages : Z)
    (NOW : timestamptz) : ReadingProgress.insert_columns :=
  {| ReadingProgress.in_id := DEFAULT;
     ReadingProgress.in_user_id := VALUE (Some u);
     ReadingProgress.in_book_id := VALUE (Some b);
     ReadingProgress.in_current_page :=
       VALUE (Some (reported_page current_page total_pages));
     ReadingProgress.in_total_pages := VALUE (Some total_pages);
     ReadingProgress.in_progress :=
       VALUE (Some (Decimal (reported_progress current_page total_pages) 2));
     ReadingProgress.in_last_read_at := VALUE (Some NOW);
     ReadingProgress.in_created_at := VALUE (Some NOW);
     ReadingProgress.in_updated_at := DEFAULT |}.

Definition do_update_set (EXCLUDED OLD : ReadingProgress.row)
    : ReadingProgress.row :=
  {| ReadingProgress.id := ReadingProgress.id OLD;
     ReadingProgress.user_id := ReadingProgress.user_id OLD;
     ReadingProgress.book_id := ReadingProgress.book_id OLD;
     ReadingProgress.current_page := ReadingProgress.current_page EXCLUDED;
     ReadingProgress.total_pages := ReadingProgress.total_pages EXCLUDED;
     ReadingProgress.progress := ReadingProgress.progress EXCLUDED;
     ReadingProgress.last_read_at := ReadingProgress.last_read_at EXCLUDED;
     ReadingProgress.created_at := ReadingProgress.created_at OLD;
     ReadingProgress.updated_at := ReadingProgress.updated_at OLD |}.

Definition upsert_reading_progress (r : role)
    (c : ReadingProgress.insert_columns)
    (gen_random_uuid : uuid) (NOW : timestamptz) (db : database)
    : result sqlstate database :=
  let EXCLUDED := ReadingProgress.with_defaults gen_random_uuid NOW c in
  _ ← guard_or numeric_value_out_of_range (ReadingProgress.types_ok EXCLUDED);
  _ ← guard_or insufficient_privilege (policy ReadingProgress.schema r EXCLUDED);
  _ ← guard_or not_null_violation (ReadingProgress.not_null_ok EXCLUDED);
  if existsb (same_user_book ReadingProgress.schema EXCLUDED)
             (reading_progress db)
  then update_reading_progress r (do_update_set EXCLUDED)
         (same_user_book ReadingProgress.schema EXCLUDED) NOW db
  else insert_reading_progress r c gen_random_uuid NOW db.

Definition reportProgress (r : role) (u b : uuid)
    (current_page total_pages : Z) (strict : bool)
    (gen_random_uuid : uuid) (NOW : timestamptz) (db : database)
    : result error_kind database :=
  if strict && (total_pages =? 0) then Err ValidationError
  else classified
         (upsert_reading_progress r
            (reported_columns u b current_page total_pages NOW)
            gen_random_uuid NOW db).

(** The read entry points [getProgress(user_id, book_id)],
    [listProgress(user_id)] and [listSessions(user_id, book_id?)] are not in
    the repository's sources either.  Each is the SELECT its signature
    denotes, executed under the SELECT policy of the migration. *)
Definition getProgress (r : role) (u b : uuid) (db : database)
    : result error_kind (list ReadingProgress.row) :=
  classified
    (select_reading_progress r
       (fun x => sql_is_true (sql_eq (ReadingProgress.user_id x) (Some u))
                 && sql_is_true (sql_eq (ReadingProgress.book_id x) (Some b)))
       db).

Definition listProgress (r : role) (u : uuid) (db : database)
    : result error_kind (list ReadingProgress.row) :=
  classified
    (select_reading_progress r
       (fun x => sql_is_true (sql_eq (ReadingProgress.user_id x) (Some u)))
       db).

Definition listSessions (r : role) (u : uuid) (b : option uuid)
    (db : database) : result error_kind (list ReadingSession.row) :=
  classified
    (select_reading_sessions r
       (fun x => sql_is_true (sql_eq (ReadingSession.user_id x) (Some u))
                 && match b with
                    | Some _ =>
                        sql_is_true (sql_eq (ReadingSession.book_id x) b)
                    | None => true
                    end)
       db).

(** Modelled from the spec: [openSession(user_id, book_id, start_time)],
    the insert of the session-recording contract: a row with the given
    start time, [end_time = null], [pages_read = 0] and [duration = 0]. *)
Definition opened_columns (u b : uuid) (start : timestamptz)
    : ReadingSession.insert_columns :=
  {| ReadingSession.in_id := DEFAULT;
     ReadingSession.in_user_id := VALUE (Some u);
     ReadingSession.in_book_id := VALUE (Some b);
     ReadingSession.in_start_time := VALUE (Some start);
     ReadingSession.in_end_time := VALUE None;
     ReadingSession.in_pages_read := VALUE (Some 0);
     ReadingSession.in_duration := VALUE (Some 0);
     ReadingSession.in_created_at := DEFAULT;
     ReadingSession.in_updated_at := DEFAULT |}.

Definition openSession (r : role) (u b : uuid) (start : timestamptz)
    (gen_random_uuid : uuid) (NOW : timestamptz) (db : database)
    : result error_kind database :=
  classified
    (insert_reading_sessions r (opened_columns u b start)
       gen_random_uuid NOW db).

(** ** Histories *)

(** Everything that can change the database.  Each statement carries the
    values its execution draws from the environment: the role of the
    session, the value of [NOW()] and the value of [gen_random_uuid()]. *)
Inductive statement : Type :=
  | INSERT_user (u : uuid)
  | DELETE_user (u : uuid)
  | INSERT_book (b : uuid)
  | DELETE_book (b : uuid)
  | INSERT_reading_progress (r : role) (c : ReadingProgress.insert_columns)
      (gen_random_uuid : uuid) (NOW : timestamptz)
  | UPDATE_reading_progress (r : role)
      (assign : ReadingProgress.row -> ReadingProgress.row)
      (cond : ReadingProgress.row -> bool) (NOW : timestamptz)
  | DELETE_reading_progress (r : role) (cond : ReadingProgress.row -> bool)
  | INSERT_reading_sessions (r : role) (c : ReadingSession.insert_columns)
      (gen_random_uuid : uuid) (NOW : timestamptz)
  | UPDATE_reading_sessions (r : role)
      (assign : ReadingSession.row -> ReadingSession.row)
      (cond : ReadingSession.row -> bool) (NOW : timestamptz)
  | DELETE_reading_sessions (r : role) (cond : ReadingSession.row -> bool)
  | CALL_reportProgress (r : role) (u b : uuid)
      (current_page total_pages : Z) (strict : bool)
      (gen_random_uuid : uuid) (NOW : timestamptz)
  | CALL_openSession (r : role) (u b : uuid) (start : timestamptz)
      (gen_random_uuid : uuid) (NOW : timestamptz).

(** A statement that raises a condition is rolled back: the database is
    as it was. *)
Definition committed {E} (db : database) (m : result E database) : database :=
  match m with
  | Ok db' => db'
  | Err _ => db
  end.

Definition execute (s : statement) (db : database) : database :=
  match s with
  | INSERT_user u => committed db (insert_user u db)
  | DELETE_user u => delete_user u db
  | INSERT_book b => committed db (insert_book b db)
  | DELETE_book b => delete_book b db
  | INSERT_reading_progress r c g NOW =>
      committed db (insert_reading_progress r c g NOW db)
  | UPDATE_reading_progress r assign cond NOW =>
      committed db (update_reading_progress r assign cond NOW db)
  | DELETE_reading_progress r cond => delete_reading_progress r cond db
  | INSERT_reading_sessions r c g NOW =>
      committed db (insert_reading_sessions r c g NOW db)
  | UPDATE_reading_sessions r assign cond NOW =>
      committed db (update_reading_sessions r assign cond NOW db)
  | DELETE_reading_sessions r cond => delete_reading_sessions r cond db
  | CALL_reportProgress r u b cp tp strict g NOW =>
      committed db (reportProgress r u b cp tp strict g NOW db)
  | CALL_openSession r u b start g NOW =>
      committed db (openSession r u b start g NOW db)
  end.

(** The state after a history, oldest statement first. *)
Definition run (history : list statement) (db : database) : database :=
  fold_left (fun d s => execute s d) history db.

(** The reachable states are those a history leads to from the empty
    database the migration creates. *)
Definition after (history : list statement) : database :=
  run history empty_database.

(** ** Consistency of a database state *)

(** No two rows of a list are related by [c]. *)
Fixpoint distinct_by {row : Type} (c : row -> row -> bool) (rows : list row)
    : bool :=
  match rows with
  | [] => true
  | x :: rest => negb (existsb (c x) rest) && distinct_by c rest
  end.

Section Consistency.
Context {row : Type} (T : table row).

(** The primary key and, where declared, UNIQUE(user_id, book_id). *)
Definition keys_ok (rows : list row) : bool :=
  distinct_by (same_id T) rows
  && (negb (unique_user_book T) || distinct_by (same_user_book T) rows).

(** Column types and NOT NULL. *)
Definition columns_ok (rows : list row) : bool :=
  forallb (fun x => well_typed T x && not_null T x) rows.

(** Both foreign keys. *)
Definition references_ok (users books : gset uuid) (rows : list row)
    : bool :=
  forallb (fk_ok T users books) rows.

Definition table_ok (users books : gset uuid) (rows : list row) : bool :=
  keys_ok rows && columns_ok rows && references_ok users books rows.

(** [x'] stands for [x] in every key comparison. *)
Definition same_keys (x' x : row) : Prop :=
  col_id T x' = col_id T x
  /\ col_user_id T x' = col_user_id T x
  /\ col_book_id T x' = col_book_id T x.

(** What an UPDATE leaves in place of a row. *)
Definition updated (r : role) (assign : row -> row) (cond : row -> bool)
    (now : timestamptz) (x : row) : row :=
  if targeted T r cond x then new_version T assign now x else x.

End Consistency.

Definition consistent (db : database) : bool :=
  table_ok ReadingProgress.schema (auth_users db) (books db)
    (reading_progress db)
  && table_ok ReadingSession.schema (auth_users db) (books db)
       (reading_sessions db).

(** The rows of a (user, book) pair. *)
Definition progress_of (u b : uuid) (db : database)
    : list ReadingProgress.row :=
  filter (fun x => ReadingProgress.user_id x = Some u
                   ∧ ReadingProgress.book_id x = Some b)
         (reading_progress db).

Definition sessions_of (u b : uuid) (db : database)
    : list ReadingSession.row :=
  filter (fun x => ReadingSession.user_id x = Some u
                   ∧ ReadingSession.book_id x = Some b)
         (reading_sessions db).

(** A role may write the rows of [u] when it is the table owner or is
    authenticated as [u]. *)
Definition may_write (r : role) (u : uuid) : Prop :=
  r = table_owner \/ r = app_user (Some u).

(** ** Example histories *)

Definition alice : uuid := 1%N.
Definition bob : uuid := 2%N.
Definition novel : uuid := 7%N.

(** Two users and a book. *)
Definition two_readers : list statement :=
  [INSERT_user alice; INSERT_user bob; INSERT_book novel].

(** Bob has reported progress on the book and has a session open. *)
Definition bob_reads : list statement :=
  two_readers
  ++ [CALL_reportProgress (app_user (Some bob)) bob novel 50 200 false
        100%N 5;
      CALL_openSession (app_user (Some bob)) bob novel 5 101%N 5].

(** SET clauses that assign one column of [reading_progress]. *)
Definition set_created_at (v : option timestamptz) (x : ReadingProgress.row)
    : ReadingProgress.row :=
  {| ReadingProgress.id := ReadingProgress.id x;
     ReadingProgress.user_id := ReadingProgress.user_id x;
     ReadingProgress.book_id := ReadingProgress.book_id x;
     ReadingProgress.current_page := ReadingProgress.current_page x;
     ReadingProgress.total_pages := ReadingProgress.total_pages x;
     ReadingProgress.progress := ReadingProgress.progress x;
     ReadingProgress.last_read_at := ReadingProgress.last_read_at x;
     ReadingProgress.created_at := v;
     ReadingProgress.updated_at := ReadingProgress.updated_at x |}.

Definition set_user_id (v : option uuid) (x : ReadingProgress.row)
    : ReadingProgress.row :=
  {| ReadingProgress.id := ReadingProgress.id x;
     ReadingProgress.user_id := v;
     ReadingProgress.book_id := ReadingProgress.book_id x;
     ReadingProgress.current_page := ReadingProgress.current_page x;
     ReadingProgress.total_pages := ReadingProgress.total_pages x;
     ReadingProgress.progress := ReadingProgress.progress x;
     ReadingProgress.last_read_at := ReadingProgress.last_read_at x;
     ReadingProgress.created_at := ReadingProgress.created_at x;
     ReadingProgress.updated_at := ReadingProgress.updated_at x |}.

Definition set_book_id (v : option uuid) (x : ReadingProgress.row)
    : ReadingProgress.row :=
  {| ReadingProgress.id := ReadingProgress.id x;
     ReadingProgress.user_id := ReadingProgress.user_id x;
     ReadingProgress.book_id := v;
     ReadingProgress.current_page := ReadingProgress.current_page x;
     ReadingProgress.total_pages := ReadingProgress.total_pages x;
     ReadingProgress.progress := ReadingProgress.progress x;
     ReadingProgress.last_read_at := ReadingProgress.last_read_at x;
     ReadingProgress.created_at := ReadingProgress.created_at x;
     ReadingProgress.updated_at := ReadingProgress.updated_at x |}.

Definition every_row {row : Type} (x : row) : bool := true.

(** Bob then runs [UPDATE reading_progress SET created_at = <epoch>,
    updated_at = <epoch>]. *)
Definition bob_backdates : list statement :=
  bob_reads
  ++ [UPDATE_reading_progress (app_user (Some bob))
        (fun x => ReadingProgress.set_updated_at (Some 0)
                    (set_created_at (Some 0) x))
        every_row 9].

Definition essay : uuid := 8%N.

(** Bob runs [UPDATE reading_progress SET book_id = <essay>,
    created_at = <epoch>] on his row. *)
Definition bob_moves_row : list statement :=
  bob_reads
  ++ [INSERT_book essay;
      UPDATE_reading_progress (app_user (Some bob))
        (fun x => set_book_id (Some essay) (set_created_at (Some 0) x))
        every_row 9].

(** The table owner runs [UPDATE reading_progress SET user_id = <alice>]. *)
Definition owner_reassigns : list statement :=
  bob_reads
  ++ [UPDATE_reading_progress table_owner (set_user_id (Some alice))
        every_row 9].

(** Bob inserts a progress row and a session with negative counts. *)
Definition negative_counts : list statement :=
  two_readers
  ++ [INSERT_reading_progress (app_user (Some bob))
        {| ReadingProgress.in_id := DEFAULT;
           ReadingProgress.in_user_id := VALUE (Some bob);
           ReadingProgress.in_book_id := VALUE (Some novel);
           ReadingProgress.in_current_page := VALUE (Some (-5));
           ReadingProgress.in_total_pages := VALUE (Some (-1));
           ReadingProgress.in_progress := DEFAULT;
           ReadingProgress.in_last_read_at := DEFAULT;
           ReadingProgress.in_created_at := DEFAULT;
           ReadingProgress.in_updated_at := DEFAULT |}
        100%N 5;
      INSERT_reading_sessions (app_user (Some bob))
        {| ReadingSession.in_id := DEFAULT;
           ReadingSession.in_user_id := VALUE (Some bob);
           ReadingSession.in_book_id := VALUE (Some novel);
           ReadingSession.in_start_time := VALUE (Some 5);
           ReadingSession.in_end_time := DEFAULT;
           ReadingSession.in_pages_read := VALUE (Some (-3));
           ReadingSession.in_duration := VALUE (Some (-60));
           ReadingSession.in_created_at := DEFAULT;
           ReadingSession.in_updated_at := DEFAULT |}
        101%N 5].

(** [INSERT INTO reading_progress (user_id, book_id, total_pages)] and
    [INSERT INTO reading_sessions (user_id, book_id, start_time)]: every
    column that has a default is left out. *)
Definition minimal_progress (u b : option uuid) (t : Z)
    : ReadingProgress.insert_columns :=
  {| ReadingProgress.in_id := DEFAULT;
     ReadingProgress.in_user_id := VALUE u;
     ReadingProgress.in_book_id := VALUE b;
     ReadingProgress.in_current_page := DEFAULT;
     ReadingProgress.in_total_pages := VALUE (Some t);
     ReadingProgress.in_progress := DEFAULT;
     ReadingProgress.in_last_read_at := DEFAULT;
     ReadingProgress.in_created_at := DEFAULT;
     ReadingProgress.in_updated_at := DEFAULT |}.

Definition minimal_session (u b : option uuid) (start : timestamptz)
    : ReadingSession.insert_columns :=
  {| ReadingSession.in_id := DEFAULT;
     ReadingSession.in_user_id := VALUE u;
     ReadingSession.in_book_id := VALUE b;
     ReadingSession.in_start_time := VALUE (Some start);
     ReadingSession.in_end_time := DEFAULT;
     ReadingSession.in_pages_read := DEFAULT;
     ReadingSession.in_duration := DEFAULT;
     ReadingSession.in_created_at := DEFAULT;
     ReadingSession.in_updated_at := DEFAULT |}.

(** Bob opens [n] sessions on the same book and closes none. *)
Definition open_sessions (n : nat) : list statement :=
  two_readers
  ++ map (fun i => CALL_openSession (app_user (Some bob)) bob novel 0
                     (N.of_nat i) 0)
         (seq 0 n).

(** [INSERT INTO reading_progress (user_id, book_id, current_page)]:
    [total_pages] is left out. *)
Definition without_total_pages (u b : uuid)
    : ReadingProgress.insert_columns :=
  {| ReadingProgress.in_id := DEFAULT;
     ReadingProgress.in_user_id := VALUE (Some u);
     ReadingProgress.in_book_id := VALUE (Some b);
     ReadingProgress.in_current_page := VALUE (Some 10);
     ReadingProgress.in_total_pages := DEFAULT;
     ReadingProgress.in_progress := DEFAULT;
     ReadingProgress.in_last_read_at := DEFAULT;
     ReadingProgress.in_created_at := DEFAULT;
     ReadingProgress.in_updated_at := DEFAULT |}.

(** The row [openSession] stores. *)
Definition opened_row (u b : uuid) (start : timestamptz) (g : uuid)
    (NOW : timestamptz) : ReadingSession.row :=
  ReadingSession.with_defaults g NOW (opened_columns u b start).

(** ** Who issued a statement *)

(** A statement on [reading_progress] or [reading_sessions] issued by a
    session that is subject to the policies and whose [auth.uid()] is
    [uid].  Statements on the referenced tables are not issued this way. *)
Definition issued_by (uid : option uuid) (s : statement) : Prop :=
  match s with
  | INSERT_user _ | DELETE_user _ | INSERT_book _ | DELETE_book _ => False
  | INSERT_reading_progress r _ _ _ => r = app_user uid
  | UPDATE_reading_progress r _ _ _ => r = app_user uid
  | DELETE_reading_progress r _ => r = app_user uid
  | INSERT_reading_sessions r _ _ _ => r = app_user uid
  | UPDATE_reading_sessions r _ _ _ => r = app_user uid
  | DELETE_reading_sessions r _ => r = app_user uid
  | CALL_reportProgress r _ _ _ _ _ _ _ => r = app_user uid
  | CALL_openSession r _ _ _ _ _ => r = app_user uid
  end.

(** Two states show the same rows to the session whose [auth.uid()] is
    [uid], whatever it selects. *)
Definition same_view (uid : option uuid) (db db' : database) : Prop :=
  (forall cond,
     select_reading_progress (app_user uid) cond db'
     = select_reading_progress (app_user uid) cond db)
  /\ (forall cond,
        select_reading_sessions (app_user uid) cond db'
        = select_reading_sessions (app_user uid) cond db).

(** Alice tries to insert progress and a session in Bob's name. *)
Definition bob_minimal_progress : ReadingProgress.insert_columns :=
  minimal_progress (Some bob) (Some novel) 300.

Definition bob_minimal_session : ReadingSession.insert_columns :=
  minimal_session (Some bob) (Some novel) 6.

(** Bob marks the book as finished:
    [UPDATE reading_progress SET current_page = total_pages]. *)
Definition finish_book (x : ReadingProgress.row) : ReadingProgress.row :=
  {| ReadingProgress.id := ReadingProgress.id x;
     ReadingProgress.user_id := ReadingProgress.user_id x;
     ReadingProgress.book_id := ReadingProgress.book_id x;
     ReadingProgress.current_page := ReadingProgress.total_pages x;
     ReadingProgress.total_pages := ReadingProgress.total_pages x;
     ReadingProgress.progress := Some (hundredths 10000);
     ReadingProgress.last_read_at := ReadingProgress.last_read_at x;
     ReadingProgress.created_at := ReadingProgress.created_at x;
     ReadingProgress.updated_at := ReadingProgress.updated_at x |}.

(** [INSERT INTO reading_progress (user_id, book_id, total_pages,
    progress)]. *)
Definition progress_columns (u b : uuid) (t : Z) (p : numeric)
    : ReadingProgress.insert_columns :=
  {| ReadingProgress.in_id := DEFAULT;
     ReadingProgress.in_user_id := VALUE (Some u);
     ReadingProgress.in_book_id := VALUE (Some b);
     ReadingProgress.in_current_page := DEFAULT;
     ReadingProgress.in_total_pages := VALUE (Some t);
     ReadingProgress.in_progress := VALUE (Some p);
     ReadingProgress.in_last_read_at := DEFAULT;
     ReadingProgress.in_created_at := DEFAULT;
     ReadingProgress.in_updated_at := DEFAULT |}.

(** [INSERT INTO reading_sessions (user_id, book_id)]: no [start_time]. *)
Definition session_without_start (u b : uuid)
    : ReadingSession.insert_columns :=
  {| ReadingSession.in_id := DEFAULT;
     ReadingSession.in_user_id := VALUE (Some u);
     ReadingSession.in_book_id := VALUE (Some b);
     ReadingSession.in_start_time := DEFAULT;
     ReadingSession.in_end_time := DEFAULT;
     ReadingSession.in_pages_read := DEFAULT;
     ReadingSession.in_duration := DEFAULT;
     ReadingSession.in_created_at := DEFAULT;
     ReadingSession.in_updated_at := DEFAULT |}.

Definition atlas : uuid := 9%N.

(** * The book form and the book editor

    The pure parts of the two components that follow [ApiKeyManager] in
    [components/admin/ApiKeyManager.tsx]: the tag handlers of [BookForm]
    and the word and page counters of [BookEditor]. *)

(** ** JavaScript strings *)

(** A string is a sequence of UTF-16 code units. *)
Definition js_string := list N.

(** The code points of WhiteSpace and LineTerminator: what
    [String.prototype.trim] strips and what [\s] matches. *)
Definition is_white_space (c : N) : bool :=
  ((9 <=? c) && (c <=? 13)
   || (c =? 32) || (c =? 160) || (c =? 5760)
   || (8192 <=? c) && (c <=? 8202)
   || (c =? 8232) || (c =? 8233) || (c =? 8239) || (c =? 8287)
   || (c =? 12288) || (c =? 65279))%N.

Fixpoint trim_start (s : js_string) : js_string :=
  match s with
  | [] => []
  | c :: rest => if is_white_space c then trim_start rest else s
  end.

Fixpoint trim_end (s : js_string) : js_string :=
  match s with
  | [] => []
  | c :: rest =>
      match trim_end rest with
      | [] => if is_white_space c then [] else [c]
      | kept => c :: kept
      end
  end.

(** [s.trim()] *)
Definition trim (s : js_string) : js_string := trim_end (trim_start s).

(** A string is truthy when it is not empty. *)
Definition truthy (s : js_string) : bool :=
  match s with
  | [] => false
  | _ :: _ => true
  end.

(** [l.includes(t)] *)
Definition includes (l : list js_string) (t : js_string) : bool :=
  existsb (fun t' => bool_decide (t' = t)) l.

(** ** The tags of [BookForm] *)

(** The ten tags offered by the form, in the order of the source. *)
Definition availableTags : list js_string :=
  [ [1605; 1583; 1740; 1585; 1740; 1578; 32; 1586; 1605; 1575; 1606];
    [1582; 1608; 1583; 1587; 1575; 1586; 1740];
    [1576; 1585; 1606; 1575; 1605; 1607; 8204; 1585; 1740; 1586; 1740];
    [1585; 1608; 1575; 1606; 1588; 1606; 1575; 1587; 1740];
    [1605; 1608; 1601; 1602; 1740; 1578];
    [1575; 1606; 1711; 1740; 1586; 1588; 1740];
    [1705; 1575; 1585; 1570; 1601; 1585; 1740; 1606; 1740];
    [1605; 1583; 1740; 1585; 1740; 1578; 32; 1605; 1575; 1604; 1740];
    [1585; 1607; 1576; 1585; 1740];
    [1575; 1585; 1578; 1576; 1575; 1591; 1575; 1578] ]%N.

(** The state the two tag handlers read and write: [selectedTags], the
    form's [tags] field and the text of the new-tag input. *)
Record tags_state : Type := TagsState {
  selectedTags : list js_string;
  form_tags : list js_string;
  newTag : js_string
}.

(** The two notices [handleAddNewTag] can show. *)
Inductive toast : Set :=
  | enter_a_tag_name
  | tag_already_added.

(** [handleTagSelect(tag)]: a selected tag is removed, another one is
    appended; the form field follows. *)
Definition handleTagSelect (tag : js_string) (st : tags_state) : tags_state :=
  let updatedTags :=
    if includes (selectedTags st) tag
    then filter (fun t => t <> tag) (selectedTags st)
    else selectedTags st ++ [tag] in
  {| selectedTags := updatedTags; form_tags := updatedTags;
     newTag := newTag st |}.

(** [handleAddNewTag()] *)
Definition handleAddNewTag (st : tags_state) : tags_state * option toast :=
  let trimmedTag := trim (newTag st) in
  if truthy trimmedTag
     && negb (includes (selectedTags st) trimmedTag)
     && negb (includes availableTags trimmedTag)
  then
    let updatedTags := selectedTags st ++ [trimmedTag] in
    ({| selectedTags := updatedTags; form_tags := updatedTags;
        newTag := [] |}, None)
  else if negb (truthy trimmedTag) then (st, Some enter_a_tag_name)
  else (st, Some tag_already_added).

(** [setNewTag(e.target.value)] *)
Definition setNewTag (s : js_string) (st : tags_state) : tags_state :=
  {| selectedTags := selectedTags st; form_tags := form_tags st;
     newTag := s |}.

(** The badges of the available tags that are rendered:
    [availableTags.filter(t => !selectedTags.includes(t))]. *)
Definition offered_tags (st : tags_state) : list js_string :=
  List.filter (fun t => negb (includes (selectedTags st) t)) availableTags.

(** What the user can do with the tags: press the remove button of the
    [i]-th selected tag, press the [i]-th offered badge, edit the input,
    or add the input's text (Enter, or the plus button). *)
Inductive tag_event : Type :=
  | remove_selected (i : nat)
  | pick_offered (i : nat)
  | edit_new_tag (s : js_string)
  | add_new_tag.

Definition handle_tag_event (st : tags_state) (e : tag_event) : tags_state :=
  match e with
  | remove_selected i =>
      match nth_error (selectedTags st) i with
      | Some tag => handleTagSelect tag st
      | None => st
      end
  | pick_offered i =>
      match nth_error (offered_tags st) i with
      | Some tag => handleTagSelect tag st
      | None => st
      end
  | edit_new_tag s => setNewTag s st
  | add_new_tag => fst (handleAddNewTag st)
  end.

(** [useState([])], [tags: []] and [useState("")]. *)
Definition initial_tags_state : tags_state :=
  {| selectedTags := []; form_tags := []; newTag := [] |}.

Definition tags_after (events : list tag_event) : tags_state :=
  fold_left handle_tag_event events initial_tags_state.

(** ** The counters of [BookEditor] *)

(** [text.split(/\s+/)]: the pieces between the maximal runs of white
    space.  [in_run] tells that the code unit before was white space;
    [piece] is the piece being read. *)
Fixpoint split_from (in_run : bool) (piece : js_string) (text : js_string)
    : list js_string :=
  match text with
  | [] => [piece]
  | c :: rest =>
      if is_white_space c then
        if in_run then split_from true piece rest
        else piece :: split_from true [] rest
      else split_from false (piece ++ [c]) rest
  end.

Definition split_white_space (text : js_string) : list js_string :=
  split_from false [] text.

(** [pieces.filter(Boolean).length] *)
Definition truthy_pieces (pieces : list js_string) : nat :=
  length (List.filter truthy pieces).

(** [text.split(/\s+/).filter(Boolean).length] *)
Definition count_words (text : js_string) : nat :=
  truthy_pieces (split_white_space text).

(** [Math.ceil(words / 250)].  [words] is the length of an array, below
    2^32; at that size the double nearest to [words / 250] is an integer
    only when the exact quotient is, and otherwise lies between the same
    two integers, so the result is the ceiling of the exact quotient. *)
Definition count_pages (words : nat) : nat :=
  if (words mod 250 =? 0)%nat then (words / 250)%nat
  else S (words / 250)%nat.

(** A tag as the form keeps it: not empty, and without white space at
    either end. *)
Definition trimmed (t : js_string) : Prop := t <> [] /\ trim t = t.

(** What holds of the tags in every state of the form. *)
Definition tags_ok (st : tags_state) : Prop :=
  NoDup (selectedTags st)
  /\ form_tags st = selectedTags st
  /\ Forall trimmed (selectedTags st).

Definition blank (text : js_string) : Prop :=
  Forall (fun c => is_white_space c = true) text.

(** The row a report leaves in place of [OLD]: the reported page, total
    and percentage, [last_read_at] and [updated_at] at the time of the
    report, and [id], [user_id], [book_id] and [created_at] as they were. *)
Definition reported_over (current_page total_pages : Z) (NOW : timestamptz)
    (OLD : ReadingProgress.row) : ReadingProgress.row :=
  {| ReadingProgress.id := ReadingProgress.id OLD;
     ReadingProgress.user_id := ReadingProgress.user_id OLD;
     ReadingProgress.book_id := ReadingProgress.book_id OLD;
     ReadingProgress.current_page :=
       Some (reported_page current_page total_pages);
     ReadingProgress.total_pages := Some total_pages;
     ReadingProgress.progress :=
       Some (hundredths (reported_progress current_page total_pages));
     ReadingProgress.last_read_at := Some NOW;
     ReadingProgress.created_at := ReadingProgress.created_at OLD;
     ReadingProgress.updated_at := Some NOW |}.

(** [UPDATE reading_progress SET progress = v]: the value is rounded to
    the scale of the column as it is assigned. *)
Definition set_progress (v : option numeric) (x : ReadingProgress.row)
    : ReadingProgress.row :=
  {| ReadingProgress.id := ReadingProgress.id x;
     ReadingProgress.user_id := ReadingProgress.user_id x;
     ReadingProgress.book_id := ReadingProgress.book_id x;
     ReadingProgress.current_page := ReadingProgress.current_page x;
     ReadingProgress.total_pages := ReadingProgress.total_pages x;
     ReadingProgress.progress := option_map to_scale_2 v;
     ReadingProgress.last_read_at := ReadingProgress.last_read_at x;
     ReadingProgress.created_at := ReadingProgress.created_at x;
     ReadingProgress.updated_at := ReadingProgress.updated_at x |}.
(** * Facts about the embedding *)

(** ** Three-valued equality *)

Lemma sql_eq_sym {A} `{EqDecision A} (x y : option A) :
  sql_eq x y = sql_eq y x.
Proof.
  destruct x as [a|], y as [b|]; simpl; try reflexivity.
  f_equal. apply bool_decide_ext. split; congruence.
Qed.

Lemma sql_eq_is_true {A} `{EqDecision A} (x y : option A) :
  sql_is_true (sql_eq x y) = true <-> exists a, x = Some a /\ y = Some a.
Proof.
  destruct x as [a|], y as [b|]; simpl.
  - destruct (bool_decide_reflect (a = b)) as [->|Hne]; simpl.
    + split; [eauto|reflexivity].
    + split; [discriminate|]. intros (c & [= ->] & [= ->]). congruence.
  - split; [discriminate|]. intros (c & _ & [=]).
  - split; [discriminate|]. intros (c & [=] & _).
  - split; [discriminate|]. intros (c & [=] & _).
Qed.

Lemma sql_eq_null_r {A} `{EqDecision A} (x : option A) :
  sql_is_true (sql_eq x None) = false.
Proof. destruct x; reflexivity. Qed.

(** ** The error monad *)

Lemma guard_or_ok {E} (e : E) (b : bool) :
  guard_or e b = Ok tt <-> b = true.
Proof. destruct b; simpl; split; congruence. Qed.

Lemma bind_guard_ok {E A} (e : E) (b : bool) (k : unit -> result E A) a :
  (guard_or e b ≫= k) = Ok a <-> b = true /\ k tt = Ok a.
Proof.
  destruct b; simpl; unfold mbind, result_bind; simpl.
  - split; [auto|tauto].
  - split; [discriminate|intros [[=] _]].
Qed.

(** ** Lists without conflicts *)

Section Distinct.
Context {row : Type} (c : row -> row -> bool).
Hypothesis c_sym : forall x y, c x y = c y x.

Lemma distinct_by_middle (l1 l2 : list row) (x : row) :
  distinct_by c (l1 ++ x :: l2)
  = distinct_by c (l1 ++ l2) && negb (existsb (c x) (l1 ++ l2)).
Proof.
  induction l1 as [|a l1 IH]; simpl.
  - apply andb_comm.
  - rewrite IH, !existsb_app. simpl. rewrite (c_sym x a).
    destruct (c a x), (existsb (c a) l1), (existsb (c a) l2),
      (distinct_by c (l1 ++ l2)), (existsb (c x) l1), (existsb (c x) l2);
      reflexivity.
Qed.

Lemma existsb_filter (P : row -> Prop) `{forall x, Decision (P x)}
    (f : row -> bool) (l : list row) :
  existsb f l = false -> existsb f (filter P l) = false.
Proof.
  induction l as [|a l IH]; simpl; [auto|].
  intros [Ha Hl]%orb_false_elim. rewrite filter_cons.
  destruct (decide (P a)); simpl; [rewrite Ha|]; auto.
Qed.

Lemma distinct_by_filter (P : row -> Prop) `{forall x, Decision (P x)}
    (l : list row) :
  distinct_by c l = true -> distinct_by c (filter P l) = true.
Proof.
  induction l as [|a l IH]; simpl; [auto|].
  intros [Ha Hl]%andb_prop. rewrite filter_cons.
  destruct (decide (P a)); simpl; [|auto].
  apply negb_true_iff in Ha.
  rewrite (existsb_filter P _ _ Ha). simpl. auto.
Qed.

(** Among rows without conflicts, those related to a given row with
    itself related are at most one. *)
Lemma distinct_by_at_most_one (P : row -> Prop) `{forall x, Decision (P x)}
    (l : list row) :
  (forall x y, P x -> P y -> c x y = true) ->
  distinct_by c l = true -> (length (filter P l) <= 1)%nat.
Proof.
  intros HP. induction l as [|a l IH]; simpl; [lia|].
  intros [Ha Hl]%andb_prop. rewrite filter_cons.
  destruct (decide (P a)) as [Pa|]; simpl; [|auto].
  apply negb_true_iff in Ha.
  assert (filter P l = []) as ->; [|simpl; lia].
  clear IH Hl. induction l as [|b l IH]; [reflexivity|].
  simpl in Ha. apply orb_false_elim in Ha as [Hab Hl].
  rewrite filter_cons. destruct (decide (P b)) as [Pb|]; [|auto].
  rewrite (HP a b Pa Pb) in Hab. discriminate.
Qed.

End Distinct.

(** ** Statements on one table *)

Section TableFacts.
Context {row : Type} (T : table row).

Lemma same_id_sym (x y : row) : same_id T x y = same_id T y x.
Proof. unfold same_id. rewrite sql_eq_sym. reflexivity. Qed.

Lemma same_user_book_sym (x y : row) :
  same_user_book T x y = same_user_book T y x.
Proof.
  unfold same_user_book.
  rewrite (sql_eq_sym (col_user_id T x)), (sql_eq_sym (col_book_id T x)).
  reflexivity.
Qed.

Lemma check_new_row_ok (r : role) (x : row) (others : list row) :
  check_new_row T r x others = Ok tt
  <-> policy T r x = true /\ not_null T x = true
      /\ pk_conflict T x others = false
      /\ user_book_conflict T x others = false.
Proof.
  unfold check_new_row.
  rewrite !bind_guard_ok, guard_or_ok, !negb_true_iff. tauto.
Qed.

Lemma bind_check_ok {A} (r : role) (x : row) (others : list row)
    (k : unit -> result sqlstate A) (a : A) :
  (check_new_row T r x others ≫= k) = Ok a
  <-> check_new_row T r x others = Ok tt /\ k tt = Ok a.
Proof.
  destruct (check_new_row T r x others) as [[]|e];
    unfold mbind, result_bind; simpl.
  - tauto.
  - split; [discriminate|intros [[=] _]].
Qed.

Lemma insert_row_ok (r : role) (users books : gset uuid) (x : row)
    (rows rows' : list row) :
  insert_row T r users books x rows = Ok rows'
  <-> well_typed T x = true /\ check_new_row T r x rows = Ok tt
      /\ fk_ok T users books x = true /\ rows' = rows ++ [x].
Proof.
  unfold insert_row.
  rewrite bind_guard_ok, bind_check_ok, bind_guard_ok.
  split.
  - intros (? & ? & ? & [= <-]). auto.
  - intros (? & ? & ? & ->). auto.
Qed.

Lemma keys_ok_middle (l1 l2 : list row) (x : row) :
  keys_ok T (l1 ++ x :: l2)
  = keys_ok T (l1 ++ l2)
    && negb (pk_conflict T x (l1 ++ l2))
    && negb (user_book_conflict T x (l1 ++ l2)).
Proof.
  unfold keys_ok, pk_conflict, user_book_conflict.
  rewrite (distinct_by_middle _ same_id_sym).
  rewrite (distinct_by_middle _ same_user_book_sym).
  destruct (unique_user_book T), (distinct_by (same_id T) (l1 ++ l2)),
    (existsb (same_id T x) (l1 ++ l2)),
    (distinct_by (same_user_book T) (l1 ++ l2)),
    (existsb (same_user_book T x) (l1 ++ l2)); reflexivity.
Qed.

Lemma keys_ok_snoc (l : list row) (x : row) :
  keys_ok T (l ++ [x])
  = keys_ok T l && negb (pk_conflict T x l)
    && negb (user_book_conflict T x l).
Proof. rewrite keys_ok_middle, app_nil_r. reflexivity. Qed.

Lemma keys_ok_filter (P : row -> Prop) `{forall x, Decision (P x)}
    (l : list row) :
  keys_ok T l = true -> keys_ok T (filter P l) = true.
Proof.
  unfold keys_ok. intros [Hid Hub]%andb_prop.
  rewrite (distinct_by_filter _ P _ Hid). simpl.
  destruct (unique_user_book T); simpl in *; [|reflexivity].
  apply distinct_by_filter; assumption.
Qed.

Lemma columns_ok_middle (l1 l2 : list row) (x : row) :
  columns_ok T (l1 ++ x :: l2)
  = columns_ok T (l1 ++ l2) && (well_typed T x && not_null T x).
Proof.
  unfold columns_ok. rewrite !forallb_app. simpl.
  destruct (forallb _ l1), (forallb _ l2), (well_typed T x), (not_null T x);
    reflexivity.
Qed.

Lemma forallb_filter (P : row -> Prop) `{forall x, Decision (P x)}
    (f : row -> bool) (l : list row) :
  forallb f l = true -> forallb f (filter P l) = true.
Proof.
  rewrite !forallb_forall. intros Hl x Hx. apply Hl.
  apply list_elem_of_In in Hx. apply list_elem_of_In.
  apply list_elem_of_filter in Hx. tauto.
Qed.

(** *** INSERT *)

Lemma insert_row_table_ok (r : role) (users books : gset uuid) (x : row)
    (rows rows' : list row) :
  table_ok T users books rows = true ->
  insert_row T r users books x rows = Ok rows' ->
  table_ok T users books rows' = true.
Proof.
  intros Hok (Hty & Hchk & Hfk & ->)%insert_row_ok.
  apply check_new_row_ok in Hchk as (_ & Hnn & Hpk & Hub).
  unfold table_ok in *.
  apply andb_prop in Hok as [[Hk Hc]%andb_prop Hr].
  rewrite keys_ok_snoc, Hk, Hpk, Hub. simpl.
  rewrite <- (app_nil_r (rows ++ [x])), <- app_assoc. simpl.
  rewrite columns_ok_middle, app_nil_r, Hc, Hty, Hnn. simpl.
  unfold references_ok in *. rewrite forallb_app, Hr. simpl.
  rewrite Hfk. reflexivity.
Qed.

(** *** UPDATE *)

Lemma update_loop_is_map (r : role) (assign : row -> row)
    (cond : row -> bool) (now : timestamptz) (todo done rows' : list row) :
  update_loop T r assign cond now done todo = Ok rows' ->
  rows' = done ++ map (updated T r assign cond now) todo.
Proof.
  revert done. induction todo as [|OLD rest IH]; simpl; intros done H.
  - injection H as <-. rewrite app_nil_r. reflexivity.
  - unfold updated at 1. destruct (targeted T r cond OLD).
    + apply bind_guard_ok in H as [_ H].
      apply bind_check_ok in H as [_ H].
      apply IH in H. rewrite <- app_assoc in H. exact H.
    + apply IH in H. rewrite <- app_assoc in H. exact H.
Qed.

Lemma update_loop_keeps (r : role) (assign : row -> row)
    (cond : row -> bool) (now : timestamptz) (todo done rows' : list row) :
  keys_ok T (done ++ todo) = true ->
  columns_ok T (done ++ todo) = true ->
  update_loop T r assign cond now done todo = Ok rows' ->
  keys_ok T rows' = true /\ columns_ok T rows' = true.
Proof.
  revert done. induction todo as [|OLD rest IH]; simpl; intros done Hk Hc H.
  - injection H as <-. rewrite app_nil_r in *. auto.
  - destruct (targeted T r cond OLD).
    + apply bind_guard_ok in H as [Hty H].
      apply bind_check_ok in H as [Hchk H].
      apply check_new_row_ok in Hchk as (_ & Hnn & Hpk & Hub).
      apply IH in H; [exact H| |]; rewrite <- app_assoc; simpl.
      * rewrite keys_ok_middle in Hk |- *.
        apply andb_prop in Hk as [[-> _]%andb_prop _].
        rewrite Hpk, Hub. reflexivity.
      * rewrite columns_ok_middle in Hc |- *.
        apply andb_prop in Hc as [-> _]. rewrite Hty, Hnn. reflexivity.
    + apply IH in H; [exact H| |]; rewrite <- app_assoc; assumption.
Qed.

Lemma references_eq_ok (keys : gset uuid) (v w : option uuid) :
  references keys w = true ->
  bool_decide (v = w) || references keys v = true ->
  references keys v = true.
Proof.
  intros Hw [Heq|Hv]%orb_prop; [|exact Hv].
  apply bool_decide_eq_true in Heq. congruence.
Qed.

Lemma update_rows_ok (r : role) (users books : gset uuid)
    (assign : row -> row) (cond : row -> bool) (now : timestamptz)
    (rows rows' : list row) :
  update_rows T r users books assign cond now rows = Ok rows'
  <-> update_loop T r assign cond now [] rows = Ok rows'
      /\ forallb (fk_ok_after_update T users books assign now)
                 (filter (fun x => targeted T r cond x = true) rows) = true.
Proof.
  unfold update_rows.
  destruct (update_loop T r assign cond now [] rows) as [l|e];
    unfold mbind at 1, result_bind at 1; simpl.
  - rewrite bind_guard_ok. split.
    + intros [? [= <-]]. auto.
    + intros [[= <-] ?]. auto.
  - split; [discriminate|intros [[=] _]].
Qed.

Lemma update_rows_table_ok (r : role) (users books : gset uuid)
    (assign : row -> row) (cond : row -> bool) (now : timestamptz)
    (rows rows' : list row) :
  table_ok T users books rows = true ->
  update_rows T r users books assign cond now rows = Ok rows' ->
  table_ok T users books rows' = true.
Proof.
  intros Hok [Hloop Hfk]%update_rows_ok. unfold table_ok in *.
  apply andb_prop in Hok as [[Hk Hc]%andb_prop Hr].
  destruct (update_loop_keeps _ _ _ _ _ [] _ Hk Hc Hloop) as [-> ->].
  simpl. apply update_loop_is_map in Hloop as ->. simpl.
  unfold references_ok in *. rewrite forallb_forall in *.
  intros y (x & <- & Hx)%in_map_iff. specialize (Hr x Hx).
  unfold updated. destruct (targeted T r cond x) eqn:Htg; [|exact Hr].
  assert (Hin : In x (filter (fun x => targeted T r cond x = true) rows)).
  { apply list_elem_of_In, list_elem_of_filter.
    split; [exact Htg|apply list_elem_of_In, Hx]. }
  specialize (Hfk x Hin). unfold fk_ok_after_update in Hfk.
  unfold fk_ok in *. apply andb_prop in Hfk as [Hu Hb].
  apply andb_prop in Hr as [Hru Hrb].
  rewrite (references_eq_ok _ _ _ Hru Hu), (references_eq_ok _ _ _ Hrb Hb).
  reflexivity.
Qed.

End TableFacts.

(** *** DELETE and the referenced tables *)

Section ReferenceFacts.
Context {row : Type} (T : table row).

Lemma table_ok_filter (P : row -> Prop) `{forall x, Decision (P x)}
    (users books : gset uuid) (rows : list row) :
  table_ok T users books rows = true ->
  table_ok T users books (filter P rows) = true.
Proof.
  unfold table_ok, columns_ok, references_ok.
  intros [[Hk Hc]%andb_prop Hr]%andb_prop.
  rewrite (keys_ok_filter T P _ Hk), (forallb_filter P _ _ Hc),
    (forallb_filter P _ _ Hr).
  reflexivity.
Qed.

Lemma references_mono (keys keys' : gset uuid) (v : option uuid) :
  keys ⊆ keys' -> references keys v = true -> references keys' v = true.
Proof.
  destruct v as [k|]; simpl; [|auto].
  rewrite !bool_decide_eq_true. set_solver.
Qed.

Lemma table_ok_mono (users users' books books' : gset uuid)
    (rows : list row) :
  users ⊆ users' -> books ⊆ books' ->
  table_ok T users books rows = true ->
  table_ok T users' books' rows = true.
Proof.
  intros Hu Hb. unfold table_ok, references_ok.
  intros [-> Hr]%andb_prop. simpl.
  rewrite forallb_forall in *. intros x Hx. specialize (Hr x Hx).
  unfold fk_ok in *. apply andb_prop in Hr as [H1 H2].
  rewrite (references_mono _ _ _ Hu H1), (references_mono _ _ _ Hb H2).
  reflexivity.
Qed.

Lemma references_remove (keys : gset uuid) (k : uuid) (v : option uuid) :
  v <> Some k -> references keys v = true ->
  references (keys ∖ {[k]}) v = true.
Proof.
  destruct v as [k'|]; simpl; [|auto].
  rewrite !bool_decide_eq_true. intros Hne Hin.
  apply elem_of_difference. split; [exact Hin|].
  rewrite elem_of_singleton. congruence.
Qed.

Lemma cascade_user_gone (u : uuid) (rows : list row) (x : row) :
  x ∈ cascade_user T u rows <-> x ∈ rows /\ col_user_id T x <> Some u.
Proof. unfold cascade_user. rewrite list_elem_of_filter. tauto. Qed.

Lemma cascade_book_gone (b : uuid) (rows : list row) (x : row) :
  x ∈ cascade_book T b rows <-> x ∈ rows /\ col_book_id T x <> Some b.
Proof. unfold cascade_book. rewrite list_elem_of_filter. tauto. Qed.

Lemma cascade_user_table_ok (u : uuid) (users books : gset uuid)
    (rows : list row) :
  table_ok T users books rows = true ->
  table_ok T (users ∖ {[u]}) books (cascade_user T u rows) = true.
Proof.
  intros Hok.
  apply (table_ok_filter (fun x => col_user_id T x <> Some u)) in Hok.
  fold (cascade_user T u rows) in Hok.
  unfold table_ok, references_ok in *.
  apply andb_prop in Hok as [-> Hr]. simpl.
  rewrite forallb_forall in *. intros x Hx. specialize (Hr x Hx).
  apply list_elem_of_In, cascade_user_gone in Hx as [_ Hne].
  unfold fk_ok in *. apply andb_prop in Hr as [H1 ->].
  rewrite (references_remove _ _ _ Hne H1). reflexivity.
Qed.

Lemma cascade_book_table_ok (b : uuid) (users books : gset uuid)
    (rows : list row) :
  table_ok T users books rows = true ->
  table_ok T users (books ∖ {[b]}) (cascade_book T b rows) = true.
Proof.
  intros Hok.
  apply (table_ok_filter (fun x => col_book_id T x <> Some b)) in Hok.
  fold (cascade_book T b rows) in Hok.
  unfold table_ok, references_ok in *.
  apply andb_prop in Hok as [-> Hr]. simpl.
  rewrite forallb_forall in *. intros x Hx. specialize (Hr x Hx).
  apply list_elem_of_In, cascade_book_gone in Hx as [_ Hne].
  unfold fk_ok in *. apply andb_prop in Hr as [-> H2].
  rewrite (references_remove _ _ _ Hne H2). reflexivity.
Qed.

End ReferenceFacts.

(** ** Every reachable state is consistent *)

Lemma bind_ok {E A B} (m : result E A) (k : A -> result E B) (b : B) :
  (m ≫= k) = Ok b <-> exists a, m = Ok a /\ k a = Ok b.
Proof.
  destruct m as [a|e]; unfold mbind, result_bind; simpl.
  - split; [eauto|]. intros (a' & [= <-] & H). exact H.
  - split; [discriminate|]. intros (a' & [=] & _).
Qed.

Lemma consistent_split (db : database) :
  consistent db = true
  <-> table_ok ReadingProgress.schema (auth_users db) (books db)
        (reading_progress db) = true
      /\ table_ok ReadingSession.schema (auth_users db) (books db)
           (reading_sessions db) = true.
Proof. unfold consistent. apply andb_true_iff. Qed.

Lemma insert_reading_progress_consistent r c g NOW db db' :
  consistent db = true ->
  insert_reading_progress r c g NOW db = Ok db' ->
  consistent db' = true.
Proof.
  rewrite !consistent_split. intros [Hp Hs].
  unfold insert_reading_progress. intros (rows & Hins & [= <-])%bind_ok.
  simpl. split; [|exact Hs]. eapply insert_row_table_ok; eassumption.
Qed.

Lemma update_reading_progress_consistent r assign cond NOW db db' :
  consistent db = true ->
  update_reading_progress r assign cond NOW db = Ok db' ->
  consistent db' = true.
Proof.
  rewrite !consistent_split. intros [Hp Hs].
  unfold update_reading_progress. intros (rows & Hupd & [= <-])%bind_ok.
  simpl. split; [|exact Hs]. eapply update_rows_table_ok; eassumption.
Qed.

Lemma insert_reading_sessions_consistent r c g NOW db db' :
  consistent db = true ->
  insert_reading_sessions r c g NOW db = Ok db' ->
  consistent db' = true.
Proof.
  rewrite !consistent_split. intros [Hp Hs].
  unfold insert_reading_sessions. intros (rows & Hins & [= <-])%bind_ok.
  simpl. split; [exact Hp|]. eapply insert_row_table_ok; eassumption.
Qed.

Lemma update_reading_sessions_consistent r assign cond NOW db db' :
  consistent db = true ->
  update_reading_sessions r assign cond NOW db = Ok db' ->
  consistent db' = true.
Proof.
  rewrite !consistent_split. intros [Hp Hs].
  unfold update_reading_sessions. intros (rows & Hupd & [= <-])%bind_ok.
  simpl. split; [exact Hp|]. eapply update_rows_table_ok; eassumption.
Qed.

Lemma upsert_reading_progress_consistent r c g NOW db db' :
  consistent db = true ->
  upsert_reading_progress r c g NOW db = Ok db' ->
  consistent db' = true.
Proof.
  intros Hdb. unfold upsert_reading_progress.
  rewrite !bind_guard_ok. intros (_ & _ & _ & H).
  destruct (existsb _ _).
  - eapply update_reading_progress_consistent; eassumption.
  - eapply insert_reading_progress_consistent; eassumption.
Qed.

Lemma execute_consistent (s : statement) (db : database) :
  consistent db = true -> consistent (execute s db) = true.
Proof.
  intros Hdb. destruct s; simpl.
  - unfold insert_user. destruct (bool_decide _); simpl; [exact Hdb|].
    apply consistent_split in Hdb as [Hp Hs]. apply consistent_split. simpl.
    split; eapply table_ok_mono; try eassumption; set_solver.
  - apply consistent_split in Hdb as [Hp Hs]. apply consistent_split. simpl.
    split; apply cascade_user_table_ok; assumption.
  - unfold insert_book. destruct (bool_decide _); simpl; [exact Hdb|].
    apply consistent_split in Hdb as [Hp Hs]. apply consistent_split. simpl.
    split; eapply table_ok_mono; try eassumption; set_solver.
  - apply consistent_split in Hdb as [Hp Hs]. apply consistent_split. simpl.
    split; apply cascade_book_table_ok; assumption.
  - destruct (insert_reading_progress r c gen_random_uuid NOW db) eqn:H;
      simpl; [|exact Hdb].
    eapply insert_reading_progress_consistent; eassumption.
  - destruct (update_reading_progress r assign cond NOW db) eqn:H;
      simpl; [|exact Hdb].
    eapply update_reading_progress_consistent; eassumption.
  - apply consistent_split in Hdb as [Hp Hs]. apply consistent_split. simpl.
    split; [|exact Hs]. unfold delete_rows. apply table_ok_filter, Hp.
  - destruct (insert_reading_sessions r c gen_random_uuid NOW db) eqn:H;
      simpl; [|exact Hdb].
    eapply insert_reading_sessions_consistent; eassumption.
  - destruct (update_reading_sessions r assign cond NOW db) eqn:H;
      simpl; [|exact Hdb].
    eapply update_reading_sessions_consistent; eassumption.
  - apply consistent_split in Hdb as [Hp Hs]. apply consistent_split. simpl.
    split; [exact Hp|]. unfold delete_rows. apply table_ok_filter, Hs.
  - unfold reportProgress. destruct (strict && _); simpl; [exact Hdb|].
    destruct (upsert_reading_progress _ _ _ _ _) eqn:H; simpl; [|exact Hdb].
    eapply upsert_reading_progress_consistent; eassumption.
  - unfold openSession.
    destruct (insert_reading_sessions _ _ _ _ _) eqn:H; simpl; [|exact Hdb].
    eapply insert_reading_sessions_consistent; eassumption.
Qed.

Lemma run_consistent (history : list statement) (db : database) :
  consistent db = true -> consistent (run history db) = true.
Proof.
  revert db. induction history as [|s history IH]; simpl; intros db Hdb.
  - exact Hdb.
  - apply IH, execute_consistent, Hdb.
Qed.

Lemma after_consistent (history : list statement) :
  consistent (after history) = true.
Proof. apply run_consistent. reflexivity. Qed.

(** ** Updates that leave the key columns alone *)

Section SameKeys.
Context {row : Type} (T : table row).

Lemma same_keys_conflicts (x' x : row) (others : list row) :
  same_keys T x' x ->
  pk_conflict T x' others = pk_conflict T x others
  /\ user_book_conflict T x' others = user_book_conflict T x others.
Proof.
  intros (Hid & Hu & Hb).
  unfold pk_conflict, user_book_conflict, same_id, same_user_book.
  rewrite Hid, Hu, Hb. auto.
Qed.

Lemma same_keys_policy (r : role) (x' x : row) :
  same_keys T x' x -> policy T r x' = policy T r x.
Proof. intros (_ & Hu & _). unfold policy. rewrite Hu. reflexivity. Qed.

(** An UPDATE that keeps the key columns and stores well-typed rows
    without NULL in a NOT NULL column cannot fail on a table whose keys
    are in order. *)
Lemma update_loop_same_keys (r : role) (assign : row -> row)
    (cond : row -> bool) (now : timestamptz) (todo done : list row) :
  keys_ok T (done ++ todo) = true ->
  (forall x, x ∈ todo -> targeted T r cond x = true ->
     same_keys T (new_version T assign now x) x
     /\ well_typed T (new_version T assign now x) = true
     /\ not_null T (new_version T assign now x) = true) ->
  update_loop T r assign cond now done todo
  = Ok (done ++ map (updated T r assign cond now) todo).
Proof.
  revert done. induction todo as [|OLD rest IH]; simpl; intros done Hk Hnew.
  - rewrite app_nil_r. reflexivity.
  - unfold updated at 1.
    destruct (targeted T r cond OLD) eqn:Htg.
    + destruct (Hnew OLD) as (Hsame & Hty & Hnn);
        [apply list_elem_of_here|exact Htg|].
      rewrite keys_ok_middle in Hk.
      apply andb_prop in Hk as [[Hk Hpk%negb_true_iff]%andb_prop
                                  Hub%negb_true_iff].
      destruct (same_keys_conflicts _ _ (done ++ rest) Hsame) as [Epk Eub].
      assert (Hchk : check_new_row T r (new_version T assign now OLD)
                       (done ++ rest) = Ok tt).
      { apply check_new_row_ok.
        rewrite (same_keys_policy r _ _ Hsame), Epk, Eub.
        unfold targeted in Htg. apply andb_prop in Htg as [-> _]. auto. }
      rewrite Hty, Hchk. simpl. unfold mbind, result_bind. simpl.
      rewrite IH, <- app_assoc; [reflexivity| |].
      * rewrite <- app_assoc. simpl.
        rewrite keys_ok_middle, Hk, Epk, Eub, Hpk, Hub. reflexivity.
      * intros x Hx. apply Hnew. apply list_elem_of_further, Hx.
    + rewrite IH, <- app_assoc; [reflexivity| |].
      * rewrite <- app_assoc. exact Hk.
      * intros x Hx. apply Hnew. apply list_elem_of_further, Hx.
Qed.

Lemma update_rows_same_keys (r : role) (users books : gset uuid)
    (assign : row -> row) (cond : row -> bool) (now : timestamptz)
    (rows : list row) :
  keys_ok T rows = true ->
  (forall x, x ∈ rows -> targeted T r cond x = true ->
     same_keys T (new_version T assign now x) x
     /\ well_typed T (new_version T assign now x) = true
     /\ not_null T (new_version T assign now x) = true) ->
  update_rows T r users books assign cond now rows
  = Ok (map (updated T r assign cond now) rows).
Proof.
  intros Hk Hnew. unfold update_rows.
  rewrite (update_loop_same_keys r assign cond now rows [] Hk Hnew).
  unfold mbind, result_bind. simpl.
  assert (forallb (fk_ok_after_update T users books assign now)
            (filter (fun x => targeted T r cond x = true) rows) = true)
    as ->; [|reflexivity].
  apply forallb_forall. intros x Hx.
  apply list_elem_of_In, list_elem_of_filter in Hx as [Htg Hx].
  destruct (Hnew x Hx Htg) as ((_ & Hu & Hb) & _).
  unfold fk_ok_after_update.
  rewrite (bool_decide_eq_true_2 _ Hu), (bool_decide_eq_true_2 _ Hb).
  reflexivity.
Qed.

End SameKeys.

(** ** The rows of a (user, book) pair *)

Lemma run_snoc (history : list statement) (s : statement) (db : database) :
  run (history ++ [s]) db = execute s (run history db).
Proof. unfold run. rewrite fold_left_app. reflexivity. Qed.

Lemma after_snoc (history : list statement) (s : statement) :
  after (history ++ [s]) = execute s (after history).
Proof. apply run_snoc. Qed.

Lemma same_user_book_progress (x y : ReadingProgress.row) (u b : uuid) :
  ReadingProgress.user_id x = Some u ->
  ReadingProgress.book_id x = Some b ->
  same_user_book ReadingProgress.schema x y = true
  <-> ReadingProgress.user_id y = Some u /\ ReadingProgress.book_id y = Some b.
Proof.
  intros Hu Hb. unfold same_user_book. simpl. rewrite Hu, Hb.
  rewrite andb_true_iff, !sql_eq_is_true. split.
  - intros [(a & [= <-] & ->) (c & [= <-] & ->)]. auto.
  - intros [-> ->]. split; eauto.
Qed.

Lemma progress_of_at_most_one (u b : uuid) (db : database) :
  consistent db = true -> (length (progress_of u b db) <= 1)%nat.
Proof.
  intros [Hp _]%consistent_split. unfold table_ok, keys_ok in Hp.
  apply andb_prop in Hp as [[[_ Hub]%andb_prop _]%andb_prop _].
  simpl in Hub. unfold progress_of.
  apply (distinct_by_at_most_one (same_user_book ReadingProgress.schema));
    [|exact Hub].
  intros x y [Hxu Hxb] Hy.
  apply (same_user_book_progress x y u b Hxu Hxb), Hy.
Qed.

Lemma progress_of_conflict (x : ReadingProgress.row) (u b : uuid)
    (db : database) :
  ReadingProgress.user_id x = Some u ->
  ReadingProgress.book_id x = Some b ->
  existsb (same_user_book ReadingProgress.schema x) (reading_progress db)
  = negb (bool_decide (progress_of u b db = [])).
Proof.
  intros Hu Hb. unfold progress_of.
  induction (reading_progress db) as [|y rows IH]; simpl; [reflexivity|].
  rewrite filter_cons, IH.
  destruct (decide _) as [Hy|Hy].
  - apply (same_user_book_progress x y u b Hu Hb) in Hy as ->. reflexivity.
  - destruct (same_user_book ReadingProgress.schema x y) eqn:E;
      [|reflexivity].
    apply (same_user_book_progress x y u b Hu Hb) in E. contradiction.
Qed.

(** The upsert of a report takes the DO UPDATE path exactly when the
    pair has a row, and then replaces rows in place. *)
Lemma upsert_report_existing r u b cp tp g NOW db db' :
  progress_of u b db <> [] ->
  upsert_reading_progress r (reported_columns u b cp tp NOW) g NOW db = Ok db' ->
  let EXCLUDED :=
    ReadingProgress.with_defaults g NOW (reported_columns u b cp tp NOW) in
  db' = with_reading_progress
          (map (updated ReadingProgress.schema r (do_update_set EXCLUDED)
                  (same_user_book ReadingProgress.schema EXCLUDED) NOW)
               (reading_progress db)) db.
Proof.
  intros Hne. unfold upsert_reading_progress.
  rewrite !bind_guard_ok. intros (_ & _ & _ & H).
  rewrite (progress_of_conflict _ u b db) in H by reflexivity.
  rewrite bool_decide_eq_false_2 in H by exact Hne. simpl in H.
  unfold update_reading_progress in H.
  apply bind_ok in H as (rows & Hupd & [= <-]).
  apply update_rows_ok in Hupd as [Hloop _].
  apply update_loop_is_map in Hloop as ->. reflexivity.
Qed.

Lemma updated_report_keys r EXCLUDED cond NOW (x : ReadingProgress.row) :
  let x' := updated ReadingProgress.schema r (do_update_set EXCLUDED)
              cond NOW x in
  ReadingProgress.id x' = ReadingProgress.id x
  /\ ReadingProgress.user_id x' = ReadingProgress.user_id x
  /\ ReadingProgress.book_id x' = ReadingProgress.book_id x
  /\ ReadingProgress.created_at x' = ReadingProgress.created_at x.
Proof.
  unfold updated. destruct (targeted _ _ _ _); simpl; auto.
Qed.

Lemma progress_of_map (f : ReadingProgress.row -> ReadingProgress.row)
    (u b : uuid) (db : database) :
  (forall x, ReadingProgress.user_id (f x) = ReadingProgress.user_id x
             /\ ReadingProgress.book_id (f x) = ReadingProgress.book_id x) ->
  progress_of u b (with_reading_progress (map f (reading_progress db)) db)
  = map f (progress_of u b db).
Proof.
  intros Hf. unfold progress_of. simpl.
  induction (reading_progress db) as [|x rows IH]; simpl; [reflexivity|].
  rewrite !filter_cons, IH. destruct (Hf x) as [-> ->].
  destruct (decide _); reflexivity.
Qed.

(** ** Reports *)

Lemma clamp_bounds (lo hi x : Z) : lo <= hi -> lo <= clamp lo hi x <= hi.
Proof. unfold clamp. lia. Qed.

Lemma percent_nearest (c t : Z) :
  0 < t -> 0 <= c <= t ->
  0 <= percent c t <= 10000
  /\ 2 * Z.abs (percent c t * t - 10000 * c) <= t.
Proof.
  intros Ht Hc. unfold percent.
  pose proof (Z.div_mod (2 * (c * 10000) + t) (2 * t) ltac:(lia)) as Hdm.
  pose proof (Z.mod_pos_bound (2 * (c * 10000) + t) (2 * t) ltac:(lia)) as Hm.
  set (q := (2 * (c * 10000) + t) / (2 * t)) in *.
  set (m := (2 * (c * 10000) + t) mod (2 * t)) in *.
  split; [split|]; nia.
Qed.

Lemma reported_progress_nearest (cp tp : Z) :
  0 < tp ->
  reported_progress cp tp = percent (reported_page cp tp) tp
  /\ 0 <= reported_progress cp tp <= 10000
  /\ 2 * Z.abs (reported_progress cp tp * tp - 10000 * reported_page cp tp)
     <= tp.
Proof.
  intros Ht. unfold reported_progress.
  destruct (Z.eqb_spec tp 0) as [->|_]; [lia|].
  pose proof (clamp_bounds 0 tp cp ltac:(lia)) as Hc.
  fold (reported_page cp tp) in Hc.
  destruct (percent_nearest (reported_page cp tp) tp Ht Hc) as [Hp Hn].
  assert (clamp 0 10000 (percent (reported_page cp tp) tp)
          = percent (reported_page cp tp) tp) as ->.
  { unfold clamp. lia. }
  auto.
Qed.

Lemma fresh_id_no_conflict {row : Type} (T : table row) (x : row) (g : uuid)
    (rows : list row) :
  col_id T x = Some g ->
  Some g ∉ map (col_id T) rows ->
  pk_conflict T x rows = false.
Proof.
  intros Hx Hfresh. unfold pk_conflict.
  destruct (existsb (same_id T x) rows) eqn:E; [|reflexivity].
  apply existsb_exists in E as (y & Hy & Hsame).
  unfold same_id in Hsame. rewrite Hx in Hsame.
  apply sql_eq_is_true in Hsame as (a & [= <-] & Hya).
  exfalso. apply Hfresh. rewrite <- Hya.
  apply list_elem_of_In, in_map, Hy.
Qed.

Lemma table_ok_row {row : Type} (T : table row) (users books : gset uuid)
    (rows : list row) (x : row) :
  table_ok T users books rows = true -> x ∈ rows ->
  well_typed T x = true /\ not_null T x = true
  /\ fk_ok T users books x = true.
Proof.
  unfold table_ok, columns_ok, references_ok.
  intros [[_ Hc]%andb_prop Hr]%andb_prop Hx%list_elem_of_In.
  rewrite forallb_forall in Hc, Hr.
  specialize (Hc x Hx). specialize (Hr x Hx).
  apply andb_prop in Hc. tauto.
Qed.

Lemma may_write_policy {row : Type} (T : table row) (r : role) (u : uuid)
    (x : row) :
  may_write r u -> col_user_id T x = Some u -> policy T r x = true.
Proof.
  intros [->| ->] Hx; simpl; [reflexivity|].
  rewrite Hx. simpl. rewrite bool_decide_eq_true_2; reflexivity.
Qed.

Lemma insert_row_succeeds {row : Type} (T : table row) (r : role)
    (users books : gset uuid) (x : row) (rows : list row) :
  well_typed T x = true -> policy T r x = true -> not_null T x = true ->
  pk_conflict T x rows = false -> user_book_conflict T x rows = false ->
  fk_ok T users books x = true ->
  insert_row T r users books x rows = Ok (rows ++ [x]).
Proof.
  intros. apply insert_row_ok. rewrite check_new_row_ok. auto 10.
Qed.

Lemma report_succeeds (db : database) (r : role) (u b : uuid) (cp tp : Z)
    (g : uuid) (NOW : timestamptz) :
  consistent db = true ->
  may_write r u ->
  u ∈ auth_users db -> b ∈ books db ->
  0 < tp <= int4_max ->
  (progress_of u b db = [] ->
   Some g ∉ map ReadingProgress.id (reading_progress db)) ->
  exists db' x,
    upsert_reading_progress r (reported_columns u b cp tp NOW) g NOW db
    = Ok db'
    /\ progress_of u b db' = [x]
    /\ ReadingProgress.current_page x = Some (reported_page cp tp)
    /\ ReadingProgress.total_pages x = Some tp
    /\ ReadingProgress.progress x = Some (hundredths (reported_progress cp tp))
    /\ ReadingProgress.last_read_at x = Some NOW
    /\ ReadingProgress.updated_at x = Some NOW.
Proof.
  intros Hdb Hr Hu Hb Htp Hfresh.
  pose proof (progress_of_at_most_one u b db Hdb) as Hone.
  apply consistent_split in Hdb as [Hp _].
  destruct (reported_progress_nearest cp tp ltac:(lia)) as (_ & Hpct & _).
  pose proof (clamp_bounds 0 tp cp ltac:(lia)) as Hpage.
  fold (reported_page cp tp) in Hpage.
  set (EX := ReadingProgress.with_defaults g NOW
               (reported_columns u b cp tp NOW)).
  assert (Hty : ReadingProgress.types_ok EX = true).
  { unfold ReadingProgress.types_ok, is_int4, is_decimal_5_2, int4_min,
      int4_max in *. simpl.
    rewrite !andb_true_iff, !Z.leb_le. lia. }
  assert (Hpol : policy ReadingProgress.schema r EX = true).
  { apply (may_write_policy ReadingProgress.schema r u); [exact Hr|reflexivity]. }
  unfold upsert_reading_progress. fold EX.
  rewrite Hty, Hpol. simpl.
  rewrite (progress_of_conflict EX u b db) by reflexivity.
  destruct (progress_of u b db) as [|y rest] eqn:Hof.
  - (* no row for the pair: the INSERT path *)
    simpl. exists (with_reading_progress (reading_progress db ++ [EX]) db), EX.
    split; [|split; [|repeat split]].
    + unfold insert_reading_progress. fold EX.
      assert (insert_row ReadingProgress.schema r (auth_users db) (books db)
                EX (reading_progress db) = Ok (reading_progress db ++ [EX]))
        as ->; [|reflexivity].
      apply insert_row_ok. split; [exact Hty|]. split; [|split; [|reflexivity]].
      * apply check_new_row_ok. split; [exact Hpol|]. split; [reflexivity|].
        split.
        -- apply (fresh_id_no_conflict _ _ g); [reflexivity|].
           apply Hfresh. reflexivity.
        -- unfold user_book_conflict. simpl.
           rewrite (progress_of_conflict EX u b db), Hof by reflexivity.
           reflexivity.
      * unfold fk_ok. simpl.
        apply andb_true_intro.
        split; apply bool_decide_eq_true_2; assumption.
    + unfold progress_of in *. simpl. rewrite filter_app, Hof. simpl.
      rewrite filter_cons. simpl.
      destruct (decide _) as [_|Hn]; [reflexivity|]. exfalso. apply Hn. auto.
  - (* the pair has its row: the DO UPDATE path *)
    simpl.
    destruct rest; [|simpl in Hone; lia].
    assert (Hy : y ∈ progress_of u b db) by (rewrite Hof; apply list_elem_of_here).
    unfold progress_of in Hy. apply list_elem_of_filter in Hy as [[Hyu Hyb] Hy].
    set (f := updated ReadingProgress.schema r (do_update_set EX)
                (same_user_book ReadingProgress.schema EX) NOW).
    exists (with_reading_progress (map f (reading_progress db)) db), (f y).
    assert (Htg : targeted ReadingProgress.schema r
                    (same_user_book ReadingProgress.schema EX) y = true).
    { unfold targeted.
      rewrite (may_write_policy ReadingProgress.schema r u y Hr Hyu). simpl.
      apply (same_user_book_progress EX y u b); auto. }
    split; [|split].
    + unfold update_reading_progress.
      rewrite (update_rows_same_keys ReadingProgress.schema); [reflexivity| |].
      * unfold table_ok in Hp.
        apply andb_prop in Hp as [[Hk _]%andb_prop _]. exact Hk.
      * intros x Hx _.
        destruct (table_ok_row _ _ _ _ x Hp Hx) as (_ & Hnn & _).
        split; [repeat split|]. split.
        -- simpl. unfold ReadingProgress.types_ok in Hty |- *. exact Hty.
        -- simpl in *. unfold ReadingProgress.not_null_ok in *. simpl.
           apply andb_prop in Hnn as [[[-> _]%andb_prop _]%andb_prop _].
           reflexivity.
    + rewrite progress_of_map, Hof; [reflexivity|].
      intros x. pose proof (updated_report_keys r EX
        (same_user_book ReadingProgress.schema EX) NOW x) as H.
      simpl in H. tauto.
    + unfold f, updated. rewrite Htg. simpl. repeat split.
Qed.

(** * The claims *)

(** C3.  Every call [reportProgress(user, book, current_page, total_pages)]
    with [total_pages > 0] -- made for an existing user and book by a role
    the policies let write the user's rows, with [total_pages] an INTEGER --
    succeeds and leaves the pair with one row whose [current_page] is
    [clamp(current_page, 0, total_pages)] and whose [progress] is that page
    over [total_pages] as a percentage rounded to two decimals (the
    hundredth nearest to it), within [0, 100].  In particular
    [reportProgress(u, b, 50, 200)] stores 25.00, and
    [reportProgress(u, b, 250, 200)] succeeds and stores [current_page]
    200 and [progress] 100.00. *)
Theorem reported_progress_is_rounded_percentage
    (history : list statement) (r : role) (u b : uuid) (cp tp : Z)
    (strict : bool) (g : uuid) (NOW : timestamptz) :
  may_write r u ->
  u ∈ auth_users (after history) -> b ∈ books (after history) ->
  0 < tp <= int4_max ->
  (progress_of u b (after history) = [] ->
   Some g ∉ map ReadingProgress.id (reading_progress (after history))) ->
  exists db' x p,
    reportProgress r u b cp tp strict g NOW (after history) = Ok db'
    /\ progress_of u b db' = [x]
    /\ ReadingProgress.current_page x = Some (clamp 0 tp cp)
    /\ ReadingProgress.total_pages x = Some tp
    /\ ReadingProgress.progress x = Some (hundredths p)
    /\ 0 <= p <= 10000
    /\ 2 * Z.abs (p * tp - 10000 * clamp 0 tp cp) <= tp
    /\ (cp = 50 -> tp = 200 -> p = 2500)
    /\ (cp = 250 -> tp = 200 ->
        ReadingProgress.current_page x = Some 200 /\ p = 10000).
Proof.
  intros Hr Hu Hb Htp Hfresh.
  destruct (report_succeeds (after history) r u b cp tp g NOW
              (after_consistent history) Hr Hu Hb Htp Hfresh)
    as (db' & x & Hup & Hof & Hcp & Htot & Hpr & _).
  destruct (reported_progress_nearest cp tp ltac:(lia)) as (_ & Hrange & Hn).
  exists db', x, (reported_progress cp tp).
  split.
  { unfold reportProgress.
    destruct (Z.eqb_spec tp 0) as [->|_]; [lia|].
    rewrite andb_false_r, Hup. reflexivity. }
  repeat (split; [first [assumption | lia]|]).
  split.
  - intros -> ->. reflexivity.
  - intros -> ->. rewrite Hcp. split; reflexivity.
Qed.

Lemma reported_progress_is_rounded_percentage_witness :
  exists db' x p,
    reportProgress (app_user (Some alice)) alice novel 250 200 true 102%N 9
      (after bob_reads) = Ok db'
    /\ progress_of alice novel db' = [x]
    /\ ReadingProgress.current_page x = Some (clamp 0 200 250)
    /\ ReadingProgress.total_pages x = Some 200
    /\ ReadingProgress.progress x = Some (hundredths p)
    /\ 0 <= p <= 10000
    /\ 2 * Z.abs (p * 200 - 10000 * clamp 0 200 250) <= 200
    /\ (250 = 50 -> 200 = 200 -> p = 2500)
    /\ (250 = 250 -> 200 = 200 ->
        ReadingProgress.current_page x = Some 200 /\ p = 10000).
Proof.
  apply (reported_progress_is_rounded_percentage bob_reads
           (app_user (Some alice)) alice novel 250 200 true 102%N 9).
  - right. reflexivity.
  - apply (bool_decide_unpack _). vm_compute. exact I.
  - apply (bool_decide_unpack _). vm_compute. exact I.
  - unfold int4_max. lia.
  - intros _. apply (bool_decide_unpack _). vm_compute. exact I.
Defined.

(** ** Reads under the SELECT policies *)

Lemma filter_none {A} (P : A -> Prop) `{forall x, Decision (P x)}
    (l : list A) :
  (forall x, x ∈ l -> ~ P x) -> filter P l = [].
Proof.
  induction l as [|a l IH]; intros Hl; [reflexivity|].
  rewrite filter_cons. destruct (decide (P a)) as [Pa|_].
  - exfalso. apply (Hl a); [apply list_elem_of_here|exact Pa].
  - apply IH. intros x Hx. apply Hl. apply list_elem_of_further, Hx.
Qed.

Lemma policy_app_user {row : Type} (T : table row) (uid : option uuid)
    (x : row) :
  policy T (app_user uid) x = true
  <-> exists a, uid = Some a /\ col_user_id T x = Some a.
Proof. simpl. apply sql_eq_is_true. Qed.

Lemma select_rows_owned {row : Type} (T : table row) (A : uuid)
    (cond : row -> bool) (rows : list row) :
  Forall (fun x => col_user_id T x = Some A)
         (select_rows T (app_user (Some A)) cond rows).
Proof.
  apply Forall_forall. intros x Hx. unfold select_rows in Hx.
  apply list_elem_of_filter in Hx as [Htg _]. unfold targeted in Htg.
  apply andb_prop in Htg as [Hpol _].
  apply policy_app_user in Hpol as (a & [= <-] & Hx). exact Hx.
Qed.

Lemma select_rows_of_another {row : Type} (T : table row) (A B : uuid)
    (cond : row -> bool) (rows : list row) :
  A <> B ->
  (forall x, cond x = true -> col_user_id T x = Some B) ->
  select_rows T (app_user (Some A)) cond rows = [].
Proof.
  intros Hne Hcond. unfold select_rows. apply filter_none.
  intros x _ Htg. unfold targeted in Htg.
  apply andb_prop in Htg as [Hpol Hc].
  apply policy_app_user in Hpol as (a & [= <-] & Hx).
  rewrite (Hcond x Hc) in Hx. congruence.
Qed.

(** C2, as stated, fails: Bob has a progress row and a session for the
    book, and Alice's [getProgress], [listProgress] and [listSessions] for
    Bob each return an empty result, not an [AuthorizationError]. *)
Lemma read_of_other_users_rows_raises_nothing :
  length (progress_of bob novel (after bob_reads)) = 1%nat
  /\ length (sessions_of bob novel (after bob_reads)) = 1%nat
  /\ getProgress (app_user (Some alice)) bob novel (after bob_reads) = Ok []
  /\ listProgress (app_user (Some alice)) bob (after bob_reads) = Ok []
  /\ listSessions (app_user (Some alice)) bob (Some novel) (after bob_reads)
     = Ok []
  /\ listSessions (app_user (Some alice)) bob None (after bob_reads) = Ok [].
Proof. vm_compute. repeat split; reflexivity. Qed.

(** C2, amended.  For every caller authenticated as user A and every user
    B other than A, [getProgress], [listProgress] and [listSessions] by A
    for B succeed with an empty result: B's rows are left out and no error
    is raised.  Whatever A selects, every row returned is A's own. *)
Theorem reads_of_other_users_rows_are_empty (db : database) (A B b : uuid)
    (ob : option uuid) :
  A <> B ->
  getProgress (app_user (Some A)) B b db = Ok []
  /\ listProgress (app_user (Some A)) B db = Ok []
  /\ listSessions (app_user (Some A)) B ob db = Ok []
  /\ (forall cond, exists rows,
        select_reading_progress (app_user (Some A)) cond db = Ok rows
        /\ Forall (fun x => ReadingProgress.user_id x = Some A) rows)
  /\ (forall cond, exists rows,
        select_reading_sessions (app_user (Some A)) cond db = Ok rows
        /\ Forall (fun x => ReadingSession.user_id x = Some A) rows).
Proof.
  intros Hne.
  unfold getProgress, listProgress, listSessions, select_reading_progress,
    select_reading_sessions. simpl.
  repeat split.
  - rewrite (select_rows_of_another _ A B); [reflexivity|exact Hne|].
    intros x [Hu _]%andb_prop.
    apply sql_eq_is_true in Hu as (a & Hx & [= <-]). exact Hx.
  - rewrite (select_rows_of_another _ A B); [reflexivity|exact Hne|].
    intros x Hu.
    apply sql_eq_is_true in Hu as (a & Hx & [= <-]). exact Hx.
  - rewrite (select_rows_of_another _ A B); [reflexivity|exact Hne|].
    intros x [Hu _]%andb_prop.
    apply sql_eq_is_true in Hu as (a & Hx & [= <-]). exact Hx.
  - intros cond. eexists. split; [reflexivity|].
    apply (select_rows_owned ReadingProgress.schema).
  - intros cond. eexists. split; [reflexivity|].
    apply (select_rows_owned ReadingSession.schema).
Qed.

Lemma reads_of_other_users_rows_are_empty_witness :
  getProgress (app_user (Some alice)) bob novel (after bob_reads) = Ok []
  /\ listProgress (app_user (Some alice)) bob (after bob_reads) = Ok []
  /\ listSessions (app_user (Some alice)) bob None (after bob_reads) = Ok []
  /\ (forall cond, exists rows,
        select_reading_progress (app_user (Some alice)) cond
          (after bob_reads) = Ok rows
        /\ Forall (fun x => ReadingProgress.user_id x = Some alice) rows)
  /\ (forall cond, exists rows,
        select_reading_sessions (app_user (Some alice)) cond
          (after bob_reads) = Ok rows
        /\ Forall (fun x => ReadingSession.user_id x = Some alice) rows).
Proof.
  apply (reads_of_other_users_rows_are_empty (after bob_reads) alice bob
           novel None).
  vm_compute. discriminate.
Defined.

(** ** Updates and the trigger *)

Lemma Forall2_map_r {A B} (R : A -> B -> Prop) (f : A -> B) (l : list A) :
  (forall x, R x (f x)) -> Forall2 R l (map f l).
Proof. intros Hf. induction l; simpl; constructor; auto. Qed.

Lemma update_reading_progress_ok r assign cond NOW db db' :
  update_reading_progress r assign cond NOW db = Ok db' ->
  db' = with_reading_progress
          (map (updated ReadingProgress.schema r assign cond NOW)
               (reading_progress db)) db.
Proof.
  unfold update_reading_progress. intros (rows & Hupd & [= <-])%bind_ok.
  apply update_rows_ok in Hupd as [Hloop _].
  apply update_loop_is_map in Hloop as ->. reflexivity.
Qed.

Lemma update_reading_sessions_ok r assign cond NOW db db' :
  update_reading_sessions r assign cond NOW db = Ok db' ->
  db' = with_reading_sessions
          (map (updated ReadingSession.schema r assign cond NOW)
               (reading_sessions db)) db.
Proof.
  unfold update_reading_sessions. intros (rows & Hupd & [= <-])%bind_ok.
  apply update_rows_ok in Hupd as [Hloop _].
  apply update_loop_is_map in Hloop as ->. reflexivity.
Qed.

(** C4, as stated, fails in its last part: Bob's row was created at time
    5; his UPDATE at time 9 assigns the epoch to both [created_at] and
    [updated_at]; the row then has [created_at] at the epoch (and
    [updated_at] 9, the time of the update). *)
Lemma update_changes_created_at :
  map ReadingProgress.created_at (reading_progress (after bob_reads))
  = [Some 5]
  /\ map ReadingProgress.created_at (reading_progress (after bob_backdates))
     = [Some 0]
  /\ map ReadingProgress.updated_at (reading_progress (after bob_backdates))
     = [Some 9].
Proof. vm_compute. repeat split; reflexivity. Qed.

(** C4, amended.  Every UPDATE of [reading_progress] or [reading_sessions]
    that succeeds leaves, in place of each row it acts on, the row its SET
    clause produced with [updated_at] replaced by the time of the update,
    whatever the SET clause assigned to [updated_at]; [created_at] is what
    the SET clause left, so it is untouched exactly when the statement
    does not assign it.  The other rows are unchanged.  An INSERT that
    leaves out [created_at] sets it to the time of the insertion. *)
Theorem update_stamps_updated_at (r : role) (NOW : timestamptz)
    (db : database) :
  (forall assign cond db',
     update_reading_progress r assign cond NOW db = Ok db' ->
     Forall2 (fun OLD NEW =>
                if targeted ReadingProgress.schema r cond OLD
                then NEW = ReadingProgress.set_updated_at (Some NOW)
                             (assign OLD)
                     /\ ReadingProgress.updated_at NEW = Some NOW
                     /\ ReadingProgress.created_at NEW
                        = ReadingProgress.created_at (assign OLD)
                else NEW = OLD)
             (reading_progress db) (reading_progress db'))
  /\ (forall assign cond db',
        update_reading_sessions r assign cond NOW db = Ok db' ->
        Forall2 (fun OLD NEW =>
                   if targeted ReadingSession.schema r cond OLD
                   then NEW = ReadingSession.set_updated_at (Some NOW)
                                (assign OLD)
                        /\ ReadingSession.updated_at NEW = Some NOW
                        /\ ReadingSession.created_at NEW
                           = ReadingSession.created_at (assign OLD)
                   else NEW = OLD)
                (reading_sessions db) (reading_sessions db'))
  /\ (forall c g, ReadingProgress.in_created_at c = DEFAULT ->
        ReadingProgress.created_at (ReadingProgress.with_defaults g NOW c)
        = Some NOW)
  /\ (forall c g, ReadingSession.in_created_at c = DEFAULT ->
        ReadingSession.created_at (ReadingSession.with_defaults g NOW c)
        = Some NOW).
Proof.
  repeat split.
  - intros assign cond db' ->%update_reading_progress_ok. simpl.
    apply Forall2_map_r. intros x. unfold updated.
    destruct (targeted _ _ _ _); simpl; auto.
  - intros assign cond db' ->%update_reading_sessions_ok. simpl.
    apply Forall2_map_r. intros x. unfold updated.
    destruct (targeted _ _ _ _); simpl; auto.
  - intros c g Hc. simpl. rewrite Hc. reflexivity.
  - intros c g Hc. simpl. rewrite Hc. reflexivity.
Qed.

Lemma update_stamps_updated_at_witness :
  Forall2 (fun OLD NEW =>
             if targeted ReadingProgress.schema (app_user (Some bob))
                  every_row OLD
             then NEW = ReadingProgress.set_updated_at (Some 9)
                          (ReadingProgress.set_updated_at (Some 0)
                             (set_created_at (Some 0) OLD))
                  /\ ReadingProgress.updated_at NEW = Some 9
                  /\ ReadingProgress.created_at NEW
                     = ReadingProgress.created_at
                         (ReadingProgress.set_updated_at (Some 0)
                            (set_created_at (Some 0) OLD))
             else NEW = OLD)
          (reading_progress (after bob_reads))
          (reading_progress (after bob_backdates)).
Proof.
  apply (proj1 (update_stamps_updated_at (app_user (Some bob)) 9
                  (after bob_reads))
           (fun x => ReadingProgress.set_updated_at (Some 0)
                       (set_created_at (Some 0) x))
           every_row (after bob_backdates)).
  vm_compute. reflexivity.
Defined.

Lemma set_created_at_succeeds (db : database) (r : role)
    (v : option timestamptz) (NOW : timestamptz) :
  consistent db = true ->
  update_reading_progress r (set_created_at v) every_row NOW db
  = Ok (with_reading_progress
          (map (updated ReadingProgress.schema r (set_created_at v)
                  every_row NOW)
               (reading_progress db)) db).
Proof.
  intros [Hp _]%consistent_split. unfold update_reading_progress.
  rewrite (update_rows_same_keys ReadingProgress.schema); [reflexivity| |].
  - unfold table_ok in Hp. apply andb_prop in Hp as [[Hk _]%andb_prop _].
    exact Hk.
  - intros x Hx _.
    destruct (table_ok_row _ _ _ _ x Hp Hx) as (Hty & Hnn & _).
    split; [repeat split|]. split; [exact Hty|exact Hnn].
Qed.

(** ** Cascades and column constraints *)

Lemma after_row_progress (history : list statement)
    (x : ReadingProgress.row) :
  x ∈ reading_progress (after history) ->
  ReadingProgress.types_ok x = true
  /\ ReadingProgress.not_null_ok x = true
  /\ fk_ok ReadingProgress.schema (auth_users (after history))
       (books (after history)) x = true.
Proof.
  pose proof (after_consistent history) as [Hp _]%consistent_split.
  apply (table_ok_row ReadingProgress.schema _ _ _ x Hp).
Qed.

Lemma after_row_session (history : list statement) (x : ReadingSession.row) :
  x ∈ reading_sessions (after history) ->
  ReadingSession.types_ok x = true
  /\ ReadingSession.not_null_ok x = true
  /\ fk_ok ReadingSession.schema (auth_users (after history))
       (books (after history)) x = true.
Proof.
  pose proof (after_consistent history) as [_ Hs]%consistent_split.
  apply (table_ok_row ReadingSession.schema _ _ _ x Hs).
Qed.

Lemma references_some (keys : gset uuid) (v : option uuid) (k : uuid) :
  references keys v = true -> v = Some k -> k ∈ keys.
Proof. intros H ->. simpl in H. apply bool_decide_eq_true in H. exact H. Qed.

(** C5.  Deleting a user (or a book) deletes exactly the rows of
    [reading_progress] and [reading_sessions] that refer to it; and in
    every reachable state the user and the book a row refers to exist. *)
Theorem cascade_leaves_no_orphans (history : list statement) (u b : uuid) :
  let db := after history in
  (forall x, x ∈ reading_progress (delete_user u db)
             <-> x ∈ reading_progress db
                 /\ ReadingProgress.user_id x <> Some u)
  /\ (forall x, x ∈ reading_sessions (delete_user u db)
                <-> x ∈ reading_sessions db
                    /\ ReadingSession.user_id x <> Some u)
  /\ (forall x, x ∈ reading_progress (delete_book b db)
                <-> x ∈ reading_progress db
                    /\ ReadingProgress.book_id x <> Some b)
  /\ (forall x, x ∈ reading_sessions (delete_book b db)
                <-> x ∈ reading_sessions db
                    /\ ReadingSession.book_id x <> Some b)
  /\ (u ∉ auth_users (delete_user u db))
  /\ (b ∉ books (delete_book b db))
  /\ (forall x k, x ∈ reading_progress db ->
        (ReadingProgress.user_id x = Some k -> k ∈ auth_users db)
        /\ (ReadingProgress.book_id x = Some k -> k ∈ books db))
  /\ (forall x k, x ∈ reading_sessions db ->
        (ReadingSession.user_id x = Some k -> k ∈ auth_users db)
        /\ (ReadingSession.book_id x = Some k -> k ∈ books db)).
Proof.
  intros db. subst db.
  split; [intros x; apply (cascade_user_gone ReadingProgress.schema)|].
  split; [intros x; apply (cascade_user_gone ReadingSession.schema)|].
  split; [intros x; apply (cascade_book_gone ReadingProgress.schema)|].
  split; [intros x; apply (cascade_book_gone ReadingSession.schema)|].
  split; [simpl; rewrite elem_of_difference, elem_of_singleton; tauto|].
  split; [simpl; rewrite elem_of_difference, elem_of_singleton; tauto|].
  split.
  - intros x k (_ & _ & Hfk)%after_row_progress.
    unfold fk_ok in Hfk. apply andb_prop in Hfk as [Hu Hb].
    split; apply references_some; assumption.
  - intros x k (_ & _ & Hfk)%after_row_session.
    unfold fk_ok in Hfk. apply andb_prop in Hfk as [Hu Hb].
    split; apply references_some; assumption.
Qed.

Lemma cascade_leaves_no_orphans_witness :
  reading_progress (after (bob_reads ++ [DELETE_user bob])) = []
  /\ reading_sessions (after (bob_reads ++ [DELETE_user bob])) = []
  /\ forall x k, x ∈ reading_progress (after bob_reads) ->
       (ReadingProgress.user_id x = Some k -> k ∈ auth_users (after bob_reads))
       /\ (ReadingProgress.book_id x = Some k -> k ∈ books (after bob_reads)).
Proof.
  split; [vm_compute; reflexivity|]. split; [vm_compute; reflexivity|].
  apply (cascade_leaves_no_orphans bob_reads bob novel).
Defined.

(** C6, as stated, fails: Bob's INSERTs with [current_page = -5],
    [total_pages = -1], [pages_read = -3] and [duration = -60] succeed, and
    the four negative values are stored. *)
Lemma negative_counts_are_stored :
  map (fun x => (ReadingProgress.current_page x,
                 ReadingProgress.total_pages x))
      (reading_progress (after negative_counts)) = [(Some (-5), Some (-1))]
  /\ map (fun x => (ReadingSession.pages_read x, ReadingSession.duration x))
         (reading_sessions (after negative_counts))
     = [(Some (-3), Some (-60))].
Proof. vm_compute. split; reflexivity. Qed.

(** C6, amended.  In every reachable state [current_page] and
    [total_pages] of every [reading_progress] row and [pages_read] and
    [duration] of every [reading_sessions] row are integers of the INTEGER
    type, never NULL: no operation can persist NULL or a value outside
    [-2^31, 2^31 - 1] in any of the four columns. *)
Theorem counts_are_integers_not_null (history : list statement) :
  Forall (fun x => exists c t,
            ReadingProgress.current_page x = Some c
            /\ ReadingProgress.total_pages x = Some t
            /\ int4_min <= c <= int4_max /\ int4_min <= t <= int4_max)
         (reading_progress (after history))
  /\ Forall (fun x => exists p d,
               ReadingSession.pages_read x = Some p
               /\ ReadingSession.duration x = Some d
               /\ int4_min <= p <= int4_max /\ int4_min <= d <= int4_max)
            (reading_sessions (after history)).
Proof.
  split; apply Forall_forall; intros x Hx.
  - apply after_row_progress in Hx as (Hty & Hnn & _).
    unfold ReadingProgress.types_ok, ReadingProgress.not_null_ok in *.
    destruct (ReadingProgress.current_page x) as [c|],
      (ReadingProgress.total_pages x) as [t|];
      simpl in *; rewrite ?andb_false_r in *; try discriminate.
    exists c, t. unfold is_int4 in Hty.
    rewrite !andb_true_iff, !Z.leb_le in Hty. repeat split; lia.
  - apply after_row_session in Hx as (Hty & Hnn & _).
    unfold ReadingSession.types_ok, ReadingSession.not_null_ok in *.
    destruct (ReadingSession.pages_read x) as [p|],
      (ReadingSession.duration x) as [d|];
      simpl in *; rewrite ?andb_false_r in *; try discriminate.
    exists p, d. unfold is_int4 in Hty.
    rewrite !andb_true_iff, !Z.leb_le in Hty. repeat split; lia.
Qed.

(** ** Inserts *)

Lemma null_total_pages_rejected (x : ReadingProgress.row) :
  ReadingProgress.total_pages x = None ->
  ReadingProgress.not_null_ok x = false.
Proof.
  intros H. unfold ReadingProgress.not_null_ok. rewrite H.
  destruct (ReadingProgress.id x), (ReadingProgress.current_page x);
    reflexivity.
Qed.

Lemma insert_null_total_pages r c g NOW db :
  ReadingProgress.total_pages (ReadingProgress.with_defaults g NOW c) = None ->
  is_ok (insert_reading_progress r c g NOW db) = false
  /\ (ReadingProgress.types_ok (ReadingProgress.with_defaults g NOW c) = true ->
      policy ReadingProgress.schema r
        (ReadingProgress.with_defaults g NOW c) = true ->
      insert_reading_progress r c g NOW db = Err not_null_violation).
Proof.
  intros Hnull%null_total_pages_rejected.
  unfold insert_reading_progress, insert_row, check_new_row.
  cbn [well_typed not_null ReadingProgress.schema]. rewrite Hnull.
  split.
  - destruct (ReadingProgress.types_ok _); [|reflexivity].
    destruct (policy _ _ _); reflexivity.
  - intros -> ->. reflexivity.
Qed.

Lemma fk_ok_exists {row : Type} (T : table row) (users books : gset uuid)
    (x : row) (u b : option uuid) :
  col_user_id T x = u -> col_book_id T x = b ->
  references users u = true -> references books b = true ->
  fk_ok T users books x = true.
Proof. intros <- <- Hu Hb. unfold fk_ok. rewrite Hu, Hb. reflexivity. Qed.

Lemma references_elem (keys : gset uuid) (k : uuid) :
  k ∈ keys -> references keys (Some k) = true.
Proof. intros H. simpl. apply bool_decide_eq_true_2, H. Qed.

(** C7.  An INSERT into [reading_progress] whose [total_pages] is left
    out or NULL fails -- for a statement that is well typed and passes the
    INSERT policy, with the not-null violation the taxonomy calls
    [ConstraintViolation] -- and the database is as before.  [total_pages]
    has no default.  An INSERT that leaves out [current_page], or
    [pages_read] and [duration], succeeds and stores 0 in them. *)
Theorem total_pages_required_counts_default (history : list statement)
    (r : role) (u b : uuid) (t : Z) (start : timestamptz) (g : uuid)
    (NOW : timestamptz) :
  let db := after history in
  may_write r u -> u ∈ auth_users db -> b ∈ books db ->
  is_int4 t = true ->
  progress_of u b db = [] ->
  Some g ∉ map ReadingProgress.id (reading_progress db) ->
  Some g ∉ map ReadingSession.id (reading_sessions db) ->
  (forall r' c,
     ReadingProgress.in_total_pages c = DEFAULT
     \/ ReadingProgress.in_total_pages c = VALUE None ->
     is_ok (insert_reading_progress r' c g NOW db) = false
     /\ execute (INSERT_reading_progress r' c g NOW) db = db
     /\ (ReadingProgress.types_ok (ReadingProgress.with_defaults g NOW c)
         = true ->
         policy ReadingProgress.schema r'
           (ReadingProgress.with_defaults g NOW c) = true ->
         insert_reading_progress r' c g NOW db = Err not_null_violation
         /\ classified (insert_reading_progress r' c g NOW db)
            = Err ConstraintViolation))
  /\ (forall c, ReadingProgress.in_total_pages c = DEFAULT ->
        ReadingProgress.total_pages (ReadingProgress.with_defaults g NOW c)
        = None)
  /\ (exists x,
        insert_reading_progress r (minimal_progress (Some u) (Some b) t)
          g NOW db
        = Ok (with_reading_progress (reading_progress db ++ [x]) db)
        /\ ReadingProgress.current_page x = Some 0
        /\ ReadingProgress.total_pages x = Some t)
  /\ (exists x,
        insert_reading_sessions r (minimal_session (Some u) (Some b) start)
          g NOW db
        = Ok (with_reading_sessions (reading_sessions db ++ [x]) db)
        /\ ReadingSession.pages_read x = Some 0
        /\ ReadingSession.duration x = Some 0).
Proof.
  intros db Hr Hu Hb Ht Hnone Hg Hg'.
  split; [|split; [|split]].
  - intros r' c Hc.
    assert (Hnull : ReadingProgress.total_pages
                      (ReadingProgress.with_defaults g NOW c) = None).
    { simpl. destruct Hc as [-> | ->]; reflexivity. }
    destruct (insert_null_total_pages r' c g NOW db Hnull) as [Hfail Herr].
    split; [exact Hfail|]. split.
    + simpl. destruct (insert_reading_progress r' c g NOW db);
        [discriminate|reflexivity].
    + intros Hty Hpol. rewrite (Herr Hty Hpol). split; reflexivity.
  - intros c Hc. simpl. rewrite Hc. reflexivity.
  - exists (ReadingProgress.with_defaults g NOW
              (minimal_progress (Some u) (Some b) t)).
    split; [|split; reflexivity].
    unfold insert_reading_progress.
    rewrite (insert_row_succeeds ReadingProgress.schema); [reflexivity|..].
    + simpl. unfold ReadingProgress.types_ok. simpl. rewrite Ht. reflexivity.
    + apply (may_write_policy ReadingProgress.schema r u);
        [exact Hr|reflexivity].
    + reflexivity.
    + apply (fresh_id_no_conflict _ _ g); [reflexivity|exact Hg].
    + unfold user_book_conflict. simpl.
      rewrite (progress_of_conflict _ u b db), Hnone by reflexivity.
      reflexivity.
    + apply (fk_ok_exists _ _ _ _ (Some u) (Some b));
        try reflexivity; apply references_elem; assumption.
  - exists (ReadingSession.with_defaults g NOW
              (minimal_session (Some u) (Some b) start)).
    split; [|split; reflexivity].
    unfold insert_reading_sessions.
    rewrite (insert_row_succeeds ReadingSession.schema); [reflexivity|..].
    + reflexivity.
    + apply (may_write_policy ReadingSession.schema r u);
        [exact Hr|reflexivity].
    + reflexivity.
    + apply (fresh_id_no_conflict _ _ g); [reflexivity|exact Hg'].
    + reflexivity.
    + apply (fk_ok_exists _ _ _ _ (Some u) (Some b));
        try reflexivity; apply references_elem; assumption.
Qed.

Lemma total_pages_required_counts_default_witness :
  classified
    (insert_reading_progress (app_user (Some alice))
       (without_total_pages alice novel) 100%N 5 (after two_readers))
  = Err ConstraintViolation
  /\ exists x,
       insert_reading_progress (app_user (Some alice))
         (minimal_progress (Some alice) (Some novel) 300) 100%N 5
         (after two_readers)
       = Ok (with_reading_progress
               (reading_progress (after two_readers) ++ [x])
               (after two_readers))
       /\ ReadingProgress.current_page x = Some 0
       /\ ReadingProgress.total_pages x = Some 300.
Proof.
  destruct (total_pages_required_counts_default two_readers
              (app_user (Some alice)) alice novel 300 5 100%N 5)
    as (Hnull & _ & Hmin & _).
  - right. reflexivity.
  - apply (bool_decide_unpack _). vm_compute. exact I.
  - apply (bool_decide_unpack _). vm_compute. exact I.
  - vm_compute. reflexivity.
  - vm_compute. reflexivity.
  - apply (bool_decide_unpack _). vm_compute. exact I.
  - apply (bool_decide_unpack _). vm_compute. exact I.
  - split; [|exact Hmin].
    apply (Hnull (app_user (Some alice)) (without_total_pages alice novel)).
    + left. reflexivity.
    + vm_compute. reflexivity.
    + vm_compute. reflexivity.
Defined.

(** ** Sessions *)

Lemma open_session_succeeds (db : database) (r : role) (u b : uuid)
    (start : timestamptz) (g : uuid) (NOW : timestamptz) :
  may_write r u -> u ∈ auth_users db -> b ∈ books db ->
  Some g ∉ map ReadingSession.id (reading_sessions db) ->
  openSession r u b start g NOW db
  = Ok (with_reading_sessions
          (reading_sessions db ++ [opened_row u b start g NOW]) db).
Proof.
  intros Hr Hu Hb Hg. unfold openSession, insert_reading_sessions.
  fold (opened_row u b start g NOW).
  rewrite (insert_row_succeeds ReadingSession.schema); [reflexivity|..].
  - reflexivity.
  - apply (may_write_policy ReadingSession.schema r u);
      [exact Hr|reflexivity].
  - reflexivity.
  - apply (fresh_id_no_conflict _ _ g); [reflexivity|exact Hg].
  - reflexivity.
  - apply (fk_ok_exists _ _ _ _ (Some u) (Some b));
      try reflexivity; apply references_elem; assumption.
Qed.

Lemma open_sessions_snoc (n : nat) :
  open_sessions (S n)
  = open_sessions n
    ++ [CALL_openSession (app_user (Some bob)) bob novel 0 (N.of_nat n) 0].
Proof.
  unfold open_sessions. rewrite seq_S, map_app, app_assoc. reflexivity.
Qed.

Lemma open_sessions_rows (n : nat) :
  after (open_sessions n)
  = with_reading_sessions
      (map (fun i => opened_row bob novel 0 (N.of_nat i) 0) (seq 0 n))
      (after two_readers).
Proof.
  induction n as [|n IH].
  - vm_compute. reflexivity.
  - rewrite open_sessions_snoc, after_snoc, IH. simpl execute.
    rewrite open_session_succeeds.
    + rewrite seq_S, map_app. reflexivity.
    + right. reflexivity.
    + apply (bool_decide_unpack _). vm_compute. exact I.
    + apply (bool_decide_unpack _). vm_compute. exact I.
    + simpl. rewrite map_map. simpl.
      intros (i & [= Hi] & Hin%in_seq)%list_elem_of_In%in_map_iff.
      apply Nat2N.inj in Hi. lia.
Qed.

Lemma sessions_of_opened (u b : uuid) (db : database) (l : list nat) :
  sessions_of u b
    (with_reading_sessions
       (map (fun i => opened_row u b 0 (N.of_nat i) 0) l) db)
  = map (fun i => opened_row u b 0 (N.of_nat i) 0) l.
Proof.
  unfold sessions_of. simpl. induction l as [|i l IH]; [reflexivity|].
  simpl. rewrite filter_cons, IH.
  destruct (decide _) as [_|Hn]; [reflexivity|].
  exfalso. apply Hn. split; reflexivity.
Qed.

(** C8.  [reading_sessions] has no uniqueness constraint on (user, book):
    for every number [n] there is a reachable state in which the pair has
    [n] sessions, all of them open.  And [openSession] for a pair never
    fails because of the sessions, open or closed, the pair already has: for
    an existing user and book, a role that may write the user's rows and an
    id not yet used as a primary key, it appends a new open session. *)
Theorem open_sessions_never_block (history : list statement) (r : role)
    (u b : uuid) (start : timestamptz) (g : uuid) (NOW : timestamptz) :
  let db := after history in
  may_write r u -> u ∈ auth_users db -> b ∈ books db ->
  Some g ∉ map ReadingSession.id (reading_sessions db) ->
  (exists db' x,
     openSession r u b start g NOW db = Ok db'
     /\ ReadingSession.end_time x = None
     /\ reading_sessions db' = reading_sessions db ++ [x]
     /\ sessions_of u b db' = sessions_of u b db ++ [x])
  /\ (forall n,
        length (sessions_of bob novel (after (open_sessions n))) = n
        /\ Forall (fun x => ReadingSession.end_time x = None)
                  (sessions_of bob novel (after (open_sessions n)))).
Proof.
  intros db Hr Hu Hb Hg. split.
  - exists (with_reading_sessions
              (reading_sessions db ++ [opened_row u b start g NOW]) db),
      (opened_row u b start g NOW).
    split; [apply open_session_succeeds; assumption|].
    split; [reflexivity|]. split; [reflexivity|].
    unfold sessions_of. simpl. rewrite filter_app, filter_cons.
    destruct (decide _) as [_|Hn]; [reflexivity|].
    exfalso. apply Hn. split; reflexivity.
  - intros n. rewrite open_sessions_rows, sessions_of_opened.
    split; [rewrite length_map, length_seq; reflexivity|].
    apply Forall_forall. intros x (i & <- & _)%list_elem_of_In%in_map_iff.
    reflexivity.
Qed.

Lemma open_sessions_never_block_witness :
  exists db' x,
    openSession (app_user (Some bob)) bob novel 6 102%N 6 (after bob_reads)
    = Ok db'
    /\ ReadingSession.end_time x = None
    /\ reading_sessions db' = reading_sessions (after bob_reads) ++ [x]
    /\ sessions_of bob novel db'
       = sessions_of bob novel (after bob_reads) ++ [x].
Proof.
  apply (open_sessions_never_block bob_reads (app_user (Some bob)) bob novel
           6 102%N 6).
  - right. reflexivity.
  - apply (bool_decide_unpack _). vm_compute. exact I.
  - apply (bool_decide_unpack _). vm_compute. exact I.
  - apply (bool_decide_unpack _). vm_compute. exact I.
Defined.

(** ** Rows without a user *)

Lemma null_user_policy {row : Type} (T : table row) (uid : option uuid)
    (x : row) :
  col_user_id T x = None -> policy T (app_user uid) x = false.
Proof. intros H. simpl. rewrite H. apply sql_eq_null_r. Qed.

Lemma null_user_no_conflict {row : Type} (T : table row) (x : row)
    (rows : list row) :
  col_user_id T x = None -> user_book_conflict T x rows = false.
Proof.
  intros H. unfold user_book_conflict.
  assert (existsb (same_user_book T x) rows = false) as ->;
    [|apply andb_false_r].
  induction rows as [|y rows IH]; simpl; [reflexivity|].
  rewrite IH. unfold same_user_book. rewrite H. reflexivity.
Qed.

Lemma insert_without_user_succeeds (db : database) (ob : option uuid)
    (t : Z) (g : uuid) (NOW : timestamptz) :
  references (books db) ob = true -> is_int4 t = true ->
  Some g ∉ map ReadingProgress.id (reading_progress db) ->
  insert_reading_progress table_owner (minimal_progress None ob t) g NOW db
  = Ok (with_reading_progress
          (reading_progress db
           ++ [ReadingProgress.with_defaults g NOW
                 (minimal_progress None ob t)]) db).
Proof.
  intros Hob Ht Hg. unfold insert_reading_progress.
  rewrite (insert_row_succeeds ReadingProgress.schema); [reflexivity|..].
  - simpl. unfold ReadingProgress.types_ok. simpl. rewrite Ht. reflexivity.
  - reflexivity.
  - reflexivity.
  - apply (fresh_id_no_conflict _ _ g); [reflexivity|exact Hg].
  - apply null_user_no_conflict. reflexivity.
  - apply (fk_ok_exists _ _ _ _ None ob); try reflexivity. exact Hob.
Qed.

(** C9.  [user_id] and [book_id] are nullable in both tables: the table
    owner's INSERT of a [reading_progress] row with NULL [user_id]
    succeeds, and so does a second one with the same [book_id], since
    UNIQUE(user_id, book_id) never finds NULL equal to NULL; a
    [reading_sessions] row with both references NULL is accepted too.  For
    no caller, authenticated or not, does a policy admit a row whose
    [user_id] is NULL: SELECT never returns it, UPDATE and DELETE pass it
    over, and INSERT of such a row is refused. *)
Theorem null_user_rows_coexist_unseen (history : list statement)
    (ob : option uuid) (t : Z) (g1 g2 : uuid) (NOW : timestamptz) :
  let db := after history in
  references (books db) ob = true -> is_int4 t = true -> g1 <> g2 ->
  Some g1 ∉ map ReadingProgress.id (reading_progress db) ->
  Some g2 ∉ map ReadingProgress.id (reading_progress db) ->
  Some g1 ∉ map ReadingSession.id (reading_sessions db) ->
  (exists db1 db2 x1 x2,
     insert_reading_progress table_owner (minimal_progress None ob t)
       g1 NOW db = Ok db1
     /\ insert_reading_progress table_owner (minimal_progress None ob t)
          g2 NOW db1 = Ok db2
     /\ reading_progress db2 = reading_progress db ++ [x1; x2]
     /\ ReadingProgress.user_id x1 = None
     /\ ReadingProgress.user_id x2 = None
     /\ ReadingProgress.book_id x1 = ob
     /\ ReadingProgress.book_id x2 = ob)
  /\ (exists x,
        insert_reading_sessions table_owner (minimal_session None None 0)
          g1 NOW db
        = Ok (with_reading_sessions (reading_sessions db ++ [x]) db)
        /\ ReadingSession.user_id x = None
        /\ ReadingSession.book_id x = None)
  /\ (forall uid (x : ReadingProgress.row),
        ReadingProgress.user_id x = None ->
        policy ReadingProgress.schema (app_user uid) x = false)
  /\ (forall uid cond d rows,
        select_reading_progress (app_user uid) cond d = Ok rows ->
        Forall (fun x => ReadingProgress.user_id x <> None) rows)
  /\ (forall uid assign cond now (x : ReadingProgress.row),
        ReadingProgress.user_id x = None ->
        updated ReadingProgress.schema (app_user uid) assign cond now x = x)
  /\ (forall uid cond d, delete_reading_progress (app_user uid) cond d = d)
  /\ (forall uid c g now d,
        ReadingProgress.user_id (ReadingProgress.with_defaults g now c)
        = None ->
        is_ok (insert_reading_progress (app_user uid) c g now d) = false).
Proof.
  intros db Hob Ht Hne Hg1 Hg2 Hg1'.
  split; [|split; [|split; [|split; [|split; [|split]]]]].
  - eexists _, _,
      (ReadingProgress.with_defaults g1 NOW (minimal_progress None ob t)),
      (ReadingProgress.with_defaults g2 NOW (minimal_progress None ob t)).
    split; [apply insert_without_user_succeeds; assumption|].
    split; [|split; [|repeat split]].
    + apply insert_without_user_succeeds; [exact Hob|exact Ht|].
      simpl. rewrite map_app. simpl.
      rewrite elem_of_app, list_elem_of_singleton.
      intros [H|[= H]]; [exact (Hg2 H)|congruence].
    + simpl. rewrite <- app_assoc. reflexivity.
  - exists (ReadingSession.with_defaults g1 NOW
              (minimal_session None None 0)).
    split; [|split; reflexivity].
    unfold insert_reading_sessions.
    rewrite (insert_row_succeeds ReadingSession.schema); [reflexivity|..];
      try reflexivity.
    apply (fresh_id_no_conflict _ _ g1); [reflexivity|exact Hg1'].
  - intros uid x. apply (null_user_policy ReadingProgress.schema).
  - intros uid cond d rows [= <-]. apply Forall_forall. intros x Hx Hnull.
    unfold select_rows in Hx. apply list_elem_of_filter in Hx as [Htg _].
    unfold targeted in Htg.
    rewrite (null_user_policy ReadingProgress.schema uid x Hnull) in Htg.
    discriminate.
  - intros uid assign cond now x Hnull. unfold updated, targeted.
    rewrite (null_user_policy ReadingProgress.schema uid x Hnull).
    reflexivity.
  - intros uid cond d. unfold delete_reading_progress, delete_rows.
    simpl. destruct d as [us bs ps ss]. unfold with_reading_progress. simpl.
    f_equal. induction ps as [|x ps IH]; [reflexivity|].
    rewrite filter_cons. simpl. rewrite IH. reflexivity.
  - intros uid c g now d Hnull.
    unfold insert_reading_progress, insert_row, check_new_row.
    rewrite (null_user_policy ReadingProgress.schema uid _ Hnull).
    destruct (well_typed _ _); reflexivity.
Qed.

Lemma null_user_rows_coexist_unseen_witness :
  exists db1 db2 x1 x2,
    insert_reading_progress table_owner
      (minimal_progress None (Some novel) 300) 200%N 7 (after bob_reads)
    = Ok db1
    /\ insert_reading_progress table_owner
         (minimal_progress None (Some novel) 300) 201%N 7 db1 = Ok db2
    /\ reading_progress db2 = reading_progress (after bob_reads) ++ [x1; x2]
    /\ ReadingProgress.user_id x1 = None
    /\ ReadingProgress.user_id x2 = None
    /\ ReadingProgress.book_id x1 = Some novel
    /\ ReadingProgress.book_id x2 = Some novel.
Proof.
  apply (null_user_rows_coexist_unseen bob_reads (Some novel) 300
           200%N 201%N 7).
  - vm_compute. reflexivity.
  - vm_compute. reflexivity.
  - vm_compute. discriminate.
  - apply (bool_decide_unpack _). vm_compute. exact I.
  - apply (bool_decide_unpack _). vm_compute. exact I.
  - apply (bool_decide_unpack _). vm_compute. exact I.
Defined.

(** * Further properties of the schema *)

(** ** What the policies let a session do *)

Section PolicyFacts.
Context {row : Type} (T : table row).

Lemma policy_owner (uid : option uuid) (x : row) :
  policy T (app_user uid) x = true ->
  uid <> None /\ col_user_id T x = uid.
Proof.
  intros (a & -> & Hx)%policy_app_user. split; [discriminate|exact Hx].
Qed.

Lemma policy_not_owner (uid : option uuid) (x : row) :
  col_user_id T x <> uid -> policy T (app_user uid) x = false.
Proof.
  intros Hne. destruct (policy T (app_user uid) x) eqn:E; [|reflexivity].
  apply policy_owner in E as [_ E]. contradiction.
Qed.

Lemma policy_anonymous (x : row) : policy T (app_user None) x = false.
Proof. reflexivity. Qed.

(** Two sessions with different identities never both pass the policy
    on one row. *)
Lemma policy_exclusive (uid uid' : option uuid) (x : row) :
  uid <> uid' -> policy T (app_user uid) x = true ->
  policy T (app_user uid') x = false.
Proof.
  intros Hne [_ Hx]%policy_owner. apply policy_not_owner. congruence.
Qed.

(** Every new version a successful UPDATE stored passed the checks. *)
Lemma update_loop_checked (r : role) (assign : row -> row)
    (cond : row -> bool) (now : timestamptz) (todo done rows' : list row) :
  update_loop T r assign cond now done todo = Ok rows' ->
  forall x, x ∈ todo -> targeted T r cond x = true ->
    well_typed T (new_version T assign now x) = true
    /\ policy T r (new_version T assign now x) = true
    /\ not_null T (new_version T assign now x) = true.
Proof.
  revert done. induction todo as [|OLD rest IH]; simpl; intros done H x Hx Htg.
  - apply elem_of_nil in Hx. contradiction.
  - apply elem_of_cons in Hx as [->|Hx].
    + rewrite Htg in H. apply bind_guard_ok in H as [Hty H].
      apply bind_check_ok in H as [Hchk _].
      apply check_new_row_ok in Hchk as (Hpol & Hnn & _). auto.
    + destruct (targeted T r cond OLD).
      * apply bind_guard_ok in H as [_ H]. apply bind_check_ok in H as [_ H].
        exact (IH _ H x Hx Htg).
      * exact (IH _ H x Hx Htg).
Qed.

Lemma Forall2_map_r_in {A B} (R : A -> B -> Prop) (f : A -> B) (l : list A) :
  (forall x, x ∈ l -> R x (f x)) -> Forall2 R l (map f l).
Proof.
  induction l as [|a l IH]; intros Hf; simpl; constructor.
  - apply Hf, list_elem_of_here.
  - apply IH. intros x Hx. apply Hf, list_elem_of_further, Hx.
Qed.

Lemma update_rows_is_map (r : role) (users books : gset uuid)
    (assign : row -> row) (cond : row -> bool) (now : timestamptz)
    (rows rows' : list row) :
  update_rows T r users books assign cond now rows = Ok rows' ->
  rows' = map (updated T r assign cond now) rows
  /\ forall x, x ∈ rows -> targeted T r cond x = true ->
       policy T r (new_version T assign now x) = true.
Proof.
  intros [Hloop _]%update_rows_ok. split.
  - apply update_loop_is_map in Hloop. exact Hloop.
  - intros x Hx Htg.
    apply (update_loop_checked _ _ _ _ _ _ _ Hloop x Hx Htg).
Qed.

(** An UPDATE by a session under the policies changes no row of another
    user and leaves every row with the user it had. *)
Lemma update_rows_by_user (uid : option uuid) (users books : gset uuid)
    (assign : row -> row) (cond : row -> bool) (now : timestamptz)
    (rows rows' : list row) :
  update_rows T (app_user uid) users books assign cond now rows = Ok rows' ->
  Forall2 (fun OLD NEW =>
             col_user_id T NEW = col_user_id T OLD
             /\ (col_user_id T OLD <> uid -> NEW = OLD)
             /\ (uid = None -> NEW = OLD))
          rows rows'.
Proof.
  intros [-> Hpol]%update_rows_is_map. apply Forall2_map_r_in.
  intros x Hx. unfold updated.
  destruct (targeted T (app_user uid) cond x) eqn:Htg; [|auto].
  specialize (Hpol x Hx Htg). apply policy_owner in Hpol as [Hsome Hnew].
  unfold targeted in Htg. apply andb_prop in Htg as [Hold _].
  apply policy_owner in Hold as [_ Hold].
  split; [congruence|]. split; [congruence|]. intros ->. contradiction.
Qed.

(** What one session selects is not affected by another session's
    UPDATE. *)
Lemma select_after_update (uid uid' : option uuid) (users books : gset uuid)
    (assign : row -> row) (cond cond' : row -> bool) (now : timestamptz)
    (rows rows' : list row) :
  uid <> uid' ->
  update_rows T (app_user uid) users books assign cond now rows = Ok rows' ->
  select_rows T (app_user uid') cond' rows'
  = select_rows T (app_user uid') cond' rows.
Proof.
  intros Hne [-> Hpol]%update_rows_is_map. unfold select_rows.
  induction rows as [|x rows IH]; [reflexivity|].
  simpl. rewrite !filter_cons, IH
    by (intros y Hy; apply Hpol, list_elem_of_further, Hy).
  destruct (targeted T (app_user uid) cond x) eqn:Htg.
  - pose proof (Hpol x (list_elem_of_here _ _) Htg) as Hnew.
    assert (Hu : updated T (app_user uid) assign cond now x
                 = new_version T assign now x).
    { unfold updated. rewrite Htg. reflexivity. }
    rewrite Hu. unfold targeted in Htg. apply andb_prop in Htg as [Hold _].
    destruct (decide _) as [H|_].
    { unfold targeted in H.
      rewrite (policy_exclusive uid uid' _ Hne Hnew) in H. discriminate. }
    destruct (decide _) as [H|_]; [|reflexivity].
    unfold targeted in H.
    rewrite (policy_exclusive uid uid' _ Hne Hold) in H. discriminate.
  - assert (Hu : updated T (app_user uid) assign cond now x = x).
    { unfold updated. rewrite Htg. reflexivity. }
    rewrite Hu. reflexivity.
Qed.

Lemma select_after_insert (uid uid' : option uuid) (users books : gset uuid)
    (x : row) (cond' : row -> bool) (rows rows' : list row) :
  uid <> uid' ->
  insert_row T (app_user uid) users books x rows = Ok rows' ->
  select_rows T (app_user uid') cond' rows'
  = select_rows T (app_user uid') cond' rows.
Proof.
  intros Hne (_ & Hchk & _ & ->)%insert_row_ok.
  apply check_new_row_ok in Hchk as (Hpol & _).
  unfold select_rows. rewrite filter_app, filter_cons, filter_nil.
  destruct (decide _) as [H|_]; [|apply app_nil_r].
  unfold targeted in H.
  rewrite (policy_exclusive uid uid' _ Hne Hpol) in H. discriminate.
Qed.

Lemma delete_rows_by_user (uid : option uuid) (cond : row -> bool)
    (rows : list row) :
  delete_rows (app_user uid) cond rows = rows.
Proof.
  unfold delete_rows. simpl. induction rows as [|x rows IH]; [reflexivity|].
  rewrite filter_cons. simpl. rewrite IH. reflexivity.
Qed.

Lemma update_loop_anonymous (assign : row -> row) (cond : row -> bool)
    (now : timestamptz) (todo done : list row) :
  update_loop T (app_user None) assign cond now done todo = Ok (done ++ todo).
Proof.
  revert done. induction todo as [|x todo IH]; intros done; simpl.
  - rewrite app_nil_r. reflexivity.
  - rewrite IH, <- app_assoc. reflexivity.
Qed.

Lemma update_rows_anonymous (users books : gset uuid) (assign : row -> row)
    (cond : row -> bool) (now : timestamptz) (rows : list row) :
  update_rows T (app_user None) users books assign cond now rows = Ok rows.
Proof.
  unfold update_rows. rewrite update_loop_anonymous. simpl.
  unfold mbind, result_bind. simpl.
  assert (filter (fun x => targeted T (app_user None) cond x = true) rows
          = []) as ->; [|reflexivity].
  apply filter_none. intros x _ H. discriminate.
Qed.

Lemma insert_row_refused (uid : option uuid) (users books : gset uuid)
    (x : row) (rows : list row) :
  policy T (app_user uid) x = false ->
  is_ok (insert_row T (app_user uid) users books x rows) = false
  /\ (well_typed T x = true ->
      insert_row T (app_user uid) users books x rows
      = Err insufficient_privilege).
Proof.
  intros Hpol. unfold insert_row, check_new_row. rewrite Hpol.
  destruct (well_typed T x); simpl; split; auto; discriminate.
Qed.

End PolicyFacts.

Lemma same_view_refl (uid : option uuid) (db : database) :
  same_view uid db db.
Proof. split; reflexivity. Qed.

Lemma view_after_insert_progress uid uid' c g NOW db db' :
  uid <> uid' ->
  insert_reading_progress (app_user uid) c g NOW db = Ok db' ->
  same_view uid' db db'.
Proof.
  intros Hne (rows & Hins & [= <-])%bind_ok.
  split; intros cond; unfold select_reading_progress, select_reading_sessions;
    simpl; [|reflexivity].
  f_equal. eapply select_after_insert; eassumption.
Qed.

Lemma view_after_insert_sessions uid uid' c g NOW db db' :
  uid <> uid' ->
  insert_reading_sessions (app_user uid) c g NOW db = Ok db' ->
  same_view uid' db db'.
Proof.
  intros Hne (rows & Hins & [= <-])%bind_ok.
  split; intros cond; unfold select_reading_progress, select_reading_sessions;
    simpl; [reflexivity|].
  f_equal. eapply select_after_insert; eassumption.
Qed.

Lemma view_after_update_progress uid uid' assign cond NOW db db' :
  uid <> uid' ->
  update_reading_progress (app_user uid) assign cond NOW db = Ok db' ->
  same_view uid' db db'.
Proof.
  intros Hne (rows & Hupd & [= <-])%bind_ok.
  split; intros cond'; unfold select_reading_progress,
    select_reading_sessions; simpl; [|reflexivity].
  f_equal. eapply select_after_update; eassumption.
Qed.

Lemma view_after_update_sessions uid uid' assign cond NOW db db' :
  uid <> uid' ->
  update_reading_sessions (app_user uid) assign cond NOW db = Ok db' ->
  same_view uid' db db'.
Proof.
  intros Hne (rows & Hupd & [= <-])%bind_ok.
  split; intros cond'; unfold select_reading_progress,
    select_reading_sessions; simpl; [reflexivity|].
  f_equal. eapply select_after_update; eassumption.
Qed.

Lemma with_reading_progress_same (db : database) :
  with_reading_progress (reading_progress db) db = db.
Proof. destruct db. reflexivity. Qed.

Lemma with_reading_sessions_same (db : database) :
  with_reading_sessions (reading_sessions db) db = db.
Proof. destruct db. reflexivity. Qed.

(** X1.  A session under the policies cannot insert a row in another
    user's name, nor any row when it is not authenticated: the INSERT
    into either table fails -- with the row-level security violation when
    the statement is well typed -- and the database is as before. *)
Theorem insert_for_another_user_refused (uid : option uuid) (g : uuid)
    (NOW : timestamptz) (db : database) :
  (forall c,
     ReadingProgress.user_id (ReadingProgress.with_defaults g NOW c) <> uid
     \/ uid = None ->
     is_ok (insert_reading_progress (app_user uid) c g NOW db) = false
     /\ execute (INSERT_reading_progress (app_user uid) c g NOW) db = db
     /\ (ReadingProgress.types_ok (ReadingProgress.with_defaults g NOW c)
         = true ->
         insert_reading_progress (app_user uid) c g NOW db
         = Err insufficient_privilege))
  /\ (forall c,
        ReadingSession.user_id (ReadingSession.with_defaults g NOW c) <> uid
        \/ uid = None ->
        is_ok (insert_reading_sessions (app_user uid) c g NOW db) = false
        /\ execute (INSERT_reading_sessions (app_user uid) c g NOW) db = db
        /\ (ReadingSession.types_ok (ReadingSession.with_defaults g NOW c)
            = true ->
            insert_reading_sessions (app_user uid) c g NOW db
            = Err insufficient_privilege)).
Proof.
  split; intros c Hc.
  - assert (Hpol : policy ReadingProgress.schema (app_user uid)
                     (ReadingProgress.with_defaults g NOW c) = false).
    { destruct Hc as [Hne| ->]; [|reflexivity].
      apply policy_not_owner. exact Hne. }
    destruct (insert_row_refused ReadingProgress.schema uid (auth_users db)
                (books db) _ (reading_progress db) Hpol) as [Hfail Herr].
    unfold insert_reading_progress. simpl execute.
    unfold insert_reading_progress.
    destruct (insert_row _ _ _ _ _ _) as [rows|e]; [discriminate|].
    split; [reflexivity|]. split; [reflexivity|].
    intros Hty. rewrite (Herr Hty). reflexivity.
  - assert (Hpol : policy ReadingSession.schema (app_user uid)
                     (ReadingSession.with_defaults g NOW c) = false).
    { destruct Hc as [Hne| ->]; [|reflexivity].
      apply policy_not_owner. exact Hne. }
    destruct (insert_row_refused ReadingSession.schema uid (auth_users db)
                (books db) _ (reading_sessions db) Hpol) as [Hfail Herr].
    unfold insert_reading_sessions. simpl execute.
    unfold insert_reading_sessions.
    destruct (insert_row _ _ _ _ _ _) as [rows|e]; [discriminate|].
    split; [reflexivity|]. split; [reflexivity|].
    intros Hty. rewrite (Herr Hty). reflexivity.
Qed.

Lemma insert_for_another_user_refused_witness :
  insert_reading_progress (app_user (Some alice)) bob_minimal_progress
    102%N 6 (after bob_reads) = Err insufficient_privilege
  /\ insert_reading_sessions (app_user (Some alice)) bob_minimal_session
       102%N 6 (after bob_reads) = Err insufficient_privilege.
Proof.
  destruct (insert_for_another_user_refused (Some alice) 102%N 6
              (after bob_reads)) as [Hp Hs].
  split.
  - apply (Hp bob_minimal_progress).
    + left. vm_compute. discriminate.
    + vm_compute. reflexivity.
  - apply (Hs bob_minimal_session).
    + left. vm_compute. discriminate.
    + vm_compute. reflexivity.
Defined.

(** X2.  A successful UPDATE by a session under the policies leaves every
    row with the user it had, and changes no row that belongs to another
    user (or to nobody); an unauthenticated session changes no row at all.
    It leaves the other table and the referenced tables alone. *)
Theorem update_changes_only_own_rows (uid : option uuid) (NOW : timestamptz)
    (db : database) :
  (forall assign cond db',
     update_reading_progress (app_user uid) assign cond NOW db = Ok db' ->
     Forall2 (fun OLD NEW =>
                ReadingProgress.user_id NEW = ReadingProgress.user_id OLD
                /\ (ReadingProgress.user_id OLD <> uid -> NEW = OLD)
                /\ (uid = None -> NEW = OLD))
             (reading_progress db) (reading_progress db')
     /\ reading_sessions db' = reading_sessions db
     /\ auth_users db' = auth_users db /\ books db' = books db)
  /\ (forall assign cond db',
        update_reading_sessions (app_user uid) assign cond NOW db = Ok db' ->
        Forall2 (fun OLD NEW =>
                   ReadingSession.user_id NEW = ReadingSession.user_id OLD
                   /\ (ReadingSession.user_id OLD <> uid -> NEW = OLD)
                   /\ (uid = None -> NEW = OLD))
                (reading_sessions db) (reading_sessions db')
        /\ reading_progress db' = reading_progress db
        /\ auth_users db' = auth_users db /\ books db' = books db).
Proof.
  split; intros assign cond db' (rows & Hupd & [= <-])%bind_ok; simpl.
  - split; [|auto].
    apply (update_rows_by_user ReadingProgress.schema) in Hupd. exact Hupd.
  - split; [|auto].
    apply (update_rows_by_user ReadingSession.schema) in Hupd. exact Hupd.
Qed.

Lemma update_changes_only_own_rows_witness :
  Forall2 (fun OLD NEW =>
             ReadingProgress.user_id NEW = ReadingProgress.user_id OLD
             /\ (ReadingProgress.user_id OLD <> Some bob -> NEW = OLD)
             /\ (Some bob = None -> NEW = OLD))
          (reading_progress (after bob_reads))
          (reading_progress
             (execute (UPDATE_reading_progress (app_user (Some bob))
                         finish_book every_row 9) (after bob_reads))).
Proof.
  apply (proj1 (update_changes_only_own_rows (Some bob) 9
                  (after bob_reads)) finish_book every_row
           (execute (UPDATE_reading_progress (app_user (Some bob))
                       finish_book every_row 9) (after bob_reads))).
  vm_compute. reflexivity.
Defined.

(** X3.  No statement issued by one session under the policies changes
    what a session with another identity reads: whatever it selects from
    either table, before and after, the result is the same. *)
Theorem other_sessions_do_not_change_a_view (uid uid' : option uuid)
    (s : statement) (db : database) :
  uid <> uid' -> issued_by uid s -> same_view uid' db (execute s db).
Proof.
  intros Hne Hs.
  destruct s; simpl in Hs; try contradiction; subst r; simpl.
  - destruct (insert_reading_progress _ _ _ _ _) eqn:H; simpl;
      [|apply same_view_refl].
    eapply view_after_insert_progress; eassumption.
  - destruct (update_reading_progress _ _ _ _ _) eqn:H; simpl;
      [|apply same_view_refl].
    eapply view_after_update_progress; eassumption.
  - unfold delete_reading_progress.
    rewrite delete_rows_by_user, with_reading_progress_same.
    apply same_view_refl.
  - destruct (insert_reading_sessions _ _ _ _ _) eqn:H; simpl;
      [|apply same_view_refl].
    eapply view_after_insert_sessions; eassumption.
  - destruct (update_reading_sessions _ _ _ _ _) eqn:H; simpl;
      [|apply same_view_refl].
    eapply view_after_update_sessions; eassumption.
  - unfold delete_reading_sessions.
    rewrite delete_rows_by_user, with_reading_sessions_same.
    apply same_view_refl.
  - unfold reportProgress. destruct (strict && _); simpl;
      [apply same_view_refl|].
    destruct (upsert_reading_progress _ _ _ _ _) eqn:H; simpl;
      [|apply same_view_refl].
    unfold upsert_reading_progress in H.
    rewrite !bind_guard_ok in H. destruct H as (_ & _ & _ & H).
    destruct (existsb _ _).
    + eapply view_after_update_progress; eassumption.
    + eapply view_after_insert_progress; eassumption.
  - unfold openSession.
    destruct (insert_reading_sessions _ _ _ _ _) eqn:H; simpl;
      [|apply same_view_refl].
    eapply view_after_insert_sessions; eassumption.
Qed.

Lemma other_sessions_do_not_change_a_view_witness :
  same_view (Some alice) (after bob_reads)
    (execute (UPDATE_reading_progress (app_user (Some bob)) finish_book
                every_row 9) (after bob_reads)).
Proof.
  apply (other_sessions_do_not_change_a_view (Some bob) (Some alice)).
  - vm_compute. discriminate.
  - reflexivity.
Defined.

(** X4.  A session that is not authenticated reads nothing from either
    table, and no statement it issues changes the database. *)
Theorem anonymous_session_reads_and_changes_nothing (s : statement)
    (db : database) :
  issued_by None s ->
  execute s db = db
  /\ (forall cond, select_reading_progress (app_user None) cond db = Ok [])
  /\ (forall cond, select_reading_sessions (app_user None) cond db = Ok []).
Proof.
  intros Hs. split; [|split].
  - destruct s; simpl in Hs; try contradiction; subst r; simpl.
    + unfold insert_reading_progress.
      destruct (insert_row_refused ReadingProgress.schema None
                  (auth_users db) (books db)
                  (ReadingProgress.with_defaults gen_random_uuid NOW c)
                  (reading_progress db) eq_refl) as [Hfail _].
      destruct (insert_row _ _ _ _ _ _); [discriminate|reflexivity].
    + unfold update_reading_progress. rewrite update_rows_anonymous. simpl.
      apply with_reading_progress_same.
    + unfold delete_reading_progress.
      rewrite delete_rows_by_user. apply with_reading_progress_same.
    + unfold insert_reading_sessions.
      destruct (insert_row_refused ReadingSession.schema None
                  (auth_users db) (books db)
                  (ReadingSession.with_defaults gen_random_uuid NOW c)
                  (reading_sessions db) eq_refl) as [Hfail _].
      destruct (insert_row _ _ _ _ _ _); [discriminate|reflexivity].
    + unfold update_reading_sessions. rewrite update_rows_anonymous. simpl.
      apply with_reading_sessions_same.
    + unfold delete_reading_sessions.
      rewrite delete_rows_by_user. apply with_reading_sessions_same.
    + unfold reportProgress. destruct (strict && _); [reflexivity|].
      unfold upsert_reading_progress.
      destruct (guard_or numeric_value_out_of_range _); reflexivity.
    + unfold openSession, insert_reading_sessions.
      destruct (insert_row_refused ReadingSession.schema None
                  (auth_users db) (books db)
                  (ReadingSession.with_defaults gen_random_uuid NOW
                     (opened_columns u b start))
                  (reading_sessions db) eq_refl) as [Hfail _].
      destruct (insert_row _ _ _ _ _ _); [discriminate|reflexivity].
  - intros cond. unfold select_reading_progress, select_rows. f_equal.
    apply filter_none. intros x _ H. discriminate.
  - intros cond. unfold select_reading_sessions, select_rows. f_equal.
    apply filter_none. intros x _ H. discriminate.
Qed.

Lemma anonymous_session_reads_and_changes_nothing_witness :
  execute (UPDATE_reading_progress (app_user None) finish_book every_row 9)
    (after bob_reads) = after bob_reads
  /\ (forall cond,
        select_reading_progress (app_user None) cond (after bob_reads)
        = Ok [])
  /\ (forall cond,
        select_reading_sessions (app_user None) cond (after bob_reads)
        = Ok []).
Proof.
  apply (anonymous_session_reads_and_changes_nothing
           (UPDATE_reading_progress (app_user None) finish_book every_row 9)).
  reflexivity.
Defined.

(** ** Keys *)

Lemma distinct_ids_nodup {row : Type} (T : table row) (rows : list row) :
  distinct_by (same_id T) rows = true ->
  Forall (fun x => col_id T x <> None) rows ->
  NoDup (map (col_id T) rows).
Proof.
  induction rows as [|x rows IH]; simpl; intros Hd Hnn; [constructor|].
  apply andb_prop in Hd as [Hx%negb_true_iff Hd].
  apply Forall_cons in Hnn as [Hxn Hnn].
  constructor; [|apply IH; assumption].
  intros (y & Hy & Hin)%list_elem_of_In%in_map_iff.
  assert (existsb (same_id T x) rows = true) as E; [|congruence].
  apply existsb_exists. exists y. split; [exact Hin|].
  unfold same_id. apply sql_eq_is_true.
  destruct (col_id T x) as [a|]; [|contradiction]. eauto.
Qed.

Lemma table_ok_ids {row : Type} (T : table row) (users books : gset uuid)
    (rows : list row) :
  (forall x, not_null T x = true -> col_id T x <> None) ->
  table_ok T users books rows = true ->
  NoDup (map (col_id T) rows) /\ Forall (fun x => col_id T x <> None) rows.
Proof.
  intros Hid Hok.
  assert (Hnn : Forall (fun x => col_id T x <> None) rows).
  { apply Forall_forall. intros x Hx.
    apply Hid. apply (table_ok_row T users books rows x Hok Hx). }
  split; [|exact Hnn]. apply distinct_ids_nodup; [|exact Hnn].
  unfold table_ok, keys_ok in Hok.
  apply andb_prop in Hok as [[[Hd _]%andb_prop _]%andb_prop _]. exact Hd.
Qed.

(** X5.  In every reachable state the primary key of each table
    identifies its rows: every [id] is non-NULL and no two rows of a table
    have the same [id]. *)
Theorem primary_keys_identify_rows (history : list statement) :
  NoDup (map ReadingProgress.id (reading_progress (after history)))
  /\ Forall (fun x => ReadingProgress.id x <> None)
            (reading_progress (after history))
  /\ NoDup (map ReadingSession.id (reading_sessions (after history)))
  /\ Forall (fun x => ReadingSession.id x <> None)
            (reading_sessions (after history)).
Proof.
  pose proof (after_consistent history) as [Hp Hs]%consistent_split.
  apply (table_ok_ids ReadingProgress.schema) in Hp.
  - apply (table_ok_ids ReadingSession.schema) in Hs; [tauto|].
    intros x. simpl. unfold ReadingSession.not_null_ok.
    destruct (ReadingSession.id x); [discriminate|]. discriminate.
  - intros x. simpl. unfold ReadingProgress.not_null_ok.
    destruct (ReadingProgress.id x); [discriminate|]. discriminate.
Qed.

(** ** Refused inserts *)

Section InsertFacts.
Context {row : Type} (T : table row).

Lemma insert_row_err (r : role) (users books : gset uuid) (x : row)
    (rows : list row) :
  insert_row T r users books x rows
  = if negb (well_typed T x) then Err numeric_value_out_of_range
    else if negb (policy T r x) then Err insufficient_privilege
    else if negb (not_null T x) then Err not_null_violation
    else if pk_conflict T x rows then Err unique_violation
    else if user_book_conflict T x rows then Err unique_violation
    else if negb (fk_ok T users books x) then Err foreign_key_violation
    else Ok (rows ++ [x]).
Proof.
  unfold insert_row, check_new_row.
  destruct (well_typed T x), (policy T r x), (not_null T x),
    (pk_conflict T x rows), (user_book_conflict T x rows),
    (fk_ok T users books x); reflexivity.
Qed.

Lemma insert_row_fails (r : role) (users books : gset uuid) (x : row)
    (rows : list row) :
  well_typed T x = false \/ policy T r x = false \/ not_null T x = false
  \/ pk_conflict T x rows = true \/ user_book_conflict T x rows = true
  \/ fk_ok T users books x = false ->
  is_ok (insert_row T r users books x rows) = false.
Proof.
  rewrite insert_row_err.
  destruct (well_typed T x), (policy T r x), (not_null T x),
    (pk_conflict T x rows), (user_book_conflict T x rows),
    (fk_ok T users books x); simpl; intuition discriminate.
Qed.

Lemma fk_ok_false_user (users books : gset uuid) (x : row) (u : uuid) :
  col_user_id T x = Some u -> u ∉ users -> fk_ok T users books x = false.
Proof.
  intros Hx Hu. unfold fk_ok. rewrite Hx. simpl.
  rewrite bool_decide_eq_false_2 by exact Hu. reflexivity.
Qed.

Lemma fk_ok_false_book (users books : gset uuid) (x : row) (b : uuid) :
  col_book_id T x = Some b -> b ∉ books -> fk_ok T users books x = false.
Proof.
  intros Hx Hb. unfold fk_ok. rewrite Hx. simpl.
  rewrite bool_decide_eq_false_2 by exact Hb. apply andb_false_r.
Qed.

(** The row an INSERT stored can be read back by its primary key, by the
    role that inserted it, and it is the only row with that key. *)
Lemma insert_then_select (r : role) (users books : gset uuid) (x : row)
    (rows rows' : list row) :
  (forall y, not_null T y = true -> col_id T y <> None) ->
  insert_row T r users books x rows = Ok rows' ->
  select_rows T r (same_id T x) rows' = [x].
Proof.
  intros Hkey (_ & Hchk & _ & ->)%insert_row_ok.
  apply check_new_row_ok in Hchk as (Hpol & Hnn & Hpk & _).
  unfold select_rows. rewrite filter_app, filter_cons, filter_nil.
  assert (filter (fun y => targeted T r (same_id T x) y = true) rows = [])
    as ->.
  { apply filter_none. intros y Hy Htg. unfold targeted in Htg.
    apply andb_prop in Htg as [_ Hsame].
    unfold pk_conflict in Hpk.
    assert (existsb (same_id T x) rows = true) as E; [|congruence].
    apply existsb_exists. exists y. split; [|exact Hsame].
    apply list_elem_of_In, Hy. }
  simpl. destruct (decide _) as [_|Hn]; [reflexivity|].
  exfalso. apply Hn. unfold targeted. rewrite Hpol. simpl.
  unfold same_id. apply sql_eq_is_true.
  specialize (Hkey x Hnn). destruct (col_id T x) as [a|]; [eauto|].
  contradiction.
Qed.

End InsertFacts.

Lemma insert_reading_progress_is_ok r c g NOW db :
  is_ok (insert_reading_progress r c g NOW db)
  = is_ok (insert_row ReadingProgress.schema r (auth_users db) (books db)
             (ReadingProgress.with_defaults g NOW c) (reading_progress db)).
Proof.
  unfold insert_reading_progress. destruct (insert_row _ _ _ _ _ _);
    reflexivity.
Qed.

Lemma insert_reading_sessions_is_ok r c g NOW db :
  is_ok (insert_reading_sessions r c g NOW db)
  = is_ok (insert_row ReadingSession.schema r (auth_users db) (books db)
             (ReadingSession.with_defaults g NOW c) (reading_sessions db)).
Proof.
  unfold insert_reading_sessions. destruct (insert_row _ _ _ _ _ _);
    reflexivity.
Qed.

Lemma committed_failed {E} (db : database) (m : result E database) :
  is_ok m = false -> committed db m = db.
Proof. destruct m; [discriminate|reflexivity]. Qed.

(** X6.  An INSERT into [reading_progress] for a (user, book) pair that
    already has a row never succeeds, whoever issues it, and the database
    is as before; when the statement is well typed, passes the INSERT
    policy and has no NULL in a NOT NULL column, the condition raised is
    the unique violation. *)
Theorem second_row_for_pair_refused (r : role)
    (c : ReadingProgress.insert_columns) (g : uuid) (NOW : timestamptz)
    (db : database) (u b : uuid) :
  ReadingProgress.user_id (ReadingProgress.with_defaults g NOW c) = Some u ->
  ReadingProgress.book_id (ReadingProgress.with_defaults g NOW c) = Some b ->
  progress_of u b db <> [] ->
  is_ok (insert_reading_progress r c g NOW db) = false
  /\ execute (INSERT_reading_progress r c g NOW) db = db
  /\ (ReadingProgress.types_ok (ReadingProgress.with_defaults g NOW c) = true ->
      policy ReadingProgress.schema r
        (ReadingProgress.with_defaults g NOW c) = true ->
      ReadingProgress.not_null_ok (ReadingProgress.with_defaults g NOW c)
      = true ->
      insert_reading_progress r c g NOW db = Err unique_violation).
Proof.
  intros Hu Hb Hne.
  assert (Hub : user_book_conflict ReadingProgress.schema
                  (ReadingProgress.with_defaults g NOW c)
                  (reading_progress db) = true).
  { unfold user_book_conflict.
    rewrite (progress_of_conflict _ u b db Hu Hb).
    rewrite bool_decide_eq_false_2 by exact Hne. reflexivity. }
  assert (Hfail : is_ok (insert_reading_progress r c g NOW db) = false).
  { rewrite insert_reading_progress_is_ok. apply insert_row_fails. tauto. }
  split; [exact Hfail|]. split; [apply committed_failed, Hfail|].
  intros Hty Hpol Hnn. unfold insert_reading_progress.
  rewrite insert_row_err. cbn [well_typed not_null ReadingProgress.schema].
  rewrite Hty, Hnn, Hpol, Hub. simpl.
  destruct (pk_conflict _ _ _); reflexivity.
Qed.

Lemma second_row_for_pair_refused_witness :
  insert_reading_progress (app_user (Some bob)) bob_minimal_progress 102%N 6
    (after bob_reads) = Err unique_violation.
Proof.
  apply (second_row_for_pair_refused (app_user (Some bob))
           bob_minimal_progress 102%N 6 (after bob_reads) bob novel).
  - reflexivity.
  - reflexivity.
  - vm_compute. discriminate.
  - vm_compute. reflexivity.
  - vm_compute. reflexivity.
  - vm_compute. reflexivity.
Defined.

(** X7.  An INSERT into either table whose [user_id] names no existing
    user, or whose [book_id] names no existing book, never succeeds; when
    every other check passes, the condition raised is the foreign-key
    violation. *)
Theorem dangling_reference_refused (r : role) (g : uuid) (NOW : timestamptz)
    (db : database) (k : uuid) :
  (forall c,
     ReadingProgress.user_id (ReadingProgress.with_defaults g NOW c) = Some k
     /\ k ∉ auth_users db
     \/ ReadingProgress.book_id (ReadingProgress.with_defaults g NOW c)
        = Some k
        /\ k ∉ books db ->
     is_ok (insert_reading_progress r c g NOW db) = false
     /\ (ReadingProgress.types_ok (ReadingProgress.with_defaults g NOW c)
         = true ->
         check_new_row ReadingProgress.schema r
           (ReadingProgress.with_defaults g NOW c) (reading_progress db)
         = Ok tt ->
         insert_reading_progress r c g NOW db = Err foreign_key_violation))
  /\ (forall c,
        ReadingSession.user_id (ReadingSession.with_defaults g NOW c) = Some k
        /\ k ∉ auth_users db
        \/ ReadingSession.book_id (ReadingSession.with_defaults g NOW c)
           = Some k
           /\ k ∉ books db ->
        is_ok (insert_reading_sessions r c g NOW db) = false
        /\ (ReadingSession.types_ok (ReadingSession.with_defaults g NOW c)
            = true ->
            check_new_row ReadingSession.schema r
              (ReadingSession.with_defaults g NOW c) (reading_sessions db)
            = Ok tt ->
            insert_reading_sessions r c g NOW db
            = Err foreign_key_violation)).
Proof.
  split; intros c Hc.
  - assert (Hfk : fk_ok ReadingProgress.schema (auth_users db) (books db)
                    (ReadingProgress.with_defaults g NOW c) = false).
    { destruct Hc as [[Hx Hk]|[Hx Hk]].
      - apply (fk_ok_false_user ReadingProgress.schema _ _ _ k Hx Hk).
      - apply (fk_ok_false_book ReadingProgress.schema _ _ _ k Hx Hk). }
    split.
    + rewrite insert_reading_progress_is_ok. apply insert_row_fails. tauto.
    + intros Hty Hchk. unfold insert_reading_progress, insert_row.
      cbn [well_typed ReadingProgress.schema]. rewrite Hty, Hchk, Hfk.
      reflexivity.
  - assert (Hfk : fk_ok ReadingSession.schema (auth_users db) (books db)
                    (ReadingSession.with_defaults g NOW c) = false).
    { destruct Hc as [[Hx Hk]|[Hx Hk]].
      - apply (fk_ok_false_user ReadingSession.schema _ _ _ k Hx Hk).
      - apply (fk_ok_false_book ReadingSession.schema _ _ _ k Hx Hk). }
    split.
    + rewrite insert_reading_sessions_is_ok. apply insert_row_fails. tauto.
    + intros Hty Hchk. unfold insert_reading_sessions, insert_row.
      cbn [well_typed ReadingSession.schema]. rewrite Hty, Hchk, Hfk.
      reflexivity.
Qed.

Lemma dangling_reference_refused_witness :
  insert_reading_progress (app_user (Some bob))
    (minimal_progress (Some bob) (Some atlas) 300) 102%N 6 (after bob_reads)
  = Err foreign_key_violation
  /\ is_ok (insert_reading_sessions table_owner
              (minimal_session (Some atlas) (Some novel) 6) 102%N 6
              (after bob_reads)) = false.
Proof.
  destruct (dangling_reference_refused (app_user (Some bob)) 102%N 6
              (after bob_reads) atlas) as [Hp _].
  destruct (dangling_reference_refused table_owner 102%N 6
              (after bob_reads) atlas) as [_ Hs].
  split.
  - apply (Hp (minimal_progress (Some bob) (Some atlas) 300)).
    + right. split; [reflexivity|].
      apply (bool_decide_unpack _). vm_compute. exact I.
    + vm_compute. reflexivity.
    + vm_compute. reflexivity.
  - apply (Hs (minimal_session (Some atlas) (Some novel) 6)).
    left. split; [reflexivity|].
    apply (bool_decide_unpack _). vm_compute. exact I.
Defined.

(** X8.  [start_time] is required: an INSERT into [reading_sessions] whose
    [start_time] is left out or NULL never succeeds (it raises the
    not-null violation when it is well typed and passes the INSERT policy),
    and in every reachable state every session has a [start_time]. *)
Theorem sessions_have_a_start_time (history : list statement) :
  (forall r c g NOW db,
     ReadingSession.start_time (ReadingSession.with_defaults g NOW c) = None ->
     is_ok (insert_reading_sessions r c g NOW db) = false
     /\ (ReadingSession.types_ok (ReadingSession.with_defaults g NOW c)
         = true ->
         policy ReadingSession.schema r
           (ReadingSession.with_defaults g NOW c) = true ->
         insert_reading_sessions r c g NOW db = Err not_null_violation))
  /\ Forall (fun x => ReadingSession.start_time x <> None)
            (reading_sessions (after history)).
Proof.
  split.
  - intros r c g NOW db Hnull.
    assert (Hnn : ReadingSession.not_null_ok
                    (ReadingSession.with_defaults g NOW c) = false).
    { unfold ReadingSession.not_null_ok. rewrite Hnull.
      destruct (ReadingSession.id _); reflexivity. }
    split.
    + rewrite insert_reading_sessions_is_ok. apply insert_row_fails. tauto.
    + intros Hty Hpol. unfold insert_reading_sessions.
      rewrite insert_row_err. cbn [well_typed not_null ReadingSession.schema].
      rewrite Hty, Hpol, Hnn. reflexivity.
  - apply Forall_forall. intros x (_ & Hnn & _)%after_row_session.
    unfold ReadingSession.not_null_ok in Hnn.
    destruct (ReadingSession.start_time x); [discriminate|].
    rewrite andb_false_r in Hnn. discriminate.
Qed.

Lemma sessions_have_a_start_time_witness :
  insert_reading_sessions (app_user (Some bob))
    (session_without_start bob novel) 102%N 6 (after bob_reads)
  = Err not_null_violation.
Proof.
  apply (proj1 (sessions_have_a_start_time [])).
  - reflexivity.
  - reflexivity.
  - vm_compute. reflexivity.
Defined.

Section TypeChecks.
Context {row : Type} (T : table row).

(** The column types are checked first: an UPDATE whose new rows do not
    fit them stops at the first row it acts on. *)
Lemma update_loop_out_of_range (r : role) (assign : row -> row)
    (cond : row -> bool) (now : timestamptz) (todo done : list row) :
  (forall x, x ∈ todo -> targeted T r cond x = true ->
     well_typed T (new_version T assign now x) = false) ->
  existsb (targeted T r cond) todo = true ->
  update_loop T r assign cond now done todo
  = Err numeric_value_out_of_range.
Proof.
  revert done. induction todo as [|OLD rest IH]; simpl; intros done Hnew Hex.
  - discriminate.
  - destruct (targeted T r cond OLD) eqn:Htg; simpl in Hex.
    + rewrite (Hnew OLD (list_elem_of_here _ _) Htg). reflexivity.
    + apply IH; [|exact Hex].
      intros x Hx. apply Hnew. apply list_elem_of_further, Hx.
Qed.

Lemma update_rows_out_of_range (r : role) (users books : gset uuid)
    (assign : row -> row) (cond : row -> bool) (now : timestamptz)
    (rows : list row) :
  (forall x, x ∈ rows -> targeted T r cond x = true ->
     well_typed T (new_version T assign now x) = false) ->
  existsb (targeted T r cond) rows = true ->
  update_rows T r users books assign cond now rows
  = Err numeric_value_out_of_range.
Proof.
  intros Hnew Hex. unfold update_rows.
  rewrite (update_loop_out_of_range r assign cond now rows [] Hnew Hex).
  reflexivity.
Qed.

End TypeChecks.

Lemma set_progress_succeeds (db : database) (r : role) (v : numeric)
    (cond : ReadingProgress.row -> bool) (NOW : timestamptz) :
  consistent db = true -> is_decimal_5_2 (to_scale_2 v) = true ->
  update_reading_progress r (set_progress (Some v)) cond NOW db
  = Ok (with_reading_progress
          (map (updated ReadingProgress.schema r (set_progress (Some v))
                  cond NOW)
               (reading_progress db)) db).
Proof.
  intros [Hp _]%consistent_split Hv. unfold update_reading_progress.
  rewrite (update_rows_same_keys ReadingProgress.schema); [reflexivity| |].
  - unfold table_ok in Hp. apply andb_prop in Hp as [[Hk _]%andb_prop _].
    exact Hk.
  - intros x Hx _.
    destruct (table_ok_row _ _ _ _ x Hp Hx) as (Hty & Hnn & _).
    split; [repeat split|].
    cbn [well_typed not_null ReadingProgress.schema] in *.
    unfold ReadingProgress.types_ok, ReadingProgress.not_null_ok in *.
    simpl. rewrite Hv.
    apply andb_prop in Hty as [-> _].
    apply andb_prop in Hnn as [-> _]. auto.
Qed.

Lemma round_half_away_nearest (m d : Z) :
  0 < d ->
  2 * Z.abs (round_half_away m d * d - m) <= d
  /\ (2 * Z.abs (round_half_away m d * d - m) = d ->
      Z.abs m < Z.abs (round_half_away m d) * d).
Proof.
  intros Hd. unfold round_half_away.
  pose proof (Z.div_mod (2 * Z.abs m + d) (2 * d) ltac:(lia)) as Hdm.
  pose proof (Z.mod_pos_bound (2 * Z.abs m + d) (2 * d) ltac:(lia)) as Hm.
  set (q := (2 * Z.abs m + d) / (2 * d)) in *.
  set (s := (2 * Z.abs m + d) mod (2 * d)) in *.
  assert (Hq : 0 <= q) by (apply Z.div_pos; lia).
  destruct (Z.sgn_spec m) as [[Hpos E]|[[Hz E]|[Hneg E]]]; rewrite E.
  - assert (Ha : Z.abs m = m) by lia. rewrite Ha in Hdm.
    replace (1 * q) with q by lia. rewrite (Z.abs_eq q) by lia.
    split; [|intros H]; nia.
  - subst m. change (Z.abs 0) with 0 in *.
    assert (q = 0) as ->.
    { destruct (Z.eq_dec q 0) as [|Hne]; [assumption|].
      assert (2 * d * 1 <= 2 * d * q)
        by (apply Z.mul_le_mono_nonneg_l; lia).
      lia. }
    change (0 * 0 * d - 0) with (0 * d - 0). split; [|intros H]; lia.
  - assert (Ha : Z.abs m = - m) by lia. rewrite Ha in Hdm.
    replace (- (1) * q) with (- q) by lia. rewrite (Z.abs_neq (- q)) by lia.
    split; [|intros H]; nia.
Qed.

Lemma types_ok_out_of_range (x : ReadingProgress.row) (v : decimal_5_2) :
  ReadingProgress.progress x = Some v -> is_decimal_5_2 v = false ->
  ReadingProgress.types_ok x = false.
Proof.
  intros Hx Hv. unfold ReadingProgress.types_ok. rewrite Hx. simpl.
  rewrite Hv. apply andb_false_r.
Qed.

(** X9.  [progress] is a DECIMAL(5,2).  The value an INSERT or an UPDATE
    gives is brought to two decimals, exactly when it has no more and
    otherwise rounded to the nearest hundredth, away from zero on a tie,
    and the rounded value is what is checked and stored: an infinity, or a
    value whose rounding exceeds 999.99 in magnitude, raises "numeric value
    out of range" before any other check, in an INSERT always and in an
    UPDATE that acts on a row; NaN, and any value whose rounding is within
    999.99, above 100.00 or negative included, is stored (rounded) by an
    INSERT that is otherwise valid and by an UPDATE in each row it acts on.
    In every reachable state every stored [progress] is non-NULL and is
    NaN or a number of hundredths within 999.99 in magnitude. *)
Theorem progress_is_a_decimal_5_2 (history : list statement) :
  (forall m e,
     (e <= 2)%nat ->
     to_scale_2 (Decimal m e) = hundredths (m * 10 ^ Z.of_nat (2 - e)))
  /\ to_scale_2 NaN = not_a_number
  /\ (forall m k,
     to_scale_2 (Decimal m (3 + k))
     = hundredths (round_half_away m (10 ^ Z.of_nat (S k)))
     /\ 2 * Z.abs (round_half_away m (10 ^ Z.of_nat (S k))
                   * 10 ^ Z.of_nat (S k) - m)
        <= 10 ^ Z.of_nat (S k)
     /\ (2 * Z.abs (round_half_away m (10 ^ Z.of_nat (S k))
                    * 10 ^ Z.of_nat (S k) - m)
         = 10 ^ Z.of_nat (S k) ->
         Z.abs m
         < Z.abs (round_half_away m (10 ^ Z.of_nat (S k)))
           * 10 ^ Z.of_nat (S k)))
  /\ (forall r c g NOW db v,
        ReadingProgress.in_progress c = VALUE (Some v) ->
        (exists negative, v = Infinity negative)
        \/ (exists h, to_scale_2 v = hundredths h
                      /\ (h < -99999 \/ 99999 < h)) ->
        insert_reading_progress r c g NOW db
        = Err numeric_value_out_of_range)
  /\ Forall (fun x => ReadingProgress.progress x = Some not_a_number
                      \/ exists h, ReadingProgress.progress x
                                   = Some (hundredths h)
                                   /\ -99999 <= h <= 99999)
            (reading_progress (after history))
  /\ (forall r u b t v g NOW,
        may_write r u ->
        u ∈ auth_users (after history) -> b ∈ books (after history) ->
        is_int4 t = true ->
        v = NaN
        \/ (exists h, to_scale_2 v = hundredths h /\ -99999 <= h <= 99999) ->
        progress_of u b (after history) = [] ->
        Some g ∉ map ReadingProgress.id (reading_progress (after history)) ->
        exists x,
          insert_reading_progress r (progress_columns u b t v) g NOW
            (after history)
          = Ok (with_reading_progress
                  (reading_progress (after history) ++ [x]) (after history))
          /\ ReadingProgress.progress x = Some (to_scale_2 v))
  /\ (forall r v cond NOW db,
        (exists negative, v = Infinity negative)
        \/ (exists h, to_scale_2 v = hundredths h
                      /\ (h < -99999 \/ 99999 < h)) ->
        existsb (targeted ReadingProgress.schema r cond) (reading_progress db)
        = true ->
        update_reading_progress r (set_progress (Some v)) cond NOW db
        = Err numeric_value_out_of_range)
  /\ (forall r v cond NOW,
        v = NaN
        \/ (exists h, to_scale_2 v = hundredths h /\ -99999 <= h <= 99999) ->
        exists db',
          update_reading_progress r (set_progress (Some v)) cond NOW
            (after history) = Ok db'
          /\ Forall2 (fun OLD NEW =>
                        if targeted ReadingProgress.schema r cond OLD
                        then ReadingProgress.progress NEW
                             = Some (to_scale_2 v)
                        else NEW = OLD)
                     (reading_progress (after history))
                     (reading_progress db')).
Proof.
  assert (Hrange : forall v,
            (exists negative, v = Infinity negative)
            \/ (exists h, to_scale_2 v = hundredths h
                          /\ (h < -99999 \/ 99999 < h)) ->
            is_decimal_5_2 (to_scale_2 v) = false).
  { intros v [[s ->]|(h & -> & Hh)]; [reflexivity|].
    simpl. apply andb_false_iff. rewrite !Z.leb_gt. lia. }
  assert (Hfits : forall v,
            v = NaN
            \/ (exists h, to_scale_2 v = hundredths h
                          /\ -99999 <= h <= 99999) ->
            is_decimal_5_2 (to_scale_2 v) = true).
  { intros v [->|(h & -> & Hh)]; [reflexivity|].
    simpl. apply andb_true_intro. rewrite !Z.leb_le. lia. }
  split; [|split; [reflexivity|]].
  { intros m [|[|[|e]]] He; [| | |lia]; simpl; f_equal; lia. }
  split; [|split; [|split; [|split; [|split]]]].
  - intros m k. split; [reflexivity|].
    apply round_half_away_nearest. apply Z.pow_pos_nonneg; lia.
  - intros r c g NOW db v Hc Hv.
    unfold insert_reading_progress. rewrite insert_row_err.
    cbn [well_typed ReadingProgress.schema].
    rewrite (types_ok_out_of_range _ (to_scale_2 v)); [reflexivity| |].
    + simpl. rewrite Hc. reflexivity.
    + apply Hrange, Hv.
  - apply Forall_forall. intros x (Hty & Hnn & _)%after_row_progress.
    unfold ReadingProgress.types_ok, ReadingProgress.not_null_ok in *.
    destruct (ReadingProgress.progress x) as [[|s|h]|];
      [left; reflexivity| | |rewrite andb_false_r in Hnn; discriminate].
    + apply andb_prop in Hty as [_ Hp]. discriminate.
    + right. exists h. split; [reflexivity|].
      apply andb_prop in Hty as [_ Hp]. simpl in Hp.
      apply andb_prop in Hp as [H1%Z.leb_le H2%Z.leb_le]. lia.
  - intros r u b t v g NOW Hr Hu Hb Ht Hv Hnone Hg.
    exists (ReadingProgress.with_defaults g NOW (progress_columns u b t v)).
    split; [|reflexivity].
    unfold insert_reading_progress.
    rewrite (insert_row_succeeds ReadingProgress.schema); [reflexivity|..].
    + simpl. unfold ReadingProgress.types_ok. simpl. rewrite Ht. simpl.
      apply Hfits, Hv.
    + apply (may_write_policy ReadingProgress.schema r u);
        [exact Hr|reflexivity].
    + simpl. unfold ReadingProgress.not_null_ok. simpl. reflexivity.
    + apply (fresh_id_no_conflict _ _ g); [reflexivity|exact Hg].
    + unfold user_book_conflict. simpl.
      rewrite (progress_of_conflict _ u b (after history)), Hnone
        by reflexivity.
      reflexivity.
    + apply (fk_ok_exists _ _ _ _ (Some u) (Some b));
        try reflexivity; apply references_elem; assumption.
  - intros r v cond NOW db Hv Hex. unfold update_reading_progress.
    rewrite (update_rows_out_of_range ReadingProgress.schema);
      [reflexivity| |exact Hex].
    intros x _ _. cbn [well_typed ReadingProgress.schema].
    apply (types_ok_out_of_range _ (to_scale_2 v)); [reflexivity|].
    apply Hrange, Hv.
  - intros r v cond NOW Hv. eexists. split.
    + apply set_progress_succeeds; [apply after_consistent|].
      apply Hfits, Hv.
    + simpl. apply Forall2_map_r. intros x. unfold updated.
      destruct (targeted _ r cond x); reflexivity.
Qed.

Lemma progress_is_a_decimal_5_2_witness :
  insert_reading_progress (app_user (Some alice))
    (progress_columns alice novel 300 (Decimal 999995 3)) 102%N 6
    (after bob_reads)
  = Err numeric_value_out_of_range
  /\ (exists x,
        insert_reading_progress (app_user (Some alice))
          (progress_columns alice novel 300 (Decimal 999994 3)) 102%N 6
          (after bob_reads)
        = Ok (with_reading_progress
                (reading_progress (after bob_reads) ++ [x]) (after bob_reads))
        /\ ReadingProgress.progress x = Some (to_scale_2 (Decimal 999994 3)))
  /\ update_reading_progress (app_user (Some bob))
       (set_progress (Some (Decimal 1000 0))) every_row 9 (after bob_reads)
     = Err numeric_value_out_of_range
  /\ (exists db',
        update_reading_progress (app_user (Some bob))
          (set_progress (Some (Decimal 25005 3))) every_row 9
          (after bob_reads) = Ok db'
        /\ map ReadingProgress.progress (reading_progress db')
           = [Some (hundredths 2501)])
  /\ to_scale_2 (Decimal 999994 3) = hundredths 99999
  /\ to_scale_2 (Decimal 25005 3) = hundredths 2501
  /\ to_scale_2 (Decimal (-25005) 3) = hundredths (-2501)
  /\ to_scale_2 (Decimal 5 1) = hundredths 50.
Proof.
  destruct (progress_is_a_decimal_5_2 bob_reads)
    as (Hexact & _ & _ & Hout & _ & Hin & Hupd_out & Hupd_in).
  split; [|split; [|split; [|split]]].
  - apply (Hout _ _ _ _ _ (Decimal 999995 3)); [reflexivity|].
    right. exists 100000. split; [vm_compute; reflexivity|lia].
  - apply Hin.
    + right. reflexivity.
    + apply (bool_decide_unpack _). vm_compute. exact I.
    + apply (bool_decide_unpack _). vm_compute. exact I.
    + vm_compute. reflexivity.
    + right. exists 99999. split; [vm_compute; reflexivity|lia].
    + vm_compute. reflexivity.
    + apply (bool_decide_unpack _). vm_compute. exact I.
  - apply Hupd_out; [|vm_compute; reflexivity].
    right. exists 100000. split; [vm_compute; reflexivity|lia].
  - destruct (Hupd_in (app_user (Some bob)) (Decimal 25005 3) every_row 9)
      as (db' & Hdb' & Hrows).
    { right. exists 2501. split; [vm_compute; reflexivity|lia]. }
    exists db'. split; [exact Hdb'|].
    vm_compute in Hdb'. injection Hdb' as <-. vm_compute. reflexivity.
  - split; [vm_compute; reflexivity|].
    split; [vm_compute; reflexivity|].
    split; [vm_compute; reflexivity|].
    rewrite (Hexact 5 1%nat) by lia. reflexivity.
Defined.

Lemma insert_progress_lengths r c g NOW db db' :
  insert_reading_progress r c g NOW db = Ok db' ->
  length (reading_progress db') = S (length (reading_progress db))
  /\ reading_sessions db' = reading_sessions db.
Proof.
  intros (rows & (_ & _ & _ & ->)%insert_row_ok & [= <-])%bind_ok. simpl.
  rewrite length_app. simpl. split; [lia|reflexivity].
Qed.

Lemma insert_sessions_lengths r c g NOW db db' :
  insert_reading_sessions r c g NOW db = Ok db' ->
  length (reading_sessions db') = S (length (reading_sessions db))
  /\ reading_progress db' = reading_progress db.
Proof.
  intros (rows & (_ & _ & _ & ->)%insert_row_ok & [= <-])%bind_ok. simpl.
  rewrite length_app. simpl. split; [lia|reflexivity].
Qed.

Lemma update_progress_lengths r assign cond NOW db db' :
  update_reading_progress r assign cond NOW db = Ok db' ->
  length (reading_progress db') = length (reading_progress db)
  /\ reading_sessions db' = reading_sessions db.
Proof.
  intros ->%update_reading_progress_ok. simpl. rewrite length_map. auto.
Qed.

Lemma update_sessions_lengths r assign cond NOW db db' :
  update_reading_sessions r assign cond NOW db = Ok db' ->
  length (reading_sessions db') = length (reading_sessions db)
  /\ reading_progress db' = reading_progress db.
Proof.
  intros ->%update_reading_sessions_ok. simpl. rewrite length_map. auto.
Qed.

(** X10.  No statement issued by a session under the policies removes a
    row: the migration creates no policy FOR DELETE, an UPDATE replaces
    rows in place and an INSERT adds one, so each table keeps its rows or
    gains exactly one. *)
Theorem sessions_never_remove_rows (uid : option uuid) (s : statement)
    (db : database) :
  issued_by uid s ->
  (length (reading_progress db) <= length (reading_progress (execute s db))
   <= length (reading_progress db) + 1)%nat
  /\ (length (reading_sessions db) <= length (reading_sessions (execute s db))
      <= length (reading_sessions db) + 1)%nat.
Proof.
  intros Hs.
  destruct s; simpl in Hs; try contradiction; subst r; simpl.
  - destruct (insert_reading_progress _ _ _ _ _) eqn:H; simpl; [|lia].
    apply insert_progress_lengths in H as [-> ->]. lia.
  - destruct (update_reading_progress _ _ _ _ _) eqn:H; simpl; [|lia].
    apply update_progress_lengths in H as [-> ->]. lia.
  - rewrite delete_rows_by_user. lia.
  - destruct (insert_reading_sessions _ _ _ _ _) eqn:H; simpl; [|lia].
    apply insert_sessions_lengths in H as [-> ->]. lia.
  - destruct (update_reading_sessions _ _ _ _ _) eqn:H; simpl; [|lia].
    apply update_sessions_lengths in H as [-> ->]. lia.
  - rewrite delete_rows_by_user. lia.
  - unfold reportProgress. destruct (strict && _); simpl; [lia|].
    destruct (upsert_reading_progress _ _ _ _ _) eqn:H; simpl; [|lia].
    unfold upsert_reading_progress in H.
    rewrite !bind_guard_ok in H. destruct H as (_ & _ & _ & H).
    destruct (existsb _ _).
    + apply update_progress_lengths in H as [-> ->]. lia.
    + apply insert_progress_lengths in H as [-> ->]. lia.
  - unfold openSession.
    destruct (insert_reading_sessions _ _ _ _ _) eqn:H; simpl; [|lia].
    apply insert_sessions_lengths in H as [-> ->]. lia.
Qed.

Lemma sessions_never_remove_rows_witness :
  (length (reading_progress (after bob_reads))
   <= length (reading_progress
                (execute (DELETE_reading_progress (app_user (Some bob))
                            every_row) (after bob_reads)))
   <= length (reading_progress (after bob_reads)) + 1)%nat
  /\ (length (reading_sessions (after bob_reads))
      <= length (reading_sessions
                   (execute (DELETE_reading_progress (app_user (Some bob))
                               every_row) (after bob_reads)))
      <= length (reading_sessions (after bob_reads)) + 1)%nat.
Proof.
  apply (sessions_never_remove_rows (Some bob)
           (DELETE_reading_progress (app_user (Some bob)) every_row)).
  reflexivity.
Defined.

(** X11.  The row a successful INSERT stored is read back by its primary
    key: selecting, as the role that inserted it, the rows whose [id]
    equals the new row's returns that row and no other. *)
Theorem inserted_row_is_read_back (r : role) (g : uuid) (NOW : timestamptz)
    (db : database) :
  (forall c db',
     insert_reading_progress r c g NOW db = Ok db' ->
     select_reading_progress r
       (same_id ReadingProgress.schema
          (ReadingProgress.with_defaults g NOW c)) db'
     = Ok [ReadingProgress.with_defaults g NOW c])
  /\ (forall c db',
        insert_reading_sessions r c g NOW db = Ok db' ->
        select_reading_sessions r
          (same_id ReadingSession.schema
             (ReadingSession.with_defaults g NOW c)) db'
        = Ok [ReadingSession.with_defaults g NOW c]).
Proof.
  split; intros c db' (rows & Hins & [= <-])%bind_ok.
  - unfold select_reading_progress. simpl. f_equal.
    apply (insert_then_select ReadingProgress.schema) in Hins; [exact Hins|].
    intros y. simpl. unfold ReadingProgress.not_null_ok.
    destruct (ReadingProgress.id y); [discriminate|]. discriminate.
  - unfold select_reading_sessions. simpl. f_equal.
    apply (insert_then_select ReadingSession.schema) in Hins; [exact Hins|].
    intros y. simpl. unfold ReadingSession.not_null_ok.
    destruct (ReadingSession.id y); [discriminate|]. discriminate.
Qed.

Lemma inserted_row_is_read_back_witness :
  select_reading_progress (app_user (Some alice))
    (same_id ReadingProgress.schema
       (ReadingProgress.with_defaults 102%N 6
          (minimal_progress (Some alice) (Some novel) 300)))
    (execute (INSERT_reading_progress (app_user (Some alice))
                (minimal_progress (Some alice) (Some novel) 300) 102%N 6)
       (after bob_reads))
  = Ok [ReadingProgress.with_defaults 102%N 6
          (minimal_progress (Some alice) (Some novel) 300)].
Proof.
  apply (proj1 (inserted_row_is_read_back (app_user (Some alice)) 102%N 6
                  (after bob_reads))).
  vm_compute. reflexivity.
Defined.

(** ** Cascades seen by the other users *)

Lemma filter_filter_implied {A} (P Q : A -> Prop)
    `{forall x, Decision (P x)} `{forall x, Decision (Q x)} (l : list A) :
  (forall x, P x -> Q x) -> filter P (filter Q l) = filter P l.
Proof.
  intros HPQ. induction l as [|a l IH]; [reflexivity|].
  rewrite (filter_cons Q), (filter_cons P).
  destruct (decide (Q a)) as [Qa|nQa].
  - rewrite filter_cons, IH. reflexivity.
  - rewrite IH. destruct (decide (P a)) as [Pa|_]; [|reflexivity].
    exfalso. apply nQa, HPQ, Pa.
Qed.

Lemma select_after_cascade_user {row : Type} (T : table row) (u v : uuid)
    (cond : row -> bool) (rows : list row) :
  v <> u ->
  select_rows T (app_user (Some v)) cond (cascade_user T u rows)
  = select_rows T (app_user (Some v)) cond rows.
Proof.
  intros Hne. unfold select_rows, cascade_user.
  apply filter_filter_implied. intros x Htg. unfold targeted in Htg.
  apply andb_prop in Htg as [[_ Hx]%policy_owner _].
  rewrite Hx. congruence.
Qed.

(** X12.  Deleting a user changes nothing in what any other user reads
    from either table: the cascade removes the deleted user's rows only. *)
Theorem deleting_a_user_keeps_other_views (u v : uuid) (db : database) :
  v <> u -> same_view (Some v) db (delete_user u db).
Proof.
  intros Hne. split; intros cond;
    unfold select_reading_progress, select_reading_sessions; simpl; f_equal;
    apply select_after_cascade_user; exact Hne.
Qed.

Lemma deleting_a_user_keeps_other_views_witness :
  same_view (Some bob) (after bob_reads) (delete_user alice (after bob_reads)).
Proof.
  apply (deleting_a_user_keeps_other_views alice bob).
  vm_compute. discriminate.
Defined.

(** X13.  In every reachable state an UPDATE whose SET clause leaves [id],
    [user_id] and [book_id] alone and keeps each row well typed and without
    NULL in a NOT NULL column succeeds, for every role and WHERE clause; the
    rows the role may update and the WHERE clause selects get the assigned
    values and the time of the update in [updated_at], the others are
    unchanged. *)
Theorem update_of_other_columns_succeeds (history : list statement)
    (r : role) (cond : ReadingProgress.row -> bool)
    (assign : ReadingProgress.row -> ReadingProgress.row)
    (NOW : timestamptz) :
  (forall x,
     ReadingProgress.id (assign x) = ReadingProgress.id x
     /\ ReadingProgress.user_id (assign x) = ReadingProgress.user_id x
     /\ ReadingProgress.book_id (assign x) = ReadingProgress.book_id x) ->
  (forall x, ReadingProgress.types_ok x = true ->
             ReadingProgress.types_ok (assign x) = true) ->
  (forall x, ReadingProgress.not_null_ok x = true ->
             ReadingProgress.not_null_ok (assign x) = true) ->
  update_reading_progress r assign cond NOW (after history)
  = Ok (with_reading_progress
          (map (fun x => if targeted ReadingProgress.schema r cond x
                         then ReadingProgress.set_updated_at (Some NOW)
                                (assign x)
                         else x)
               (reading_progress (after history)))
          (after history)).
Proof.
  intros Hkeys Hty Hnn.
  pose proof (after_consistent history) as [Hp _]%consistent_split.
  unfold update_reading_progress.
  rewrite (update_rows_same_keys ReadingProgress.schema); [reflexivity| |].
  - unfold table_ok in Hp. apply andb_prop in Hp as [[Hk _]%andb_prop _].
    exact Hk.
  - intros x Hx _.
    destruct (table_ok_row _ _ _ _ x Hp Hx) as (Htx & Hnx & _).
    destruct (Hkeys x) as (Hid & Hu & Hb).
    split; [repeat split; simpl; assumption|].
    split.
    + simpl in *. unfold ReadingProgress.types_ok in *. simpl.
      apply (Hty x Htx).
    + simpl in *. unfold ReadingProgress.not_null_ok in *. simpl.
      apply (Hnn x Hnx).
Qed.

Lemma update_of_other_columns_succeeds_witness :
  update_reading_progress (app_user (Some bob)) finish_book every_row 9
    (after bob_reads)
  = Ok (with_reading_progress
          (map (fun x => if targeted ReadingProgress.schema
                              (app_user (Some bob)) every_row x
                         then ReadingProgress.set_updated_at (Some 9)
                                (finish_book x)
                         else x)
               (reading_progress (after bob_reads)))
          (after bob_reads)).
Proof.
  apply (update_of_other_columns_succeeds bob_reads (app_user (Some bob))
           every_row finish_book 9).
  - intros x. repeat split.
  - intros x. unfold ReadingProgress.types_ok. simpl.
    intros [[_ Ht]%andb_prop _]%andb_prop. rewrite Ht. reflexivity.
  - intros x. unfold ReadingProgress.not_null_ok. simpl.
    intros [[[-> _]%andb_prop ->]%andb_prop _]%andb_prop. reflexivity.
Defined.

(** * The book form and the book editor *)

(** ** Trimming *)

Lemma trim_start_clean (s : js_string) :
  match s with
  | [] => True
  | c :: _ => is_white_space c = false
  end ->
  trim_start s = s.
Proof. destruct s as [|c s]; simpl; [reflexivity|]. intros ->. reflexivity. Qed.

Lemma trim_start_head (s : js_string) :
  match trim_start s with
  | [] => True
  | c :: _ => is_white_space c = false
  end.
Proof.
  induction s as [|c s IH]; simpl; [exact I|].
  destruct (is_white_space c) eqn:E; [exact IH|exact E].
Qed.

Lemma trim_end_head (s : js_string) :
  match s with
  | [] => True
  | c :: _ => is_white_space c = false
  end ->
  match trim_end s with
  | [] => s = []
  | c :: _ => is_white_space c = false
  end.
Proof.
  destruct s as [|c s]; simpl; [reflexivity|]. intros E.
  destruct (trim_end s); [rewrite E|]; exact E.
Qed.

Lemma trim_end_idem (s : js_string) : trim_end (trim_end s) = trim_end s.
Proof.
  induction s as [|c s IH]; simpl; [reflexivity|].
  destruct (trim_end s) as [|k kept] eqn:E.
  - destruct (is_white_space c) eqn:Ec; simpl; [reflexivity|].
    rewrite Ec. reflexivity.
  - simpl in IH |- *. rewrite IH. reflexivity.
Qed.

Lemma trim_idem (s : js_string) : trim (trim s) = trim s.
Proof.
  unfold trim.
  rewrite (trim_start_clean (trim_end (trim_start s))).
  - apply trim_end_idem.
  - pose proof (trim_end_head (trim_start s) (trim_start_head s)) as H.
    destruct (trim_end (trim_start s)); [exact I|exact H].
Qed.

Lemma truthy_trimmed (s : js_string) : truthy (trim s) = true -> trimmed (trim s).
Proof.
  intros H. split; [|apply trim_idem].
  destruct (trim s); [discriminate|discriminate].
Qed.

(** ** Tags *)

Lemma filter_all {A} (P : A -> Prop) `{forall x, Decision (P x)}
    (l : list A) :
  (forall x, x ∈ l -> P x) -> filter P l = l.
Proof.
  induction l as [|a l IH]; intros Hl; [reflexivity|].
  rewrite filter_cons. destruct (decide (P a)) as [_|Hn].
  - rewrite IH; [reflexivity|].
    intros x Hx. apply Hl, list_elem_of_further, Hx.
  - exfalso. apply Hn, Hl, list_elem_of_here.
Qed.

Lemma includes_elem (l : list js_string) (t : js_string) :
  includes l t = true <-> t ∈ l.
Proof.
  unfold includes. rewrite existsb_exists. split.
  - intros (t' & Hin & ->%bool_decide_eq_true). apply list_elem_of_In, Hin.
  - intros Hin. exists t. split; [apply list_elem_of_In, Hin|].
    apply bool_decide_eq_true. reflexivity.
Qed.

Lemma includes_not_elem (l : list js_string) (t : js_string) :
  includes l t = false <-> t ∉ l.
Proof.
  rewrite <- includes_elem. destruct (includes l t); split; congruence.
Qed.

Lemma availableTags_trimmed : Forall trimmed availableTags.
Proof.
  assert (H : forallb (fun t => truthy t && bool_decide (trim t = t))
                availableTags = true) by (vm_compute; reflexivity).
  rewrite forallb_forall in H. apply Forall_forall. intros t Ht.
  specialize (H t (proj1 (list_elem_of_In _ _) Ht)).
  apply andb_prop in H as [Hne Htrim%bool_decide_eq_true].
  split; [|exact Htrim]. destruct t; [discriminate|discriminate].
Qed.

Lemma offered_tags_elem (st : tags_state) (t : js_string) :
  t ∈ offered_tags st <-> t ∈ availableTags /\ t ∉ selectedTags st.
Proof.
  unfold offered_tags. rewrite list_elem_of_In, filter_In, negb_true_iff,
    includes_not_elem, <- list_elem_of_In. reflexivity.
Qed.

Lemma handleTagSelect_selected (tag : js_string) (st : tags_state)
    (t : js_string) :
  t ∈ selectedTags (handleTagSelect tag st)
  <-> (t = tag /\ tag ∉ selectedTags st)
      \/ (t <> tag /\ t ∈ selectedTags st).
Proof.
  unfold handleTagSelect. simpl.
  destruct (includes (selectedTags st) tag) eqn:E.
  - apply includes_elem in E. rewrite list_elem_of_filter. split.
    + intros [Hne Hin]. right. auto.
    + intros [[-> Hn]|[Hne Hin]]; [contradiction|auto].
  - apply includes_not_elem in E. rewrite elem_of_app, list_elem_of_singleton.
    split.
    + intros [Hin| ->]; [right|left; auto].
      split; [|exact Hin]. intros ->. contradiction.
    + intros [[-> _]|[_ Hin]]; auto.
Qed.

Lemma handleTagSelect_ok (tag : js_string) (st : tags_state) :
  tags_ok st -> tag ∈ selectedTags st \/ trimmed tag ->
  tags_ok (handleTagSelect tag st).
Proof.
  intros (Hnd & Hform & Htr) Htag. unfold handleTagSelect, tags_ok. simpl.
  split; [|split; [reflexivity|]].
  - destruct (includes (selectedTags st) tag) eqn:E.
    + apply NoDup_filter, Hnd.
    + apply includes_not_elem in E. apply NoDup_app.
      split; [exact Hnd|]. split; [|apply NoDup_singleton].
      intros x Hx ->%list_elem_of_singleton. contradiction.
  - destruct (includes (selectedTags st) tag) eqn:E.
    + apply Forall_forall. intros x [_ Hx]%list_elem_of_filter.
      rewrite Forall_forall in Htr. apply Htr, Hx.
    + apply includes_not_elem in E. apply Forall_app. split; [exact Htr|].
      apply Forall_singleton. destruct Htag as [Hin|Ht]; [contradiction|].
      exact Ht.
Qed.

Lemma handleAddNewTag_ok (st : tags_state) :
  tags_ok st -> tags_ok (fst (handleAddNewTag st)).
Proof.
  intros (Hnd & Hform & Htr). unfold handleAddNewTag.
  destruct (truthy (trim (newTag st))) eqn:Et,
    (includes (selectedTags st) (trim (newTag st))) eqn:Es,
    (includes availableTags (trim (newTag st))) eqn:Ea;
    cbn [andb negb fst]; try (split; [|split]; assumption).
  apply includes_not_elem in Es. split; [|split; [reflexivity|]].
  - apply NoDup_app. split; [exact Hnd|]. split; [|apply NoDup_singleton].
    intros x Hx ->%list_elem_of_singleton. contradiction.
  - apply Forall_app. split; [exact Htr|].
    apply Forall_singleton, truthy_trimmed, Et.
Qed.

Lemma handle_tag_event_ok (st : tags_state) (e : tag_event) :
  tags_ok st -> tags_ok (handle_tag_event st e).
Proof.
  intros Hst. destruct e as [i|i|s|]; simpl.
  - destruct (nth_error (selectedTags st) i) as [tag|] eqn:E; [|exact Hst].
    apply handleTagSelect_ok; [exact Hst|]. left.
    apply list_elem_of_In, (nth_error_In _ _ E).
  - destruct (nth_error (offered_tags st) i) as [tag|] eqn:E; [|exact Hst].
    apply handleTagSelect_ok; [exact Hst|]. right.
    apply nth_error_In, list_elem_of_In, offered_tags_elem in E as [Ha _].
    pose proof availableTags_trimmed as H. rewrite Forall_forall in H.
    apply H, Ha.
  - exact Hst.
  - apply handleAddNewTag_ok, Hst.
Qed.

(** X14.  Whatever the user does with the tags of the book form --
    removing a selected tag, picking an offered one, editing the input,
    adding its text -- the selected tags never contain a tag twice, the
    form's [tags] field equals the selected tags, and every selected tag
    is non-empty and has no white space at either end. *)
Theorem selected_tags_stay_in_order (events : list tag_event) :
  tags_ok (tags_after events).
Proof.
  unfold tags_after.
  assert (H0 : tags_ok initial_tags_state).
  { split; [apply NoDup_nil; exact I|]. split; [reflexivity|constructor]. }
  revert H0. generalize initial_tags_state.
  induction events as [|e events IH]; simpl; intros st Hst; [exact Hst|].
  apply IH, handle_tag_event_ok, Hst.
Qed.

(** X15.  [handleTagSelect(tag)] toggles the tag and leaves the other
    tags as they were: afterwards [tag] is selected exactly when it was not
    before, and any other tag is selected exactly when it was.  Selecting
    a tag that was not selected and then selecting it again gives back the
    list of selected tags. *)
Theorem tag_select_toggles (tag : js_string) (st : tags_state) :
  (tag ∈ selectedTags (handleTagSelect tag st) <-> tag ∉ selectedTags st)
  /\ (forall t, t <> tag ->
        (t ∈ selectedTags (handleTagSelect tag st) <-> t ∈ selectedTags st))
  /\ (tag ∉ selectedTags st ->
      selectedTags (handleTagSelect tag (handleTagSelect tag st))
      = selectedTags st).
Proof.
  split; [|split].
  - rewrite handleTagSelect_selected. split.
    + intros [[_ H]|[H _]]; [exact H|contradiction].
    + intros H. left. auto.
  - intros t Hne. rewrite handleTagSelect_selected. split.
    + intros [[H _]|[_ H]]; [contradiction|exact H].
    + intros H. right. auto.
  - intros Hn. apply includes_not_elem in Hn as E.
    assert (H1 : selectedTags (handleTagSelect tag st)
                 = selectedTags st ++ [tag]).
    { unfold handleTagSelect. simpl. rewrite E. reflexivity. }
    revert H1. generalize (handleTagSelect tag st). intros st1 H1.
    unfold handleTagSelect. simpl. rewrite H1.
    assert (includes (selectedTags st ++ [tag]) tag = true) as ->.
    { apply includes_elem, elem_of_app. right. apply list_elem_of_here. }
    rewrite filter_app, filter_cons, filter_nil.
    destruct (decide (tag <> tag)) as [H|_]; [contradiction|].
    rewrite app_nil_r. apply filter_all.
    intros x Hx ->. contradiction.
Qed.

Lemma tag_select_toggles_witness :
  selectedTags
    (handleTagSelect [104; 105]%N
       (handleTagSelect [104; 105]%N (tags_after [pick_offered 0])))
  = selectedTags (tags_after [pick_offered 0]).
Proof.
  apply (proj2 (proj2 (tag_select_toggles [104; 105]%N
                         (tags_after [pick_offered 0])))).
  apply (bool_decide_unpack _). vm_compute. exact I.
Defined.

(** ** Words and pages *)

Lemma truthy_pieces_cons (p : js_string) (l : list js_string) :
  truthy_pieces (p :: l)
  = ((if truthy p then 1 else 0) + truthy_pieces l)%nat.
Proof. unfold truthy_pieces. simpl. destruct (truthy p); reflexivity. Qed.

Lemma pieces_in_run (t : js_string) :
  truthy_pieces (split_from true [] t) = truthy_pieces (split_from false [] t).
Proof.
  destruct t as [|c r]; simpl; [reflexivity|].
  destruct (is_white_space c); [|reflexivity].
  rewrite truthy_pieces_cons. reflexivity.
Qed.

Lemma pieces_blank (t : js_string) (f : bool) (p : js_string) :
  blank t -> truthy_pieces (split_from f p t) = truthy_pieces [p].
Proof.
  revert f p. induction t as [|c r IH]; intros f p Hb; simpl; [reflexivity|].
  apply Forall_cons in Hb as [-> Hb]. destruct f.
  - apply IH, Hb.
  - rewrite truthy_pieces_cons, (IH true [] Hb), (truthy_pieces_cons p []).
    reflexivity.
Qed.

Lemma pieces_at_least_one (r : js_string) (p : js_string) :
  p <> [] -> (1 <= truthy_pieces (split_from false p r))%nat.
Proof.
  revert p. induction r as [|c r IH]; intros p Hp; simpl.
  - rewrite truthy_pieces_cons. destruct p; [contradiction|]. simpl. lia.
  - destruct (is_white_space c).
    + rewrite truthy_pieces_cons. destruct p; [contradiction|]. simpl. lia.
    + apply IH. destruct p; discriminate.
Qed.

Lemma no_pieces_blank (t : js_string) (f : bool) :
  truthy_pieces (split_from f [] t) = 0%nat -> blank t.
Proof.
  revert f. induction t as [|c r IH]; intros f H; [constructor|].
  simpl in H. destruct (is_white_space c) eqn:E.
  - constructor; [exact E|]. destruct f.
    + apply (IH true H).
    + rewrite truthy_pieces_cons in H. apply (IH true H).
  - pose proof (pieces_at_least_one r [c] ltac:(discriminate)). simpl in H.
    lia.
Qed.

Lemma pieces_trim_start (t : js_string) :
  truthy_pieces (split_from false [] (trim_start t))
  = truthy_pieces (split_from false [] t).
Proof.
  induction t as [|c r IH]; [reflexivity|].
  simpl. destruct (is_white_space c) eqn:E.
  - rewrite truthy_pieces_cons, pieces_in_run. exact IH.
  - simpl. rewrite E. reflexivity.
Qed.

Lemma pieces_trim_end (t : js_string) (f : bool) (p : js_string) :
  truthy_pieces (split_from f p (trim_end t))
  = truthy_pieces (split_from f p t).
Proof.
  revert f p. induction t as [|c r IH]; intros f p; [reflexivity|].
  simpl trim_end. destruct (trim_end r) as [|k kept] eqn:Er in |- *.
  - rewrite Er in IH. destruct (is_white_space c) eqn:E.
    + simpl. rewrite E. destruct f.
      * rewrite <- IH. reflexivity.
      * rewrite !truthy_pieces_cons, <- IH. reflexivity.
    + simpl. rewrite E. rewrite <- IH. reflexivity.
  - rewrite <- Er. simpl.
    destruct (is_white_space c), f; rewrite ?truthy_pieces_cons, IH;
      reflexivity.
Qed.

Lemma pieces_app (a b : js_string) (c : N) (f : bool) (p : js_string) :
  is_white_space c = true -> (f = true -> p = []) ->
  truthy_pieces (split_from f p (a ++ c :: b))
  = (truthy_pieces (split_from f p a)
     + truthy_pieces (split_from false [] b))%nat.
Proof.
  intros Hc. revert f p. induction a as [|x a IH]; intros f p Hf; simpl.
  - rewrite Hc, (truthy_pieces_cons p []). destruct f.
    + rewrite (Hf eq_refl), pieces_in_run. reflexivity.
    + rewrite truthy_pieces_cons, pieces_in_run.
      change (truthy_pieces []) with 0%nat. lia.
  - destruct (is_white_space x).
    + destruct f.
      * apply IH, Hf.
      * rewrite !truthy_pieces_cons, IH by reflexivity.
        destruct (truthy p); lia.
    + apply IH. discriminate.
Qed.

(** X16.  The editor counts no word exactly when the text is empty or
    consists of white space only. *)
Theorem no_words_iff_blank (text : js_string) :
  count_words text = 0%nat <-> blank text.
Proof.
  unfold count_words, split_white_space. split.
  - apply no_pieces_blank.
  - intros Hb. rewrite (pieces_blank text false [] Hb). reflexivity.
Qed.

(** X17.  White space around the text does not count: the number of words
    of [text.trim()] is that of [text]. *)
Theorem words_ignore_surrounding_white_space (text : js_string) :
  count_words (trim text) = count_words text.
Proof.
  unfold count_words, split_white_space, trim.
  rewrite pieces_trim_end. apply pieces_trim_start.
Qed.

(** X18.  Joining two texts with a white-space code unit adds their
    numbers of words. *)
Theorem words_add_up (a b : js_string) (c : N) :
  is_white_space c = true ->
  count_words (a ++ c :: b) = (count_words a + count_words b)%nat.
Proof.
  intros Hc. unfold count_words, split_white_space.
  apply pieces_app; [exact Hc|discriminate].
Qed.

Lemma words_add_up_witness :
  count_words ([104; 105] ++ 32 :: [116; 104; 101; 114; 101])%N
  = (count_words [104; 105]%N + count_words [116; 104; 101; 114; 101]%N)%nat.
Proof. apply (words_add_up [104; 105]%N [116; 104; 101; 114; 101]%N 32%N).
  vm_compute. reflexivity.
Defined.

(** X19.  The page count is the number of words divided by 250 and
    rounded up: 250 pages-worth of words cover the text, with fewer than
    250 to spare, and there is no page exactly when there is no word. *)
Theorem pages_are_words_over_250_rounded_up (words : nat) :
  (words <= 250 * count_pages words < words + 250)%nat
  /\ (count_pages words = 0%nat <-> words = 0%nat).
Proof.
  unfold count_pages.
  pose proof (Nat.div_mod_eq words 250) as Hdm.
  pose proof (Nat.mod_upper_bound words 250 ltac:(lia)) as Hm.
  destruct (Nat.eqb_spec (words mod 250) 0) as [E|E]; lia.
Qed.

(** * Reports on a pair that has its row *)

Lemma same_user_policy {row : Type} (T : table row) (r : role) (x y : row) :
  col_user_id T x = col_user_id T y -> policy T r x = policy T r y.
Proof. intros H. unfold policy. rewrite H. reflexivity. Qed.

Lemma upsert_report_updates r u b cp tp g NOW db db' :
  progress_of u b db <> [] ->
  upsert_reading_progress r (reported_columns u b cp tp NOW) g NOW db = Ok db' ->
  db' = with_reading_progress
          (map (fun x =>
                  if decide (ReadingProgress.user_id x = Some u
                             /\ ReadingProgress.book_id x = Some b)
                  then reported_over cp tp NOW x else x)
               (reading_progress db)) db.
Proof.
  intros Hne Hup.
  pose proof (upsert_report_existing r u b cp tp g NOW db db' Hne Hup) as ->.
  unfold upsert_reading_progress in Hup.
  rewrite !bind_guard_ok in Hup. destruct Hup as (_ & Hpol & _).
  simpl. f_equal. apply map_ext. intros x. unfold updated, targeted.
  set (EX := ReadingProgress.with_defaults g NOW
               (reported_columns u b cp tp NOW)) in *.
  destruct (decide _) as [[Hu Hb]|Hn].
  - rewrite (same_user_policy ReadingProgress.schema r x EX)
      by (simpl; rewrite Hu; reflexivity).
    rewrite Hpol. simpl.
    rewrite (proj2 (same_user_book_progress EX x u b eq_refl eq_refl))
      by auto.
    reflexivity.
  - destruct (same_user_book ReadingProgress.schema EX x) eqn:E.
    + apply (same_user_book_progress EX x u b eq_refl eq_refl) in E.
      contradiction.
    + rewrite andb_false_r. reflexivity.
Qed.

(** C1.  For every (user, book) pair, in every state a history of
    statements leads to -- whatever the statements, the calls of
    [reportProgress] among them -- at most one row of [reading_progress]
    has that pair.  A report for a pair that has a row updates that row and
    inserts none: when it succeeds, the rows of the table are those before
    with the pair's row replaced by the row with the same [id] and
    [created_at] and the reported page, total, percentage and time, every
    other row and the sessions being as they were; and it does succeed
    whenever the role may write the user's rows and [total_pages] is a
    positive INTEGER.  Whether the report succeeds or is refused, the
    table has the same rows by primary key afterwards and the pair still
    has its one row. *)
Theorem one_progress_row_per_user_book (history : list statement)
    (u b : uuid) :
  (length (progress_of u b (after history)) <= 1)%nat
  /\ (forall r cp tp strict g NOW y db',
        progress_of u b (after history) = [y] ->
        reportProgress r u b cp tp strict g NOW (after history) = Ok db' ->
        reading_progress db'
        ≡ₚ map (fun x =>
                  if decide (ReadingProgress.user_id x = Some u
                             /\ ReadingProgress.book_id x = Some b)
                  then reported_over cp tp NOW x else x)
               (reading_progress (after history))
        /\ progress_of u b db' = [reported_over cp tp NOW y]
        /\ reading_sessions db' = reading_sessions (after history))
  /\ (forall r cp tp strict g NOW y,
        progress_of u b (after history) = [y] ->
        may_write r u -> 0 < tp <= int4_max ->
        exists db',
          reportProgress r u b cp tp strict g NOW (after history) = Ok db')
  /\ (forall r cp tp strict g NOW,
        progress_of u b (after history) <> [] ->
        let db' := execute (CALL_reportProgress r u b cp tp strict g NOW)
                     (after history) in
        map ReadingProgress.id (reading_progress db')
        = map ReadingProgress.id (reading_progress (after history))
        /\ length (progress_of u b db') = 1%nat).
Proof.
  split; [apply progress_of_at_most_one, after_consistent|].
  split; [|split].
  - intros r cp tp strict g NOW y db' Hy Hrep.
    unfold reportProgress in Hrep.
    destruct (strict && _); [discriminate|].
    destruct (upsert_reading_progress _ _ _ _ _) as [d|e] eqn:Hup;
      [|discriminate].
    injection Hrep as ->.
    apply upsert_report_updates in Hup; [|rewrite Hy; discriminate].
    subst db'. split; [reflexivity|]. split; [|reflexivity].
    rewrite progress_of_map.
    + rewrite Hy. simpl.
      assert (Hin : y ∈ progress_of u b (after history))
        by (rewrite Hy; apply list_elem_of_here).
      unfold progress_of in Hin. apply list_elem_of_filter in Hin as [Hp _].
      destruct (decide _) as [_|Hn]; [reflexivity|contradiction].
    + intros x. destruct (decide _); split; reflexivity.
  - intros r cp tp strict g NOW y Hy Hr Htp.
    assert (Hin : y ∈ progress_of u b (after history))
      by (rewrite Hy; apply list_elem_of_here).
    unfold progress_of in Hin.
    apply list_elem_of_filter in Hin as [[Hyu Hyb] Hin].
    apply after_row_progress in Hin as (_ & _ & Hfk).
    unfold fk_ok in Hfk. apply andb_prop in Hfk as [Hfu Hfb].
    destruct (report_succeeds (after history) r u b cp tp g NOW
                (after_consistent history) Hr
                (references_some _ _ u Hfu Hyu)
                (references_some _ _ b Hfb Hyb) Htp)
      as (db' & x & Hup & _).
    { rewrite Hy. discriminate. }
    exists db'. unfold reportProgress.
    destruct (Z.eqb_spec tp 0) as [->|_]; [lia|].
    rewrite andb_false_r, Hup. reflexivity.
  - intros r cp tp strict g NOW Hne db'.
    assert (Hlen : length (progress_of u b (after history)) = 1%nat).
    { pose proof (progress_of_at_most_one u b _ (after_consistent history)).
      destruct (progress_of u b (after history)); simpl in *;
        [congruence|lia]. }
    subst db'. simpl. unfold reportProgress.
    destruct (strict && _); simpl; [auto|].
    destruct (upsert_reading_progress _ _ _ _ _) as [db'|e] eqn:Hup; simpl;
      [|auto].
    apply upsert_report_existing in Hup; [|exact Hne].
    simpl in Hup. subst db'. split.
    + simpl. rewrite map_map. apply map_ext. intros x.
      apply updated_report_keys.
    + rewrite progress_of_map, length_map; [exact Hlen|].
      intros x. pose proof (updated_report_keys r
        (ReadingProgress.with_defaults g NOW (reported_columns u b cp tp NOW))
        (same_user_book ReadingProgress.schema
           (ReadingProgress.with_defaults g NOW
              (reported_columns u b cp tp NOW))) NOW x) as H.
      simpl in H. tauto.
Qed.

Lemma one_progress_row_per_user_book_witness :
  exists y db',
    progress_of bob novel (after bob_reads) = [y]
    /\ reportProgress (app_user (Some bob)) bob novel 250 200 false 102%N 9
         (after bob_reads) = Ok db'
    /\ reading_progress db' = [reported_over 250 200 9 y]
    /\ ReadingProgress.id (reported_over 250 200 9 y) = Some 100%N
    /\ ReadingProgress.created_at (reported_over 250 200 9 y) = Some 5
    /\ ReadingProgress.progress (reported_over 250 200 9 y)
       = Some (hundredths 10000).
Proof.
  destruct (progress_of bob novel (after bob_reads)) as [|y rest] eqn:Hy;
    [vm_compute in Hy; discriminate|].
  destruct rest; [|vm_compute in Hy; discriminate].
  destruct (one_progress_row_per_user_book bob_reads bob novel)
    as (_ & Hupd & Hok & _).
  destruct (Hok (app_user (Some bob)) 250 200 false 102%N 9 y Hy)
    as [db' Hrep].
  - right. reflexivity.
  - unfold int4_max. lia.
  - exists y, db'. split; [reflexivity|]. split; [exact Hrep|].
    destruct (Hupd _ _ _ _ _ _ y db' Hy Hrep) as (Hrows & _ & _).
    vm_compute in Hy. injection Hy as <-.
    split; [|vm_compute; repeat split; reflexivity].
    apply Permutation_singleton_r. rewrite Hrows.
    vm_compute. reflexivity.
Defined.

(** ** Which columns an UPDATE can change *)

Section KeyChanges.
Context {row : Type} (T : table row).

Lemma null_book_no_conflict (x : row) (rows : list row) :
  col_book_id T x = None -> user_book_conflict T x rows = false.
Proof.
  intros H. unfold user_book_conflict.
  assert (existsb (same_user_book T x) rows = false) as ->;
    [|apply andb_false_r].
  induction rows as [|y rows IH]; simpl; [reflexivity|].
  rewrite IH. unfold same_user_book. rewrite H. simpl.
  rewrite andb_false_r. reflexivity.
Qed.

Lemma same_id_pk_conflict (x' x : row) (others : list row) :
  col_id T x' = col_id T x ->
  pk_conflict T x' others = pk_conflict T x others.
Proof. intros H. unfold pk_conflict, same_id. rewrite H. reflexivity. Qed.

(** An UPDATE that keeps [id] and sets one column of the pair to NULL
    meets no unique index: it succeeds when its rows pass the policy, the
    column types and NOT NULL. *)
Lemma update_loop_null_key (r : role) (assign : row -> row)
    (cond : row -> bool) (now : timestamptz) (todo done : list row) :
  keys_ok T (done ++ todo) = true ->
  (forall x, x ∈ todo -> targeted T r cond x = true ->
     col_id T (new_version T assign now x) = col_id T x
     /\ (col_user_id T (new_version T assign now x) = None
         \/ col_book_id T (new_version T assign now x) = None)
     /\ policy T r (new_version T assign now x) = true
     /\ well_typed T (new_version T assign now x) = true
     /\ not_null T (new_version T assign now x) = true) ->
  update_loop T r assign cond now done todo
  = Ok (done ++ map (updated T r assign cond now) todo).
Proof.
  revert done. induction todo as [|OLD rest IH]; simpl; intros done Hk Hnew.
  - rewrite app_nil_r. reflexivity.
  - unfold updated at 1.
    destruct (targeted T r cond OLD) eqn:Htg.
    + destruct (Hnew OLD) as (Hid & Hnull & Hpol & Hty & Hnn);
        [apply list_elem_of_here|exact Htg|].
      rewrite keys_ok_middle in Hk.
      apply andb_prop in Hk as [[Hk Hpk%negb_true_iff]%andb_prop _].
      pose proof (same_id_pk_conflict _ _ (done ++ rest) Hid) as Epk.
      assert (Eub : user_book_conflict T (new_version T assign now OLD)
                      (done ++ rest) = false).
      { destruct Hnull as [Hu|Hb];
          [apply null_user_no_conflict|apply null_book_no_conflict];
          assumption. }
      assert (Hchk : check_new_row T r (new_version T assign now OLD)
                       (done ++ rest) = Ok tt).
      { apply check_new_row_ok. rewrite Epk, Eub, Hpk. auto. }
      rewrite Hty, Hchk. simpl. unfold mbind, result_bind. simpl.
      rewrite IH, <- app_assoc; [reflexivity| |].
      * rewrite <- app_assoc. simpl.
        rewrite keys_ok_middle, Hk, Epk, Eub, Hpk. reflexivity.
      * intros x Hx. apply Hnew. apply list_elem_of_further, Hx.
    + rewrite IH, <- app_assoc; [reflexivity| |].
      * rewrite <- app_assoc. exact Hk.
      * intros x Hx. apply Hnew. apply list_elem_of_further, Hx.
Qed.

Lemma update_rows_null_key (r : role) (users books : gset uuid)
    (assign : row -> row) (cond : row -> bool) (now : timestamptz)
    (rows : list row) :
  keys_ok T rows = true ->
  (forall x, x ∈ rows -> targeted T r cond x = true ->
     col_id T (new_version T assign now x) = col_id T x
     /\ (col_user_id T (new_version T assign now x) = None
         \/ col_book_id T (new_version T assign now x) = None)
     /\ policy T r (new_version T assign now x) = true
     /\ well_typed T (new_version T assign now x) = true
     /\ not_null T (new_version T assign now x) = true) ->
  (forall x, x ∈ rows -> targeted T r cond x = true ->
     fk_ok_after_update T users books assign now x = true) ->
  update_rows T r users books assign cond now rows
  = Ok (map (updated T r assign cond now) rows).
Proof.
  intros Hk Hnew Hfk. unfold update_rows.
  rewrite (update_loop_null_key r assign cond now rows [] Hk Hnew).
  unfold mbind, result_bind. simpl.
  assert (forallb (fk_ok_after_update T users books assign now)
            (filter (fun x => targeted T r cond x = true) rows) = true)
    as ->; [|reflexivity].
  apply forallb_forall. intros x Hx.
  apply list_elem_of_In, list_elem_of_filter in Hx as [Htg Hx].
  exact (Hfk x Hx Htg).
Qed.

Lemma filter_targeted_none (r : role) (cond : row -> bool) (rows : list row) :
  existsb (targeted T r cond) rows = false ->
  filter (fun x => targeted T r cond x = true) rows = [].
Proof.
  induction rows as [|x rows IH]; simpl; [reflexivity|].
  intros [Hx Hrows]%orb_false_elim. rewrite filter_cons, (IH Hrows).
  destruct (decide _) as [H|_]; [congruence|reflexivity].
Qed.

(** An UPDATE whose new rows all fail the policy stops at the first row
    it acts on; with no such row, it does nothing. *)
Lemma update_loop_refused (r : role) (assign : row -> row)
    (cond : row -> bool) (now : timestamptz) (todo done : list row) :
  (forall x, x ∈ todo -> targeted T r cond x = true ->
     well_typed T (new_version T assign now x) = true
     /\ policy T r (new_version T assign now x) = false) ->
  update_loop T r assign cond now done todo
  = if existsb (targeted T r cond) todo
    then Err insufficient_privilege else Ok (done ++ todo).
Proof.
  revert done. induction todo as [|OLD rest IH]; simpl; intros done Hnew.
  - rewrite app_nil_r. reflexivity.
  - destruct (targeted T r cond OLD) eqn:Htg; simpl.
    + destruct (Hnew OLD) as (Hty & Hpol);
        [apply list_elem_of_here|exact Htg|].
      rewrite Hty. unfold check_new_row. rewrite Hpol. reflexivity.
    + rewrite IH, <- app_assoc; [reflexivity|].
      intros x Hx. apply Hnew. apply list_elem_of_further, Hx.
Qed.

Lemma update_rows_refused (r : role) (users books : gset uuid)
    (assign : row -> row) (cond : row -> bool) (now : timestamptz)
    (rows : list row) :
  (forall x, x ∈ rows -> targeted T r cond x = true ->
     well_typed T (new_version T assign now x) = true
     /\ policy T r (new_version T assign now x) = false) ->
  update_rows T r users books assign cond now rows
  = if existsb (targeted T r cond) rows
    then Err insufficient_privilege else Ok rows.
Proof.
  intros Hnew. unfold update_rows.
  rewrite (update_loop_refused r assign cond now rows [] Hnew).
  destruct (existsb (targeted T r cond) rows) eqn:E; [reflexivity|].
  unfold mbind, result_bind. simpl.
  rewrite (filter_targeted_none _ _ _ E). reflexivity.
Qed.

End KeyChanges.

Lemma progress_keys_ok (db : database) :
  consistent db = true ->
  keys_ok ReadingProgress.schema (reading_progress db) = true.
Proof.
  intros [Hp _]%consistent_split. unfold table_ok in Hp.
  apply andb_prop in Hp as [[Hk _]%andb_prop _]. exact Hk.
Qed.

Lemma set_book_id_null_succeeds (db : database) (r : role)
    (NOW : timestamptz) :
  consistent db = true ->
  update_reading_progress r (set_book_id None) every_row NOW db
  = Ok (with_reading_progress
          (map (updated ReadingProgress.schema r (set_book_id None)
                  every_row NOW)
               (reading_progress db)) db).
Proof.
  intros Hdb. pose proof (proj1 (consistent_split _) Hdb) as [Hp _].
  unfold update_reading_progress.
  rewrite (update_rows_null_key ReadingProgress.schema);
    [reflexivity|apply progress_keys_ok, Hdb| |].
  - intros x Hx Htg.
    destruct (table_ok_row _ _ _ _ x Hp Hx) as (Hty & Hnn & _).
    unfold targeted in Htg. apply andb_prop in Htg as [Hpol _].
    split; [reflexivity|]. split; [right; reflexivity|].
    split; [exact Hpol|]. split; [exact Hty|exact Hnn].
  - intros x Hx _. unfold fk_ok_after_update.
    apply andb_true_intro; split; apply orb_true_iff;
      first [left; apply bool_decide_eq_true_2; reflexivity
            |right; reflexivity].
Qed.

Lemma owner_set_user_id_null_succeeds (db : database) (NOW : timestamptz) :
  consistent db = true ->
  update_reading_progress table_owner (set_user_id None) every_row NOW db
  = Ok (with_reading_progress
          (map (updated ReadingProgress.schema table_owner
                  (set_user_id None) every_row NOW)
               (reading_progress db)) db).
Proof.
  intros Hdb. pose proof (proj1 (consistent_split _) Hdb) as [Hp _].
  unfold update_reading_progress.
  rewrite (update_rows_null_key ReadingProgress.schema);
    [reflexivity|apply progress_keys_ok, Hdb| |].
  - intros x Hx _.
    destruct (table_ok_row _ _ _ _ x Hp Hx) as (Hty & Hnn & _).
    split; [reflexivity|]. split; [left; reflexivity|].
    split; [reflexivity|]. split; [exact Hty|exact Hnn].
  - intros x Hx _. unfold fk_ok_after_update.
    apply andb_true_intro; split; apply orb_true_iff;
      first [left; apply bool_decide_eq_true_2; reflexivity
            |right; reflexivity].
Qed.

Lemma set_user_id_refused (db : database) (uid v : option uuid)
    (cond : ReadingProgress.row -> bool) (NOW : timestamptz) :
  consistent db = true -> v <> uid ->
  update_reading_progress (app_user uid) (set_user_id v) cond NOW db
  = if existsb (targeted ReadingProgress.schema (app_user uid) cond)
         (reading_progress db)
    then Err insufficient_privilege else Ok db.
Proof.
  intros [Hp _]%consistent_split Hne. unfold update_reading_progress.
  rewrite (update_rows_refused ReadingProgress.schema).
  - destruct (existsb _ _); [reflexivity|].
    unfold mbind, result_bind. simpl.
    rewrite with_reading_progress_same. reflexivity.
  - intros x Hx _.
    destruct (table_ok_row _ _ _ _ x Hp Hx) as (Hty & _ & _).
    split; [exact Hty|]. apply policy_not_owner. exact Hne.
Qed.

Lemma update_reading_progress_by_user uid assign cond NOW db db' :
  update_reading_progress (app_user uid) assign cond NOW db = Ok db' ->
  Forall2 (fun OLD NEW =>
             ReadingProgress.user_id NEW = ReadingProgress.user_id OLD)
          (reading_progress db) (reading_progress db').
Proof.
  unfold update_reading_progress. intros (rows & Hrows & [= <-])%bind_ok.
  simpl. apply (update_rows_by_user ReadingProgress.schema) in Hrows.
  eapply Forall2_impl; [exact Hrows|]. simpl. intros OLD NEW H. apply H.
Qed.

Lemma update_reading_sessions_by_user uid assign cond NOW db db' :
  update_reading_sessions (app_user uid) assign cond NOW db = Ok db' ->
  Forall2 (fun OLD NEW =>
             ReadingSession.user_id NEW = ReadingSession.user_id OLD)
          (reading_sessions db) (reading_sessions db').
Proof.
  unfold update_reading_sessions. intros (rows & Hrows & [= <-])%bind_ok.
  simpl. apply (update_rows_by_user ReadingSession.schema) in Hrows.
  eapply Forall2_impl; [exact Hrows|]. simpl. intros OLD NEW H. apply H.
Qed.

(** C10, as stated, fails.  Bob's own row is in the table and Alice is a
    user, yet Bob's [UPDATE reading_progress SET user_id = <Alice>] is
    refused: the UPDATE policy's expression is applied to the new row as
    well, so something in the schema does prevent this update from changing
    [user_id]. *)
Lemma bob_cannot_reassign :
  map ReadingProgress.user_id (reading_progress (after bob_reads))
  = [Some bob]
  /\ references (auth_users (after bob_reads)) (Some alice) = true
  /\ update_reading_progress (app_user (Some bob)) (set_user_id (Some alice))
       every_row 9 (after bob_reads)
     = Err insufficient_privilege.
Proof. vm_compute. repeat split; reflexivity. Qed.

(** C10, amended.  The trigger function changes [updated_at] and no other
    column of the row it is given, so an UPDATE stores every other column
    as its SET clause set it.  Nothing in the schema keeps an UPDATE from
    changing [created_at] or [book_id]: in every reachable state
    [UPDATE reading_progress SET created_at = v], for every role and value,
    and [UPDATE reading_progress SET book_id = NULL], for every role,
    succeed and change each row the role may update; Bob, under the
    policies, moves his row to another book and backdates it.  [user_id]
    is different.  For a session subject to the policies, a successful
    UPDATE of either table leaves the [user_id] of every row as it was, and
    [UPDATE reading_progress SET user_id = v] with [v] other than the
    session's own identity is refused with [insufficient_privilege] as soon
    as it acts on a row, and does nothing otherwise.  Only a role the
    policies do not apply to changes [user_id]: the table owner's
    [UPDATE reading_progress SET user_id = NULL] succeeds in every
    reachable state, and the owner gives Bob's row to Alice. *)
Theorem trigger_changes_only_updated_at :
  (forall now NEW,
     let x := update_updated_at_column ReadingProgress.schema now NEW in
     ReadingProgress.id x = ReadingProgress.id NEW
     /\ ReadingProgress.user_id x = ReadingProgress.user_id NEW
     /\ ReadingProgress.book_id x = ReadingProgress.book_id NEW
     /\ ReadingProgress.current_page x = ReadingProgress.current_page NEW
     /\ ReadingProgress.total_pages x = ReadingProgress.total_pages NEW
     /\ ReadingProgress.progress x = ReadingProgress.progress NEW
     /\ ReadingProgress.last_read_at x = ReadingProgress.last_read_at NEW
     /\ ReadingProgress.created_at x = ReadingProgress.created_at NEW
     /\ ReadingProgress.updated_at x = Some now)
  /\ (forall now NEW,
        let x := update_updated_at_column ReadingSession.schema now NEW in
        ReadingSession.id x = ReadingSession.id NEW
        /\ ReadingSession.user_id x = ReadingSession.user_id NEW
        /\ ReadingSession.book_id x = ReadingSession.book_id NEW
        /\ ReadingSession.start_time x = ReadingSession.start_time NEW
        /\ ReadingSession.end_time x = ReadingSession.end_time NEW
        /\ ReadingSession.pages_read x = ReadingSession.pages_read NEW
        /\ ReadingSession.duration x = ReadingSession.duration NEW
        /\ ReadingSession.created_at x = ReadingSession.created_at NEW
        /\ ReadingSession.updated_at x = Some now)
  /\ (forall history r v NOW, exists db',
        update_reading_progress r (set_created_at v) every_row NOW
          (after history) = Ok db'
        /\ Forall2 (fun OLD NEW =>
                      if policy ReadingProgress.schema r OLD
                      then ReadingProgress.created_at NEW = v
                      else NEW = OLD)
                   (reading_progress (after history)) (reading_progress db'))
  /\ (forall history r NOW, exists db',
        update_reading_progress r (set_book_id None) every_row NOW
          (after history) = Ok db'
        /\ Forall2 (fun OLD NEW =>
                      if policy ReadingProgress.schema r OLD
                      then ReadingProgress.book_id NEW = None
                      else NEW = OLD)
                   (reading_progress (after history)) (reading_progress db'))
  /\ (forall uid assign cond NOW db db',
        update_reading_progress (app_user uid) assign cond NOW db = Ok db' ->
        Forall2 (fun OLD NEW =>
                   ReadingProgress.user_id NEW = ReadingProgress.user_id OLD)
                (reading_progress db) (reading_progress db'))
  /\ (forall uid assign cond NOW db db',
        update_reading_sessions (app_user uid) assign cond NOW db = Ok db' ->
        Forall2 (fun OLD NEW =>
                   ReadingSession.user_id NEW = ReadingSession.user_id OLD)
                (reading_sessions db) (reading_sessions db'))
  /\ (forall history uid v cond NOW,
        v <> uid ->
        update_reading_progress (app_user uid) (set_user_id v) cond NOW
          (after history)
        = if existsb (targeted ReadingProgress.schema (app_user uid) cond)
               (reading_progress (after history))
          then Err insufficient_privilege
          else Ok (after history))
  /\ (forall history NOW, exists db',
        update_reading_progress table_owner (set_user_id None) every_row NOW
          (after history) = Ok db'
        /\ Forall (fun x => ReadingProgress.user_id x = None)
                  (reading_progress db'))
  /\ map (fun x => (ReadingProgress.created_at x, ReadingProgress.book_id x))
         (reading_progress (after bob_reads)) = [(Some 5, Some novel)]
  /\ map (fun x => (ReadingProgress.created_at x, ReadingProgress.book_id x))
         (reading_progress (after bob_moves_row)) = [(Some 0, Some essay)]
  /\ map ReadingProgress.user_id (reading_progress (after bob_reads))
     = [Some bob]
  /\ map ReadingProgress.user_id (reading_progress (after owner_reassigns))
     = [Some alice].
Proof.
  split; [intros now NEW; simpl; repeat split|].
  split; [intros now NEW; simpl; repeat split|].
  split.
  { intros history r v NOW. eexists. split.
    - apply set_created_at_succeeds, after_consistent.
    - simpl. apply Forall2_map_r. intros x. unfold updated, targeted, every_row.
      rewrite andb_true_r. destruct (policy _ r x); reflexivity. }
  split.
  { intros history r NOW. eexists. split.
    - apply set_book_id_null_succeeds, after_consistent.
    - simpl. apply Forall2_map_r. intros x. unfold updated, targeted, every_row.
      rewrite andb_true_r. destruct (policy _ r x); reflexivity. }
  split; [intros *; apply update_reading_progress_by_user|].
  split; [intros *; apply update_reading_sessions_by_user|].
  split.
  { intros history uid v cond NOW Hne.
    apply set_user_id_refused; [apply after_consistent|exact Hne]. }
  split; [|vm_compute; repeat split; reflexivity].
  intros history NOW. eexists. split.
  - apply owner_set_user_id_null_succeeds, after_consistent.
  - simpl. induction (reading_progress (after history)) as [|x l IH]; simpl;
      constructor; [reflexivity|exact IH].
Qed.

Lemma trigger_changes_only_updated_at_witness :
  Some alice <> Some bob
  /\ update_reading_progress (app_user (Some bob)) (set_user_id (Some alice))
       (fun x => bool_decide (ReadingProgress.book_id x = Some novel)) 9
       (after bob_reads)
     = Err insufficient_privilege
  /\ update_reading_progress (app_user (Some bob)) (set_user_id (Some alice))
       (fun x => bool_decide (ReadingProgress.book_id x = Some essay)) 9
       (after bob_reads)
     = Ok (after bob_reads)
  /\ match update_reading_progress (app_user (Some bob))
             (set_created_at (Some 0)) every_row 9 (after bob_reads) with
     | Ok db' =>
         Forall2 (fun OLD NEW =>
                    ReadingProgress.user_id NEW = ReadingProgress.user_id OLD)
                 (reading_progress (after bob_reads)) (reading_progress db')
     | Err _ => False
     end.
Proof.
  destruct trigger_changes_only_updated_at
    as (_ & _ & _ & _ & Hprogress & _ & Hrefused & _).
  split; [discriminate|].
  split; [|split].
  - rewrite (Hrefused bob_reads (Some bob) (Some alice)) by discriminate.
    vm_compute. reflexivity.
  - rewrite (Hrefused bob_reads (Some bob) (Some alice)) by discriminate.
    vm_compute. reflexivity.
  - destruct (update_reading_progress _ _ _ _ _) as [db'|e] eqn:E.
    + exact (Hprogress _ _ _ _ _ _ E).
    + vm_compute in E. discriminate.
Defined.
